(** * Data-Policy-Agent: the database scanner and the violation engine

    A shallow embedding of [src/database/scanner.py] (column matching,
    the per-(table, rule) check, the encryption checker, the table loop)
    and of [src/detection/violation_engine.py] (severity resolution,
    risk score, categories, framework tags, [detect]).

    Conventions of the embedding:
    - a Python [dict] used as a record is a Rocq record whose optional keys
      are [option] fields ([None] is a missing key or a Python [None]);
      [d.get(k, dflt)] is [default dflt (field d)];
    - a Python [dict] used as a table is a [gmap];
    - Python [int] is [Z]; Python [float] is idealised as a real number [R]
      ([math.log10] is the real logarithm, [round(x, 2)] rounds the real
      [x] to the nearest hundredth, ties to even);
    - Python [str] is [string] (one-byte characters);
    - code that awaits the backend is a state-and-exception computation
      over an abstract [World]. *)

From Stdlib Require Import Reals Lra Lia ZArith String Ascii List DecimalString.
From stdpp Require Import gmap strings list sorting.

(** ** Python helpers *)

Module Py.

(** [str.lower()] on one-byte characters. *)
Definition lower_ascii (c : ascii) : ascii :=
  let n := nat_of_ascii c in
  if Nat.leb 65 n && Nat.leb n 90 then ascii_of_nat (n + 32) else c.

Fixpoint lower (s : string) : string :=
  match s with
  | EmptyString => EmptyString
  | String c s' => String (lower_ascii c) (lower s')
  end.

(** [pat in s] for strings. *)
Fixpoint contains (pat s : string) : bool :=
  String.prefix pat s ||
  match s with
  | EmptyString => false
  | String _ s' => contains pat s'
  end.

Definition is_digit_ascii (c : ascii) : bool :=
  let n := nat_of_ascii c in Nat.leb 48 n && Nat.leb n 57.

Fixpoint all_digits (s : string) : bool :=
  match s with
  | EmptyString => true
  | String c s' => is_digit_ascii c && all_digits s'
  end.

(** [s.isdigit()]: non-empty and every character a digit. *)
Definition isdigit (s : string) : bool :=
  match s with
  | EmptyString => false
  | _ => all_digits s
  end.

(** [s.split('.', 1)[1]] when ['.' in s]: what follows the first dot. *)
Fixpoint after_first_dot (s : string) : option string :=
  match s with
  | EmptyString => None
  | String c s' => if Ascii.eqb c "."%char then Some s' else after_first_dot s'
  end.

(** [x in l] for a list of strings. *)
Definition str_in (x : string) (l : list string) : bool :=
  existsb (String.eqb x) l.

(** Truth value of an optional string: [None] and the empty string are
    falsy. *)
Definition truthy_str (o : option string) : bool :=
  match o with
  | Some (String _ _) => true
  | _ => false
  end.

(** Truth value of a list. *)
Definition truthy_list {A} (l : list A) : bool :=
  match l with
  | [] => false
  | _ => true
  end.

(** The double quote character, for query texts. *)
Definition dquote : string := String (ascii_of_nat 34) EmptyString.
Definition squote : string := String (ascii_of_nat 39) EmptyString.

(** Exceptions (instances of [Exception]); [str(e)] is [exc_msg]. *)
Record PyException := mkExc { exc_class : string; exc_msg : string }.

Definition KeyError (key : string) : PyException :=
  mkExc "KeyError" (squote +:+ key +:+ squote).

(** The result of running a piece of code: a value or a raised
    exception. *)
Inductive outcome (A : Type) : Type :=
| Returns (a : A)
| Raises (e : PyException).
Arguments Returns {A} a.
Arguments Raises {A} e.

(** Values a backend driver hands back in a row, and [str(value)]. *)
Inductive SqlValue :=
| VText (s : string)
| VInt (z : Z)
| VNull.

Definition str (v : SqlValue) : string :=
  match v with
  | VText s => s
  | VInt z => NilZero.string_of_int (Z.to_int z)
  | VNull => "None"
  end.

(** *** Floating point, idealised over the reals *)

(** [math.log10]. *)
Definition log10 (x : R) : R := (ln x / ln 10)%R.

(** Nearest integer, ties to the even neighbour. *)
Definition round_half_even (x : R) : Z :=
  let f := Zfloor x in
  let d := (x - IZR f)%R in
  if Rlt_dec d (1 / 2) then f
  else if Rlt_dec (1 / 2) d then (f + 1)%Z
  else if Z.even f then f else (f + 1)%Z.

(** [round(x, 2)]. *)
Definition round2 (x : R) : R := (IZR (round_half_even (x * 100)) / 100)%R.

(** *** [list.sort(key=..., reverse=True)]

    The library sort is stable also when reversed: the result is in
    descending key order and elements with equal keys keep their original
    relative order.  It is modelled by the insertion sort with that
    contract. *)
Section Sort.
Context {A : Type} (key : A → R).

Fixpoint insert_desc (x : A) (l : list A) : list A :=
  match l with
  | [] => [x]
  | y :: l' =>
      if Rlt_dec (key x) (key y) then y :: insert_desc x l'
      else x :: y :: l'
  end.

Definition sort_reverse (l : list A) : list A :=
  foldr insert_desc [] l.

(** Descending key order. *)
Definition key_ge (a b : A) : Prop := (key b <= key a)%R.
End Sort.

End Py.

Export Py.

#[global] Instance R_eq_dec : EqDecision R := Req_dec_T.

(** ** Data model *)

(** A compliance rule (a [dict] with the keys the engine reads). *)
Record Rule := mkRule {
  r_id : option string;
  r_type : option string;
  r_text : option string;
  r_severity : option string;
  r_entities : list string;
  r_sql_condition : option string
}.

(** The empty [dict] that stands for a rule that was not found. *)
Definition empty_rule : Rule := mkRule None None None None [] None.

(** A potential violation, as a checker appends it. *)
Record PotentialViolation := mkPV {
  pv_type : option string;
  pv_table : option string;
  pv_column : option string;
  pv_columns : option (list string);
  pv_rule_id : option string;
  pv_rule_text : option string;
  pv_violation_count : option Z;
  pv_details : option string;
  pv_requires_review : option bool;
  pv_error : option string
}.

(** A column descriptor and a table schema, as [get_schema] returns them;
    [ts_columns] is [None] when the schema could not be read. *)
Record ColumnInfo := mkColumn {
  col_name : string;
  col_type : string;
  col_nullable : bool
}.

Record TableSchema := mkTableSchema {
  ts_columns : option (list ColumnInfo)
}.

(** The scan result. *)
Record ScanResult := mkScanResult {
  sr_scan_id : option string;
  sr_started_at : option string;
  sr_tables_scanned : list string;
  sr_rules_checked : nat;
  sr_potential_violations : list PotentialViolation;
  sr_schema : gmap string TableSchema;
  sr_completed_at : option string;
  sr_total_potential_violations : option nat
}.

(** A violation record.  The first thirteen keys are set by the [dict]
    literal in [detect]; [severity], [risk_score], [category] and
    [frameworks] are added afterwards, one by one, and are [None] until
    then. *)
Record Violation := mkViolation {
  v_id : string;
  v_scan_id : option string;
  v_rule_id : option string;
  v_rule_type : option string;
  v_rule_text : option string;
  v_table : option string;
  v_column : option string;
  v_columns : option (list string);
  v_violation_count : Z;
  v_details : option string;
  v_detected_at : string;
  v_status : string;
  v_requires_review : bool;
  v_severity : option string;
  v_risk_score : option R;
  v_category : option string;
  v_frameworks : option (list string)
}.

Definition set_severity (s : string) (v : Violation) : Violation :=
  mkViolation (v_id v) (v_scan_id v) (v_rule_id v) (v_rule_type v)
    (v_rule_text v) (v_table v) (v_column v) (v_columns v)
    (v_violation_count v) (v_details v) (v_detected_at v) (v_status v)
    (v_requires_review v) (Some s) (v_risk_score v) (v_category v)
    (v_frameworks v).

Definition set_risk_score (x : R) (v : Violation) : Violation :=
  mkViolation (v_id v) (v_scan_id v) (v_rule_id v) (v_rule_type v)
    (v_rule_text v) (v_table v) (v_column v) (v_columns v)
    (v_violation_count v) (v_details v) (v_detected_at v) (v_status v)
    (v_requires_review v) (v_severity v) (Some x) (v_category v)
    (v_frameworks v).

Definition set_category (c : string) (v : Violation) : Violation :=
  mkViolation (v_id v) (v_scan_id v) (v_rule_id v) (v_rule_type v)
    (v_rule_text v) (v_table v) (v_column v) (v_columns v)
    (v_violation_count v) (v_details v) (v_detected_at v) (v_status v)
    (v_requires_review v) (v_severity v) (v_risk_score v) (Some c)
    (v_frameworks v).

Definition set_frameworks (f : list string) (v : Violation) : Violation :=
  mkViolation (v_id v) (v_scan_id v) (v_rule_id v) (v_rule_type v)
    (v_rule_text v) (v_table v) (v_column v) (v_columns v)
    (v_violation_count v) (v_details v) (v_detected_at v) (v_status v)
    (v_requires_review v) (v_severity v) (v_risk_score v) (v_category v)
    (Some f).

(** ** [ViolationEngine] (src/detection/violation_engine.py) *)

Module ViolationEngine.

Local Open Scope string_scope.
Local Open Scope list_scope.

(** Severity weights for scoring. *)
Definition SEVERITY_WEIGHTS : gmap string Z :=
  list_to_map
    [ ("critical", 100%Z); ("high", 75%Z); ("medium", 50%Z); ("low", 25%Z) ].

(** Rule type risk multipliers. *)
Definition RISK_MULTIPLIERS : gmap string R :=
  list_to_map
    [ ("data_encryption", 1.5%R);
      ("data_retention", 1.3%R);
      ("data_access", 1.4%R);
      ("consent", 1.2%R);
      ("age_restriction", 1.5%R);
      ("geographic_restriction", 1.3%R);
      ("audit_logging", 1.0%R);
      ("data_masking", 1.1%R);
      ("notification", 1.2%R);
      ("other", 1.0%R) ].

(** The engine object: the violations detected so far. *)
Record Engine := mkEngine { detected_violations : list Violation }.

(** [_determine_severity]. *)
Definition _determine_severity
    (potential_violation : PotentialViolation) (rule : Rule) : string :=
  let rule_severity := r_severity rule in
  if truthy_str rule_severity then default EmptyString rule_severity
  else
    let violation_type := default EmptyString (pv_type potential_violation) in
    if str_in violation_type ["data_encryption"; "age_restriction"] then
      let violation_count :=
        default 1%Z (pv_violation_count potential_violation) in
      if (100 <? violation_count)%Z then "critical" else "high"
    else if str_in violation_type
              ["data_retention"; "data_access"; "geographic_restriction"] then
      "high"
    else if str_in violation_type
              ["consent"; "data_masking"; "notification"] then
      "medium"
    else if String.eqb violation_type "audit_logging" then
      "low"
    else "medium".

(** [_calculate_risk_score]. *)
Definition _calculate_risk_score (violation : Violation) : R :=
  let base_score :=
    default 50%Z (SEVERITY_WEIGHTS !! default "medium" (v_severity violation)) in
  let multiplier :=
    match v_rule_type violation with
    | Some rule_type => default 1.0%R (RISK_MULTIPLIERS !! rule_type)
    | None => 1.0%R
    end in
  let count := v_violation_count violation in
  let count_factor := (1 + log10 (IZR (Z.max count 1)) * 0.1)%R in
  let score := (IZR base_score * multiplier * count_factor)%R in
  round2 (Rmin score 100).

(** [_categorize_violation]. *)
Definition categories : gmap string string :=
  list_to_map
    [ ("data_retention", "Data Lifecycle");
      ("data_access", "Access Control");
      ("data_encryption", "Data Protection");
      ("data_masking", "Data Protection");
      ("consent", "Privacy Rights");
      ("age_restriction", "Privacy Rights");
      ("geographic_restriction", "Data Sovereignty");
      ("audit_logging", "Audit & Compliance");
      ("notification", "Incident Response") ].

Definition _categorize_violation (violation : Violation) : string :=
  match v_rule_type violation with
  | Some rule_type => default "General Compliance" (categories !! rule_type)
  | None => "General Compliance"
  end.

(** [_map_to_frameworks]. *)
Definition _map_to_frameworks (violation : Violation) : list string :=
  let rule_type := default EmptyString (v_rule_type violation) in
  let frameworks := [] in
  let frameworks :=
    if str_in rule_type
         ["consent"; "data_retention"; "geographic_restriction";
          "data_access"; "notification"]
    then frameworks ++ ["GDPR"] else frameworks in
  let frameworks :=
    if str_in rule_type
         ["data_encryption"; "data_access"; "audit_logging"; "data_retention"]
    then frameworks ++ ["HIPAA"] else frameworks in
  let frameworks :=
    if str_in rule_type ["consent"; "data_access"; "data_retention"]
    then frameworks ++ ["CCPA"] else frameworks in
  let frameworks :=
    if str_in rule_type
         ["data_encryption"; "data_masking"; "data_access"; "audit_logging"]
    then frameworks ++ ["PCI-DSS"] else frameworks in
  let frameworks :=
    if str_in rule_type ["audit_logging"; "data_access"]
    then frameworks ++ ["SOX"] else frameworks in
  let frameworks :=
    if String.eqb rule_type "age_restriction"
    then frameworks ++ ["COPPA"] else frameworks in
  frameworks.

(** [{r['id']: r for r in rules if 'id' in r}]: a later rule with the
    same id replaces an earlier one. *)
Definition build_rules_map (rules : list Rule) : gmap string Rule :=
  foldl (λ m r, match r_id r with
                | Some i => <[i := r]> m
                | None => m
                end) ∅ rules.

(** [rules_map.get(rule_id, {})]. *)
Definition lookup_rule (rules_map : gmap string Rule)
    (rule_id : option string) : Rule :=
  match rule_id with
  | Some i => default empty_rule (rules_map !! i)
  | None => empty_rule
  end.

Definition is_scan_error (pv : PotentialViolation) : bool :=
  match pv_type pv with
  | Some t => String.eqb t "scan_error"
  | None => false
  end.

(** A hit that [detect] turns into a violation. *)
Definition is_hit (pv : PotentialViolation) : Prop := is_scan_error pv = false.

Section Detect.
(** The identifiers and the clock readings drawn while [detect] runs:
    [uuid4 k] and [utcnow k] are the ones of the [k]-th violation
    created. *)
Variable uuid4 : nat → string.
Variable utcnow : nat → string.

(** The body of the loop of [detect] for one hit that is not a scan
    error: the [dict] literal, then the four assignments. *)
Definition make_violation (scan_results : ScanResult)
    (rules_map : gmap string Rule) (k : nat)
    (pv : PotentialViolation) : Violation :=
  let rule_id := pv_rule_id pv in
  let rule := lookup_rule rules_map rule_id in
  let violation :=
    {| v_id := uuid4 k;
       v_scan_id := sr_scan_id scan_results;
       v_rule_id := rule_id;
       v_rule_type := pv_type pv;
       v_rule_text :=
         if truthy_str (pv_rule_text pv) then pv_rule_text pv
         else r_text rule;
       v_table := pv_table pv;
       v_column := pv_column pv;
       v_columns := pv_columns pv;
       v_violation_count := default 1%Z (pv_violation_count pv);
       v_details := pv_details pv;
       v_detected_at := utcnow k;
       v_status := "open";
       v_requires_review := default false (pv_requires_review pv);
       v_severity := None;
       v_risk_score := None;
       v_category := None;
       v_frameworks := None |} in
  let violation := set_severity (_determine_severity pv rule) violation in
  let violation := set_risk_score (_calculate_risk_score violation) violation in
  let violation := set_category (_categorize_violation violation) violation in
  let violation := set_frameworks (_map_to_frameworks violation) violation in
  violation.

(** The [for pv in potential_violations] loop; [violations] is the
    list built so far. *)
Fixpoint detect_loop (scan_results : ScanResult)
    (rules_map : gmap string Rule) (pvs : list PotentialViolation)
    (violations : list Violation) : list Violation :=
  match pvs with
  | [] => violations
  | pv :: rest =>
      if is_scan_error pv then
        detect_loop scan_results rules_map rest violations
      else
        detect_loop scan_results rules_map rest
          (violations ++
             [make_violation scan_results rules_map (length violations) pv])
  end.

(** [detect]: returns the sorted violations and the engine with its
    history extended. *)
Definition detect (self : Engine) (scan_results : ScanResult)
    (rules : list Rule) : list Violation * Engine :=
  let potential_violations := sr_potential_violations scan_results in
  let rules_map := build_rules_map rules in
  let violations :=
    detect_loop scan_results rules_map potential_violations [] in
  let violations :=
    sort_reverse (λ v, default 0%R (v_risk_score v)) violations in
  (violations, mkEngine (detected_violations self ++ violations)).

(** The violations before sorting, in discovery order: the [k]-th hit
    that is not a scan error gives the [k]-th violation. *)
Definition in_discovery_order (scan_results : ScanResult) (rules : list Rule)
    : list Violation :=
  imap (make_violation scan_results (build_rules_map rules))
    (filter is_hit (sr_potential_violations scan_results)).
End Detect.

End ViolationEngine.

(** ** [DatabaseScanner] (src/database/scanner.py) *)

Module DatabaseScanner.

Local Open Scope string_scope.
Local Open Scope list_scope.

(** A row of a query result: a map from column names to values. *)
Abbreviation Row := (gmap string SqlValue).

(** Code that awaits the backend: it runs in a world, returns or raises,
    and leaves a world behind. *)
Definition Async (World A : Type) : Type := World → outcome A * World.

Definition ret {World A} (a : A) : Async World A := λ w, (Returns a, w).

Definition bind {World A B} (m : Async World A) (k : A → Async World B)
    : Async World B :=
  λ w, match m w with
       | (Returns a, w') => k a w'
       | (Raises e, w') => (Raises e, w')
       end.

(** [try: body except Exception as e: handler(e)]. *)
Definition try_except {World A} (body : Async World A)
    (handler : PyException → Async World A) : Async World A :=
  λ w, match body w with
       | (Returns a, w') => (Returns a, w')
       | (Raises e, w') => handler e w'
       end.

#[global] Instance Async_ret {World} : MRet (Async World) := λ A, ret.
#[global] Instance Async_bind {World} : MBind (Async World) :=
  λ A B k m, bind m k.

(** The backend access port ([DatabaseConnector]). *)
Record DatabaseConnector (World : Type) := mkConnector {
  execute_query : string → Async World (list Row);
  get_tables : Async World (list string);
  get_full_schema : Async World (gmap string TableSchema);
  is_sql : bool
}.
Arguments execute_query {World} _ _.
Arguments get_tables {World} _.
Arguments get_full_schema {World} _.
Arguments is_sql {World} _.

(** The checkers of the other categories.  Each awaits the backend and
    returns its hits or raises; the scanner only dispatches to them. *)
Record CategoryCheckers (World : Type) := mkCheckers {
  _check_data_retention :
    string → Rule → list string → Z → Async World (list PotentialViolation);
  _check_data_masking :
    string → Rule → list string → Z → Async World (list PotentialViolation);
  _check_data_access :
    string → Rule → list string → Async World (list PotentialViolation);
  _check_age_restriction :
    string → Rule → list string → Z → Async World (list PotentialViolation);
  _check_geographic_restriction :
    string → Rule → list string → Z → Async World (list PotentialViolation);
  _check_audit_logging :
    string → Rule → list string → Async World (list PotentialViolation);
  _check_sql_condition :
    string → Rule → Z → Async World (list PotentialViolation)
}.
Arguments _check_data_retention {World} _ _ _ _ _.
Arguments _check_data_masking {World} _ _ _ _ _.
Arguments _check_data_access {World} _ _ _ _.
Arguments _check_age_restriction {World} _ _ _ _ _.
Arguments _check_geographic_restriction {World} _ _ _ _ _.
Arguments _check_audit_logging {World} _ _ _ _.
Arguments _check_sql_condition {World} _ _ _ _.

(** *** [_find_applicable_columns] *)

Definition sensitive_patterns : gmap string (list string) :=
  list_to_map
    [ ("data_encryption",
        ["password"; "ssn"; "credit_card"; "account_number"; "secret";
         "token"; "key"]);
      ("data_masking",
        ["email"; "phone"; "ssn"; "credit_card"; "account"; "address"]);
      ("consent", ["email"; "marketing"; "consent"; "opted"]);
      ("age_restriction",
        ["birthdate"; "birth_date"; "dob"; "date_of_birth"; "age"]);
      ("geographic_restriction",
        ["country"; "region"; "location"; "address"; "city"; "state"]) ].

(** [for entity in entities]. *)
Fixpoint entity_loop (entities columns applicable : list string)
    : list string :=
  match entities with
  | [] => applicable
  | entity :: rest =>
      match after_first_dot entity with
      | Some col =>
          if str_in col columns
          then entity_loop rest columns (applicable ++ [col])
          else entity_loop rest columns applicable
      | None =>
          if str_in entity columns
          then entity_loop rest columns (applicable ++ [entity])
          else entity_loop rest columns applicable
      end
  end.

(** [for pattern in patterns], for one column. *)
Fixpoint pattern_loop (col col_lower : string) (patterns applicable : list string)
    : list string :=
  match patterns with
  | [] => applicable
  | pattern :: rest =>
      if contains pattern col_lower && negb (str_in col applicable)
      then pattern_loop col col_lower rest (applicable ++ [col])
      else pattern_loop col col_lower rest applicable
  end.

(** [for col in columns]. *)
Fixpoint column_loop (columns patterns applicable : list string)
    : list string :=
  match columns with
  | [] => applicable
  | col :: rest =>
      column_loop rest patterns
        (pattern_loop col (lower col) patterns applicable)
  end.

Definition _find_applicable_columns (rule : Rule) (columns : list string)
    : list string :=
  let applicable := [] in
  let entities := r_entities rule in
  let applicable := entity_loop entities columns applicable in
  let rule_type := default EmptyString (r_type rule) in
  let patterns := default [] (sensitive_patterns !! rule_type) in
  column_loop columns patterns applicable.

(** *** [_check_data_encryption] *)

(** The plaintext heuristic applied to one sampled value. *)
Definition is_plaintext (col value : string) : bool :=
  let is_plaintext := false in
  if contains "ssn" (lower col) && Nat.eqb (String.length value) 9
     && isdigit value then true
  else if contains "credit" (lower col)
          && (Nat.eqb (String.length value) 15
              || Nat.eqb (String.length value) 16)
          && isdigit value then true
  else if contains "password" (lower col)
          && Nat.ltb (String.length value) 60 then true
  else is_plaintext.

Definition encryption_query (table col : string) : string :=
  "SELECT " +:+ dquote +:+ col +:+ dquote +:+ " FROM " +:+ dquote +:+ table
  +:+ dquote +:+ " WHERE " +:+ dquote +:+ col +:+ dquote
  +:+ " IS NOT NULL LIMIT 10".

Definition encryption_hit (table : string) (rule : Rule) (col : string)
    : PotentialViolation :=
  {| pv_type := Some "data_encryption";
     pv_table := Some table;
     pv_column := Some col;
     pv_columns := None;
     pv_rule_id := r_id rule;
     pv_rule_text := r_text rule;
     pv_violation_count := None;
     pv_details :=
       Some ("Column " +:+ col
             +:+ " appears to contain unencrypted sensitive data");
     pv_requires_review := None;
     pv_error := None |}.

(** [for row in result]: the loop stops at the first plaintext value
    ([break]) or when [row[col]] raises; the list [violations] keeps what
    was appended either way. *)
Fixpoint encryption_rows (table : string) (rule : Rule) (col : string)
    (result : list Row) (violations : list PotentialViolation)
    : outcome unit * list PotentialViolation :=
  match result with
  | [] => (Returns tt, violations)
  | row :: rest =>
      match row !! col with
      | None => (Raises (KeyError col), violations)
      | Some v =>
          let value := str v in
          if is_plaintext col value
          then (Returns tt, violations ++ [encryption_hit table rule col])
          else encryption_rows table rule col rest violations
      end
  end.

(** The number of iterations of [for row in result] that run: the loop is
    left at the first plaintext value ([break]) and at the first row on
    which [row[col]] raises. *)
Fixpoint rows_examined (col : string) (result : list Row) : nat :=
  match result with
  | [] => 0
  | row :: rest =>
      match row !! col with
      | None => 1
      | Some v =>
          if is_plaintext col (str v) then 1
          else S (rows_examined col rest)
      end
  end.

(** A row whose value in [col] does not look like plaintext. *)
Definition passes (col : string) (row : Row) : Prop :=
  ∃ v : SqlValue, row !! col = Some v ∧ is_plaintext col (str v) = false.

Section Scanner.
Context {World : Type}.
Variable connector : DatabaseConnector World.
Variable checkers : CategoryCheckers World.
(** [datetime.utcnow()] rendered by [strftime] and by [isoformat]. *)
Variable utcnow_strftime : Async World string.
Variable utcnow_isoformat : Async World string.

(** The body of [for col in columns] in [_check_data_encryption]: the
    [try] block with its [except Exception], which only logs. *)
Definition encryption_column (table : string) (rule : Rule) (col : string)
    (violations : list PotentialViolation)
    : Async World (list PotentialViolation) :=
  λ w,
    let query := encryption_query table col in
    match execute_query connector query w with
    | (Returns result, w') =>
        if truthy_list result then
          match encryption_rows table rule col result violations with
          | (Returns _, violations') => (Returns violations', w')
          | (Raises _, violations') => (Returns violations', w')
          end
        else (Returns violations, w')
    | (Raises _, w') => (Returns violations, w')
    end.

Fixpoint encryption_columns (table : string) (rule : Rule)
    (columns : list string) (violations : list PotentialViolation)
    : Async World (list PotentialViolation) :=
  match columns with
  | [] => ret violations
  | col :: rest =>
      violations' ← encryption_column table rule col violations;
      encryption_columns table rule rest violations'
  end.

Definition _check_data_encryption (table : string) (rule : Rule)
    (columns : list string) : Async World (list PotentialViolation) :=
  encryption_columns table rule columns [].

(** *** [_check_rule_against_table] *)

(** The diagnostic entry the [except] clause appends. *)
Definition scan_error_entry (table : string) (rule : Rule)
    (e : PyException) : PotentialViolation :=
  {| pv_type := Some "scan_error";
     pv_table := Some table;
     pv_column := None;
     pv_columns := None;
     pv_rule_id := r_id rule;
     pv_rule_text := None;
     pv_violation_count := None;
     pv_details := None;
     pv_requires_review := None;
     pv_error := Some (exc_msg e) |}.

(** The body of the [try] block: the [if]/[elif] chain on the rule
    type; each branch extends [violations] with what the checker
    returns. *)
Definition dispatch (table : string) (rule : Rule)
    (columns applicable_columns : list string) (sample_size : Z)
    (violations : list PotentialViolation)
    : Async World (list PotentialViolation) :=
  let rule_type := default "other" (r_type rule) in
  if String.eqb rule_type "data_retention" then
    hits ← _check_data_retention checkers table rule columns sample_size;
    mret (violations ++ hits)
  else if String.eqb rule_type "data_encryption" then
    hits ← _check_data_encryption table rule applicable_columns;
    mret (violations ++ hits)
  else if String.eqb rule_type "data_masking" then
    hits ← _check_data_masking checkers table rule applicable_columns
             sample_size;
    mret (violations ++ hits)
  else if String.eqb rule_type "data_access" then
    hits ← _check_data_access checkers table rule columns;
    mret (violations ++ hits)
  else if String.eqb rule_type "age_restriction" then
    hits ← _check_age_restriction checkers table rule columns sample_size;
    mret (violations ++ hits)
  else if String.eqb rule_type "geographic_restriction" then
    hits ← _check_geographic_restriction checkers table rule columns
             sample_size;
    mret (violations ++ hits)
  else if String.eqb rule_type "audit_logging" then
    hits ← _check_audit_logging checkers table rule columns;
    mret (violations ++ hits)
  else if truthy_str (r_sql_condition rule) then
    hits ← _check_sql_condition checkers table rule sample_size;
    mret (violations ++ hits)
  else mret violations.

Definition _check_rule_against_table (table : string) (rule : Rule)
    (columns : list string) (sample_size : Z)
    : Async World (list PotentialViolation) :=
  let violations := [] in
  let applicable_columns := _find_applicable_columns rule columns in
  if negb (truthy_list applicable_columns)
     && negb (truthy_str (r_sql_condition rule))
  then mret violations
  else
    try_except
      (dispatch table rule columns applicable_columns sample_size violations)
      (λ e, mret (violations ++ [scan_error_entry table rule e])).

(** *** [_scan_table] *)

Fixpoint scan_table_loop (table : string) (rules : list Rule)
    (columns : list string) (sample_size : Z)
    (violations : list PotentialViolation)
    : Async World (list PotentialViolation) :=
  match rules with
  | [] => mret violations
  | rule :: rest =>
      rule_violations ←
        _check_rule_against_table table rule columns sample_size;
      scan_table_loop table rest columns sample_size
        (violations ++ rule_violations)
  end.

Definition _scan_table (table : string) (rules : list Rule)
    (schema : TableSchema) (sample_size : Z)
    : Async World (list PotentialViolation) :=
  let columns := col_name <$> default [] (ts_columns schema) in
  scan_table_loop table rules columns sample_size [].

(** *** [scan] *)

Record HistoryEntry := mkHistoryEntry {
  h_scan_id : string;
  h_timestamp : string;
  h_tables : nat;
  h_violations : nat
}.

(** The scanner object: its scan history. *)
Record Scanner := mkScanner { scan_history : list HistoryEntry }.

(** [for table in tables_to_scan]; the state of the loop is the pair of
    [tables_scanned] and [potential_violations]. *)
Fixpoint scan_loop (all_tables : list string)
    (schema : gmap string TableSchema) (rules : list Rule)
    (sample_size : Z) (tables_to_scan : list string)
    (tables_scanned : list string)
    (potential_violations : list PotentialViolation)
    : Async World (list string * list PotentialViolation) :=
  match tables_to_scan with
  | [] => mret (tables_scanned, potential_violations)
  | table :: rest =>
      if negb (str_in table all_tables) then
        scan_loop all_tables schema rules sample_size rest
          tables_scanned potential_violations
      else
        table_results ←
          _scan_table table rules
            (default (mkTableSchema None) (schema !! table)) sample_size;
        scan_loop all_tables schema rules sample_size rest
          (tables_scanned ++ [table])
          (potential_violations ++ table_results)
  end.

Definition scan (self : Scanner) (rules : list Rule)
    (tables : option (list string)) (sample_size : Z)
    : Async World (ScanResult * Scanner) :=
  scan_id ← utcnow_strftime;
  all_tables ← get_tables connector;
  let tables_to_scan :=
    match tables with
    | Some (t :: ts) => t :: ts
    | _ => all_tables
    end in
  schema ← get_full_schema connector;
  started_at ← utcnow_isoformat;
  '(tables_scanned, potential_violations) ←
    scan_loop all_tables schema rules sample_size tables_to_scan [] [];
  completed_at ← utcnow_isoformat;
  let total := length potential_violations in
  mret
    ({| sr_scan_id := Some scan_id;
        sr_started_at := Some started_at;
        sr_tables_scanned := tables_scanned;
        sr_rules_checked := length rules;
        sr_potential_violations := potential_violations;
        sr_schema := schema;
        sr_completed_at := Some completed_at;
        sr_total_potential_violations := Some total |},
     mkScanner
       (scan_history self ++
          [mkHistoryEntry scan_id completed_at (length tables_to_scan)
             total])).
End Scanner.

End DatabaseScanner.


(** ** The risk score as the specification words it *)

Module Spec.

Local Open Scope string_scope.

(** [base = {critical:100, high:75, medium:50, low:25}], any other
    severity 50. *)
Definition base (severity : string) : R :=
  if String.eqb severity "critical" then 100%R
  else if String.eqb severity "high" then 75%R
  else if String.eqb severity "medium" then 50%R
  else if String.eqb severity "low" then 25%R
  else 50%R.

(** The per-category table; a hit without a type counts as any other
    type. *)
Definition typeMultiplier (category : option string) : R :=
  match category with
  | Some t =>
      if String.eqb t "data_encryption" then 1.5%R
      else if String.eqb t "data_retention" then 1.3%R
      else if String.eqb t "data_access" then 1.4%R
      else if String.eqb t "consent" then 1.2%R
      else if String.eqb t "age_restriction" then 1.5%R
      else if String.eqb t "geographic_restriction" then 1.3%R
      else if String.eqb t "audit_logging" then 1.0%R
      else if String.eqb t "data_masking" then 1.1%R
      else if String.eqb t "notification" then 1.2%R
      else 1.0%R
  | None => 1.0%R
  end.

(** [min(100, round(base × typeMultiplier × (1 + log10(max(count,1)) × 0.1), 2))]. *)
Definition risk_score (severity : string) (category : option string)
    (count : Z) : R :=
  Rmin 100
    (round2 (base severity * typeMultiplier category
             * (1 + log10 (IZR (Z.max count 1)) * 0.1))).

End Spec.

(** ** Concrete inputs used by the examples below *)

Module Samples.

Import ViolationEngine DatabaseScanner.
Local Open Scope string_scope.
Local Open Scope list_scope.

Definition hit (type : string) (count : option Z) : PotentialViolation :=
  {| pv_type := Some type;
     pv_table := Some "users";
     pv_column := Some "ssn";
     pv_columns := None;
     pv_rule_id := Some "R1";
     pv_rule_text := None;
     pv_violation_count := count;
     pv_details := None;
     pv_requires_review := None;
     pv_error := None |}.

Definition rule_of (type : string) (severity : option string)
    (entities : list string) (sql_condition : option string) : Rule :=
  {| r_id := Some "R1";
     r_type := Some type;
     r_text := Some "Sensitive data must be protected";
     r_severity := severity;
     r_entities := entities;
     r_sql_condition := sql_condition |}.

(** A violation draft with a given severity, type and count. *)
Definition draft (severity : string) (type : string) (count : Z) : Violation :=
  {| v_id := "v";
     v_scan_id := None;
     v_rule_id := Some "R1";
     v_rule_type := Some type;
     v_rule_text := None;
     v_table := Some "users";
     v_column := Some "ssn";
     v_columns := None;
     v_violation_count := count;
     v_details := None;
     v_detected_at := "2024-01-01T00:00:00";
     v_status := "open";
     v_requires_review := false;
     v_severity := Some severity;
     v_risk_score := None;
     v_category := None;
     v_frameworks := None |}.

(** A row with one column. *)
Definition row1 (col : string) (v : SqlValue) : Row := {[ col := v ]}.

(** A world that counts the calls made to the backend and to the
    checkers. *)
Definition counting {A} (a : A) : Async nat A := λ n, (Returns a, S n).

Definition counting_connector (rows : list Row) : DatabaseConnector nat :=
  {| execute_query := λ _, counting rows;
     get_tables := counting ["users"];
     get_full_schema := counting ∅;
     is_sql := true |}.

Definition counting_checkers : CategoryCheckers nat :=
  {| _check_data_retention := λ _ _ _ _, counting [];
     _check_data_masking := λ _ _ _ _, counting [];
     _check_data_access := λ _ _ _, counting [];
     _check_age_restriction := λ _ _ _ _, counting [];
     _check_geographic_restriction := λ _ _ _ _, counting [];
     _check_audit_logging := λ _ _ _, counting [];
     _check_sql_condition := λ _ _ _, counting [] |}.

(** Checkers whose queries fail. *)
Definition failing {A} (msg : string) : Async nat A :=
  λ n, (Raises (mkExc "OperationalError" msg), S n).

Definition failing_checkers : CategoryCheckers nat :=
  {| _check_data_retention := λ _ _ _ _, failing "no such column";
     _check_data_masking := λ _ _ _ _, failing "no such column";
     _check_data_access := λ _ _ _, failing "no such column";
     _check_age_restriction := λ _ _ _ _, failing "no such function: AGE";
     _check_geographic_restriction := λ _ _ _ _, failing "no such column";
     _check_audit_logging := λ _ _ _, failing "no such column";
     _check_sql_condition := λ _ _ _, failing "syntax error" |}.

(** Ten sampled rows of a column [ssn], every one a 9-digit number, the
    last two stored as integers. *)
Definition ssn_rows : list Row :=
  [ row1 "ssn" (VText "123456789"); row1 "ssn" (VText "234567890");
    row1 "ssn" (VText "345678901"); row1 "ssn" (VText "456789012");
    row1 "ssn" (VText "567890123"); row1 "ssn" (VText "678901234");
    row1 "ssn" (VText "789012345"); row1 "ssn" (VText "890123456");
    row1 "ssn" (VInt 901234567); row1 "ssn" (VInt 912345678) ].

Definition encryption_rule : Rule :=
  rule_of "data_encryption" None ["users.ssn"] None.

(** A rule whose two entity hints name the same column of two tables. *)
Definition two_hints_rule : Rule :=
  rule_of "consent" None ["users.email"; "customers.email"] None.

(** A rule that names no entity and carries no raw predicate. *)
Definition notification_rule : Rule :=
  rule_of "notification" (Some "medium") [] None.

(** A retention rule that names a column of the table. *)
Definition retention_rule : Rule :=
  rule_of "data_retention" None ["users.created_at"] None.

(** A scan result with three raw hits: an audit-logging hit, a scan error
    and an encryption hit with count 150. *)
Definition audit_hit : PotentialViolation :=
  {| pv_type := Some "audit_logging";
     pv_table := Some "users";
     pv_column := None;
     pv_columns := None;
     pv_rule_id := Some "R7";
     pv_rule_text := Some "Tables must carry audit columns";
     pv_violation_count := None;
     pv_details := Some "Table users lacks audit columns";
     pv_requires_review := Some true;
     pv_error := None |}.

Definition three_hits : ScanResult :=
  {| sr_scan_id := Some "20240101_000000";
     sr_started_at := Some "2024-01-01T00:00:00";
     sr_tables_scanned := ["users"];
     sr_rules_checked := 3;
     sr_potential_violations :=
       [ audit_hit;
         scan_error_entry "users" retention_rule
           (mkExc "OperationalError" "no such column");
         hit "data_encryption" (Some 150%Z) ];
     sr_schema := ∅;
     sr_completed_at := Some "2024-01-01T00:00:01";
     sr_total_potential_violations := Some 3 |}.

(** Two audit-logging hits, on two tables: equal risk scores. *)
Definition audit_hit_orders : PotentialViolation :=
  {| pv_type := Some "audit_logging";
     pv_table := Some "orders";
     pv_column := None;
     pv_columns := None;
     pv_rule_id := Some "R7";
     pv_rule_text := Some "Tables must carry audit columns";
     pv_violation_count := None;
     pv_details := Some "Table orders lacks audit columns";
     pv_requires_review := Some true;
     pv_error := None |}.

Definition two_audit_hits : ScanResult :=
  {| sr_scan_id := Some "20240101_000000";
     sr_started_at := Some "2024-01-01T00:00:00";
     sr_tables_scanned := ["users"; "orders"];
     sr_rules_checked := 1;
     sr_potential_violations := [audit_hit; audit_hit_orders];
     sr_schema := ∅;
     sr_completed_at := Some "2024-01-01T00:00:01";
     sr_total_potential_violations := Some 2 |}.

(** An identifier supply and a clock for the examples. *)
Definition ids (k : nat) : string := String (ascii_of_nat (65 + k)) EmptyString.
Definition clock (k : nat) : string := "2024-01-01T00:00:02".

End Samples.


(** ** The checkers of the other categories (src/database/scanner.py) *)

Module Checkers.

Import DatabaseScanner.
Local Open Scope string_scope.
Local Open Scope list_scope.

(** The line feed, and [n] blanks, for the query texts written as
    triple-quoted strings. *)
Definition nl : string := String (ascii_of_nat 10) EmptyString.

Fixpoint blanks (n : nat) : string :=
  match n with
  | O => EmptyString
  | S n' => String " "%char (blanks n')
  end.

(** [str(n)] for an [int]. *)
Definition str_int (z : Z) : string := NilZero.string_of_int (Z.to_int z).

(** [any(k in c.lower() for k in keywords)]. *)
Definition name_matches (keywords : list string) (c : string) : bool :=
  existsb (λ k, contains k (lower c)) keywords.

(** [raise e]. *)
Definition throw {World A} (e : PyException) : Async World A :=
  λ w, (Raises e, w).

Definition TypeError (msg : string) : PyException := mkExc "TypeError" msg.

(** A [for] loop whose body awaits the backend; [s] is the state the body
    updates. *)
Fixpoint for_each {World A S} (body : A → S → Async World S) (l : list A)
    (s : S) : Async World S :=
  match l with
  | [] => mret s
  | x :: rest => s' ← body x s; for_each body rest s'
  end.

(** [result and result[0]['count'] > 0], and the count when the test
    holds: an empty result is falsy; a first row without the key raises
    [KeyError]; a count that is not a number cannot be compared with 0. *)
Definition positive_count (result : list Row) : outcome (option Z) :=
  match result with
  | [] => Returns None
  | row :: _ =>
      match row !! "count" with
      | None => Raises (KeyError "count")
      | Some (VInt count) =>
          Returns (if (0 <? count)%Z then Some count else None)
      | Some (VText _) =>
          Raises (TypeError
                    "'>' not supported between instances of 'str' and 'int'")
      | Some VNull =>
          Raises (TypeError
                    "'>' not supported between instances of 'NoneType' and 'int'")
      end
  end.

(** *** [_check_data_access] *)

Definition access_keywords : list string :=
  ["password"; "secret"; "token"; "key"; "ssn"; "credit"].

Definition access_hit (table : string) (rule : Rule)
    (sensitive_cols : list string) : PotentialViolation :=
  {| pv_type := Some "data_access";
     pv_table := Some table;
     pv_column := None;
     pv_columns := Some sensitive_cols;
     pv_rule_id := r_id rule;
     pv_rule_text := r_text rule;
     pv_violation_count := None;
     pv_details :=
       Some ("Table contains sensitive columns that may need access controls: "
             +:+ String.concat ", " sensitive_cols);
     pv_requires_review := Some true;
     pv_error := None |}.

Definition _check_data_access {World} (table : string) (rule : Rule)
    (columns : list string) : Async World (list PotentialViolation) :=
  let violations := [] in
  let sensitive_cols := filter (λ c, name_matches access_keywords c) columns in
  if truthy_list sensitive_cols
  then mret (violations ++ [access_hit table rule sensitive_cols])
  else mret violations.

(** *** [_check_audit_logging] *)

Definition audit_cols : list string :=
  ["created_at"; "updated_at"; "modified_at"; "created_by"; "modified_by";
   "audit_log"].

Definition audit_hit (table : string) (rule : Rule) : PotentialViolation :=
  {| pv_type := Some "audit_logging";
     pv_table := Some table;
     pv_column := None;
     pv_columns := None;
     pv_rule_id := r_id rule;
     pv_rule_text := r_text rule;
     pv_violation_count := None;
     pv_details :=
       Some ("Table " +:+ table
             +:+ " lacks audit columns (created_at, updated_at, etc.)");
     pv_requires_review := Some true;
     pv_error := None |}.

Definition _check_audit_logging {World} (table : string) (rule : Rule)
    (columns : list string) : Async World (list PotentialViolation) :=
  let violations := [] in
  let has_audit := existsb (name_matches audit_cols) columns in
  if negb has_audit
  then mret (violations ++ [audit_hit table rule])
  else mret violations.

(** *** [_check_data_masking] *)

(** [value.replace(c, '')] for a one-character [c]. *)
Fixpoint remove_char (c : ascii) (s : string) : string :=
  match s with
  | EmptyString => EmptyString
  | String a s' =>
      if Ascii.eqb a c then remove_char c s' else String a (remove_char c s')
  end.

Definition is_unmasked (col value : string) : bool :=
  let is_unmasked := false in
  if contains "email" (lower col) && contains "@" value
     && negb (String.prefix "***" value) then true
  else if contains "phone" (lower col)
          && Nat.leb 10
               (String.length
                  (remove_char " "%char (remove_char "-"%char value)))
  then true
  else is_unmasked.

Definition masking_query (table col : string) : string :=
  "SELECT " +:+ dquote +:+ col +:+ dquote +:+ " FROM " +:+ dquote +:+ table
  +:+ dquote +:+ " WHERE " +:+ dquote +:+ col +:+ dquote
  +:+ " IS NOT NULL LIMIT 10".

Definition masking_hit (table : string) (rule : Rule) (col : string)
    : PotentialViolation :=
  {| pv_type := Some "data_masking";
     pv_table := Some table;
     pv_column := Some col;
     pv_columns := None;
     pv_rule_id := r_id rule;
     pv_rule_text := r_text rule;
     pv_violation_count := None;
     pv_details :=
       Some ("Column " +:+ col +:+ " contains unmasked sensitive data");
     pv_requires_review := None;
     pv_error := None |}.

(** [for row in result] of the masking checker. *)
Fixpoint masking_rows (table : string) (rule : Rule) (col : string)
    (result : list Row) (violations : list PotentialViolation)
    : outcome unit * list PotentialViolation :=
  match result with
  | [] => (Returns tt, violations)
  | row :: rest =>
      match row !! col with
      | None => (Raises (KeyError col), violations)
      | Some v =>
          let value := str v in
          if is_unmasked col value
          then (Returns tt, violations ++ [masking_hit table rule col])
          else masking_rows table rule col rest violations
      end
  end.

(** *** [_check_sql_condition] *)

(** A hit of the generic checker: the keys the engine reads, and the
    predicate it carries. *)
Record SqlHit := mkSqlHit {
  sql_hit : PotentialViolation;
  sql_hit_condition : string
}.

Definition sql_condition_query (table sql_condition : string) : string :=
  "SELECT COUNT(*) as count FROM " +:+ dquote +:+ table +:+ dquote
  +:+ " WHERE " +:+ sql_condition.

Definition sql_condition_hit (table : string) (rule : Rule)
    (sql_condition : string) (count : Z) : SqlHit :=
  {| sql_hit :=
       {| pv_type := Some (default "custom" (r_type rule));
          pv_table := Some table;
          pv_column := None;
          pv_columns := None;
          pv_rule_id := r_id rule;
          pv_rule_text := r_text rule;
          pv_violation_count := Some count;
          pv_details :=
            Some ("Found " +:+ str_int count
                  +:+ " records matching violation condition");
          pv_requires_review := None;
          pv_error := None |};
     sql_hit_condition := sql_condition |}.

(** *** [_check_geographic_restriction] *)

(** A hit of the geographic checker: the keys the engine reads, and the
    sampled values. *)
Record GeoHit := mkGeoHit {
  geo_hit : PotentialViolation;
  unique_regions : list SqlValue
}.

Definition geo_keywords : list string := ["country"; "region"; "location"].

(** The entries of the list [restricted]. *)
Record RestrictedRegion := mkRestricted {
  restricted_type : string;
  restricted_regions : list string
}.

Definition geographic_query (table col : string) : string :=
  "SELECT DISTINCT " +:+ dquote +:+ col +:+ dquote +:+ " FROM " +:+ dquote
  +:+ table +:+ dquote +:+ " WHERE " +:+ dquote +:+ col +:+ dquote
  +:+ " IS NOT NULL LIMIT 50".

Definition geographic_hit (table : string) (rule : Rule) (col : string)
    (unique_values : list SqlValue) : GeoHit :=
  {| geo_hit :=
       {| pv_type := Some "geographic_restriction";
          pv_table := Some table;
          pv_column := Some col;
          pv_columns := None;
          pv_rule_id := r_id rule;
          pv_rule_text := r_text rule;
          pv_violation_count := None;
          pv_details :=
            Some ("Geographic data found in " +:+ col
                  +:+ ". Manual review needed for compliance.");
          pv_requires_review := Some true;
          pv_error := None |};
     unique_regions := take 10 unique_values |}.

(** [[v[col] for v in values]]: the first row without the key raises. *)
Fixpoint column_values (col : string) (values : list Row)
    : outcome (list SqlValue) :=
  match values with
  | [] => Returns []
  | v :: rest =>
      match v !! col with
      | None => Raises (KeyError col)
      | Some x =>
          match column_values col rest with
          | Returns xs => Returns (x :: xs)
          | Raises e => Raises e
          end
      end
  end.

(** *** [_check_data_retention] *)

(** The two keys of a rule's [dict] that only the retention checker
    reads; the value is an [int] or a [str], as the rule extractor leaves
    it. *)
Inductive RetentionValue :=
| RVInt (z : Z)
| RVStr (s : string).

Record RetentionKeys := mkRetentionKeys {
  retention_value : option RetentionValue;
  retention_unit : option string
}.

Definition date_keywords : list string :=
  ["date"; "time"; "created"; "updated"; "modified"].

Definition retention_query (table date_col : string) (retention_days : Z)
    : string :=
  nl +:+ blanks 24 +:+ "SELECT COUNT(*) as count " +:+ nl +:+ blanks 24
  +:+ "FROM " +:+ dquote +:+ table +:+ dquote +:+ " " +:+ nl +:+ blanks 24
  +:+ "WHERE " +:+ dquote +:+ date_col +:+ dquote
  +:+ " < CURRENT_DATE - INTERVAL '" +:+ str_int retention_days +:+ " days'"
  +:+ nl +:+ blanks 20.

Definition retention_query_sqlite (table date_col : string)
    (retention_days : Z) : string :=
  nl +:+ blanks 28 +:+ "SELECT COUNT(*) as count " +:+ nl +:+ blanks 28
  +:+ "FROM " +:+ dquote +:+ table +:+ dquote +:+ " " +:+ nl +:+ blanks 28
  +:+ "WHERE " +:+ dquote +:+ date_col +:+ dquote
  +:+ " < date('now', '-" +:+ str_int retention_days +:+ " days')"
  +:+ nl +:+ blanks 24.

Definition retention_hit (table : string) (rule : Rule) (date_col : string)
    (count retention_days : Z) : PotentialViolation :=
  {| pv_type := Some "data_retention";
     pv_table := Some table;
     pv_column := Some date_col;
     pv_columns := None;
     pv_rule_id := r_id rule;
     pv_rule_text := r_text rule;
     pv_violation_count := Some count;
     pv_details :=
       Some ("Found " +:+ str_int count +:+ " records older than "
             +:+ str_int retention_days +:+ " days based on " +:+ date_col);
     pv_requires_review := None;
     pv_error := None |}.

(** *** [_check_age_restriction] *)

Definition birth_keywords : list string := ["birth"; "dob"; "date_of_birth"].

(** [\s] and [\d] on one-byte characters below 128. *)
Definition is_space_ascii (c : ascii) : bool :=
  let n := nat_of_ascii c in
  Nat.eqb n 32 || (Nat.leb 9 n && Nat.leb n 13)
  || (Nat.leb 28 n && Nat.leb n 31).

Fixpoint take_digits (s : string) : string * string :=
  match s with
  | EmptyString => (EmptyString, EmptyString)
  | String c s' =>
      if is_digit_ascii c
      then let '(ds, rest) := take_digits s' in (String c ds, rest)
      else (EmptyString, s)
  end.

Fixpoint drop_spaces (s : string) : string :=
  match s with
  | EmptyString => EmptyString
  | String c s' => if is_space_ascii c then drop_spaces s' else s
  end.

(** [re.search(r'(\d+)\s*(?:years?)', text, re.IGNORECASE)], returning
    [match.group(1)]: the leftmost run of digits that is followed, after
    optional white space, by [year] in any case. *)
Fixpoint search_years (text : string) : option string :=
  match text with
  | EmptyString => None
  | String c text' =>
      if is_digit_ascii c then
        let '(digits, rest) := take_digits text in
        if String.prefix "year" (lower (drop_spaces rest))
        then Some digits
        else search_years text'
      else search_years text'
  end.

Definition age_query (table col : string) (min_age : Z) : string :=
  nl +:+ blanks 24 +:+ "SELECT COUNT(*) as count " +:+ nl +:+ blanks 24
  +:+ "FROM " +:+ dquote +:+ table +:+ dquote +:+ " " +:+ nl +:+ blanks 24
  +:+ "WHERE EXTRACT(YEAR FROM AGE(CURRENT_DATE, " +:+ dquote +:+ col
  +:+ dquote +:+ "::date)) < " +:+ str_int min_age +:+ nl +:+ blanks 20.

Definition age_hit (table : string) (rule : Rule) (col : string)
    (count min_age : Z) : PotentialViolation :=
  {| pv_type := Some "age_restriction";
     pv_table := Some table;
     pv_column := Some col;
     pv_columns := None;
     pv_rule_id := r_id rule;
     pv_rule_text := r_text rule;
     pv_violation_count := Some count;
     pv_details :=
       Some ("Found " +:+ str_int count +:+ " records with age below "
             +:+ str_int min_age);
     pv_requires_review := None;
     pv_error := None |}.

Section WithBackend.
Context {World : Type}.
Variable connector : DatabaseConnector World.
(** The builtin [int] applied to a [str]. *)
Variable py_int : string → outcome Z.

(** The body of [for col in columns] of the masking checker. *)
Definition masking_column (table : string) (rule : Rule) (col : string)
    (violations : list PotentialViolation)
    : Async World (list PotentialViolation) :=
  λ w,
    let query := masking_query table col in
    match execute_query connector query w with
    | (Returns result, w') =>
        if truthy_list result then
          match masking_rows table rule col result violations with
          | (Returns _, violations') => (Returns violations', w')
          | (Raises _, violations') => (Returns violations', w')
          end
        else (Returns violations, w')
    | (Raises _, w') => (Returns violations, w')
    end.

Definition _check_data_masking (table : string) (rule : Rule)
    (columns : list string) (sample_size : Z)
    : Async World (list PotentialViolation) :=
  for_each (masking_column table rule) columns [].

Definition _check_sql_condition (table : string) (rule : Rule)
    (sample_size : Z) : Async World (list SqlHit) :=
  let violations := [] in
  if negb (truthy_str (r_sql_condition rule)) then mret violations
  else
    let sql_condition := default EmptyString (r_sql_condition rule) in
    try_except
      (let query := sql_condition_query table sql_condition in
       result ← execute_query connector query;
       match positive_count result with
       | Returns (Some count) =>
           mret (violations
                 ++ [sql_condition_hit table rule sql_condition count])
       | Returns None => mret violations
       | Raises e => throw e
       end)
      (λ _, mret violations).

(** The body of [for col in geo_cols]. *)
Definition geographic_column (table : string) (rule : Rule) (col : string)
    (violations : list GeoHit) : Async World (list GeoHit) :=
  try_except
    (values ← execute_query connector (geographic_query table col);
     if truthy_list values then
       match column_values col values with
       | Returns unique_values =>
           mret (violations ++ [geographic_hit table rule col unique_values])
       | Raises e => throw e
       end
     else mret violations)
    (λ _, mret violations).

Definition _check_geographic_restriction (table : string) (rule : Rule)
    (columns : list string) (sample_size : Z) : Async World (list GeoHit) :=
  let violations := [] in
  let geo_cols := filter (λ c, name_matches geo_keywords c) columns in
  if negb (truthy_list geo_cols) then mret violations
  else
    let restricted := [] in
    let rule_text := lower (default EmptyString (r_text rule)) in
    let restricted :=
      if contains "eu" rule_text || contains "eea" rule_text
      then restricted ++ [mkRestricted "EU_DATA" ["EU"; "EEA"]]
      else restricted in
    let restricted :=
      if contains "us" rule_text
      then restricted ++ [mkRestricted "US_DATA" ["US"; "USA"]]
      else restricted in
    for_each (geographic_column table rule) geo_cols violations.

(** [int(rule.get('retention_value', 90))]. *)
Definition int_of_retention_value (v : option RetentionValue) : outcome Z :=
  match v with
  | None => Returns 90%Z
  | Some (RVInt z) => Returns z
  | Some (RVStr s) => py_int s
  end.

(** The body of [for date_col in date_columns]. *)
Definition retention_column (table : string) (rule : Rule)
    (retention_days : Z) (date_col : string)
    (violations : list PotentialViolation)
    : Async World (list PotentialViolation) :=
  try_except
    (if is_sql connector then
       result ←
         try_except
           (execute_query connector
              (retention_query table date_col retention_days))
           (λ _, execute_query connector
                   (retention_query_sqlite table date_col retention_days));
       match positive_count result with
       | Returns (Some count) =>
           mret (violations
                 ++ [retention_hit table rule date_col count retention_days])
       | Returns None => mret violations
       | Raises e => throw e
       end
     else mret violations)
    (λ _, mret violations).

Definition _check_data_retention (table : string) (rule : Rule)
    (keys : RetentionKeys) (columns : list string) (sample_size : Z)
    : Async World (list PotentialViolation) :=
  let violations := [] in
  let date_columns := filter (λ c, name_matches date_keywords c) columns in
  if negb (truthy_list date_columns) then mret violations
  else
    match int_of_retention_value (retention_value keys) with
    | Raises e => throw e
    | Returns retention_days =>
        let retention_unit := lower (default "days" (retention_unit keys)) in
        let retention_days :=
          if contains "month" retention_unit then (retention_days * 30)%Z
          else if contains "year" retention_unit then (retention_days * 365)%Z
          else retention_days in
        for_each (retention_column table rule retention_days) date_columns
          violations
    end.

(** The body of [for col in birth_cols]; a failing query skips the
    column ([except: continue]). *)
Definition age_column (table : string) (rule : Rule) (min_age : Z)
    (col : string) (violations : list PotentialViolation)
    : Async World (list PotentialViolation) :=
  try_except
    (if is_sql connector then
       λ w,
         match execute_query connector (age_query table col min_age) w with
         | (Raises _, w') => (Returns violations, w')
         | (Returns result, w') =>
             match positive_count result with
             | Returns (Some count) =>
                 (Returns (violations ++ [age_hit table rule col count min_age]),
                  w')
             | Returns None => (Returns violations, w')
             | Raises e => (Raises e, w')
             end
         end
     else mret violations)
    (λ _, mret violations).

Definition _check_age_restriction (table : string) (rule : Rule)
    (columns : list string) (sample_size : Z)
    : Async World (list PotentialViolation) :=
  let violations := [] in
  let birth_cols := filter (λ c, name_matches birth_keywords c) columns in
  if negb (truthy_list birth_cols) then mret violations
  else
    let min_age := Returns 18%Z in
    let min_age :=
      match search_years (default EmptyString (r_text rule)) with
      | Some group1 => py_int group1
      | None => min_age
      end in
    match min_age with
    | Raises e => throw e
    | Returns min_age =>
        for_each (age_column table rule min_age) birth_cols violations
    end.

(** The scanner's checkers, as [_check_rule_against_table] calls them;
    [retention_keys rule] reads the two retention keys off the rule's
    [dict]. *)
Definition scanner_checkers (retention_keys : Rule → RetentionKeys)
    : CategoryCheckers World :=
  {| DatabaseScanner._check_data_retention :=
       λ table rule columns sample_size,
         _check_data_retention table rule (retention_keys rule) columns
           sample_size;
     DatabaseScanner._check_data_masking := _check_data_masking;
     DatabaseScanner._check_data_access := _check_data_access;
     DatabaseScanner._check_age_restriction := _check_age_restriction;
     DatabaseScanner._check_geographic_restriction :=
       λ table rule columns sample_size,
         hits ← _check_geographic_restriction table rule columns sample_size;
         mret (geo_hit <$> hits);
     DatabaseScanner._check_audit_logging := _check_audit_logging;
     DatabaseScanner._check_sql_condition :=
       λ table rule sample_size,
         hits ← _check_sql_condition table rule sample_size;
         mret (sql_hit <$> hits) |}.
End WithBackend.

End Checkers.

(** ** [get_summary] and [filter_violations]
       (src/detection/violation_engine.py) *)

Module EngineReports.

Import ViolationEngine.
Local Open Scope string_scope.
Local Open Scope list_scope.

(** [d[k] = d.get(k, 0) + 1]. *)
Definition bump {K} `{Countable K} (k : K) (d : gmap K nat) : gmap K nat :=
  <[k := default 0 (d !! k) + 1]> d.

(** The four counting [dict]s of [get_summary]. *)
Record Counters := mkCounters {
  c_by_severity : gmap string nat;
  c_by_category : gmap string nat;
  c_by_type : gmap (option string) nat;
  c_by_framework : gmap string nat
}.

(** [for fw in v.get('frameworks', [])]. *)
Fixpoint framework_loop (frameworks : list string)
    (by_framework : gmap string nat) : gmap string nat :=
  match frameworks with
  | [] => by_framework
  | fw :: rest => framework_loop rest (bump fw by_framework)
  end.

(** [for v in self.detected_violations]. *)
Fixpoint summary_loop (violations : list Violation) (c : Counters)
    : Counters :=
  match violations with
  | [] => c
  | v :: rest =>
      let sev := default "unknown" (v_severity v) in
      let cat := default "Unknown" (v_category v) in
      let typ := v_rule_type v in
      summary_loop rest
        {| c_by_severity := bump sev (c_by_severity c);
           c_by_category := bump cat (c_by_category c);
           c_by_type := bump typ (c_by_type c);
           c_by_framework :=
             framework_loop (default [] (v_frameworks v))
               (c_by_framework c) |}
  end.

(** [sum(v.get('risk_score', 0) for v in ...)]. *)
Definition sum_risk_scores (violations : list Violation) : R :=
  foldl (λ acc v, (acc + default 0 (v_risk_score v))%R) 0%R violations.

Record Summary := mkSummary {
  total_violations : nat;
  by_severity : gmap string nat;
  by_category : gmap string nat;
  by_type : gmap (option string) nat;
  by_framework : gmap string nat;
  average_risk_score : R;
  critical_count : nat;
  high_count : nat;
  requires_review : nat
}.

Definition get_summary (self : Engine) : Summary :=
  let total := length (detected_violations self) in
  let c :=
    summary_loop (detected_violations self) (mkCounters ∅ ∅ ∅ ∅) in
  let avg_risk := 0%R in
  let avg_risk :=
    if Nat.ltb 0 total
    then (sum_risk_scores (detected_violations self) / INR total)%R
    else avg_risk in
  {| total_violations := total;
     by_severity := c_by_severity c;
     by_category := c_by_category c;
     by_type := c_by_type c;
     by_framework := c_by_framework c;
     average_risk_score := round2 avg_risk;
     critical_count := default 0 (c_by_severity c !! "critical");
     high_count := default 0 (c_by_severity c !! "high");
     requires_review :=
       length (filter (λ v, v_requires_review v) (detected_violations self)) |}.

#[global] Instance Rle_decision (x y : R) : Decision (x <= y)%R := Rle_dec x y.

Definition filter_violations (self : Engine)
    (severity category rule_type status : option string)
    (min_risk_score : option R) : list Violation :=
  let filtered := detected_violations self in
  let filtered :=
    if truthy_str severity
    then filter (λ v, v_severity v = severity) filtered
    else filtered in
  let filtered :=
    if truthy_str category
    then filter (λ v, v_category v = category) filtered
    else filtered in
  let filtered :=
    if truthy_str rule_type
    then filter (λ v, v_rule_type v = rule_type) filtered
    else filtered in
  let filtered :=
    if truthy_str status
    then filter (λ v, Some (v_status v) = status) filtered
    else filtered in
  let filtered :=
    match min_risk_score with
    | Some m =>
        filter (λ v, (m <= default 0 (v_risk_score v))%R) filtered
    | None => filtered
    end in
  filtered.

(** What [detect] leaves in every violation it builds. *)
Definition complete_violation (v : Violation) : Prop :=
  v_status v = "open"
  ∧ is_Some (v_severity v)
  ∧ (∃ r : R, v_risk_score v = Some r ∧ (25 <= r <= 100)%R)
  ∧ v_category v = Some (_categorize_violation v)
  ∧ v_frameworks v = Some (_map_to_frameworks v).

End EngineReports.

(** ** [DatabaseConnector.get_full_schema] (src/database/connector.py) *)

Module Connector.

Import DatabaseScanner Checkers.
Local Open Scope string_scope.
Local Open Scope list_scope.

Section WithDriver.
Context {World : Type}.
(** The two calls the wrapper forwards to the driver. *)
Variable get_tables : Async World (list string).
Variable get_schema : string → Async World TableSchema.

(** [{"error": str(e)}]: an entry without a column list. *)
Definition error_schema (e : PyException) : TableSchema := mkTableSchema None.

(** The body of [for table in tables]. *)
Definition schema_step (table : string) (schemas : gmap string TableSchema)
    : Async World (gmap string TableSchema) :=
  try_except
    (schema ← get_schema table;
     mret (<[table := schema]> schemas))
    (λ e, mret (<[table := error_schema e]> schemas)).

Definition get_full_schema : Async World (gmap string TableSchema) :=
  tables ← get_tables;
  let schemas := ∅ in
  for_each schema_step tables schemas.
End WithDriver.

End Connector.

(** ** What is computed from the violations

    [ReportGenerator._calculate_compliance_score]
    (src/reporting/reports.py), [ApprovalManager._get_max_severity] with
    the approval matrix (src/review/approvals.py) and
    [ViolationExplainer.generate_impact_assessment]
    (src/detection/explainer.py). *)

Module ReportGenerator.

Import ViolationEngine.
Local Open Scope string_scope.
Local Open Scope list_scope.

(** A number that is a [float] or an [int]. *)
Inductive PyNumber :=
| PyFloat (x : R)
| PyInt (z : Z).

Definition number_value (n : PyNumber) : R :=
  match n with
  | PyFloat x => x
  | PyInt z => IZR z
  end.

Definition severity_weights : gmap string Z :=
  list_to_map
    [ ("critical", 10%Z); ("high", 5%Z); ("medium", 2%Z); ("low", 1%Z) ].

(** [sum(severity_weights.get(v.get("severity", "low"), 1) for v in
    violations)]. *)
Definition total_weight (violations : list Violation) : Z :=
  foldl (λ acc v,
           (acc + default 1 (severity_weights
                               !! default "low" (v_severity v)))%Z)
    0%Z violations.

Definition _calculate_compliance_score (violations : list Violation)
    : PyNumber :=
  if negb (truthy_list violations) then PyFloat 100%R
  else
    let total_weight := total_weight violations in
    let deduction := Z.min total_weight 100 in
    PyInt (Z.max 0 (100 - deduction)).

End ReportGenerator.

Module ApprovalManager.

Import ViolationEngine.
Local Open Scope string_scope.
Local Open Scope list_scope.

Inductive ApprovalLevel :=
| L1_DATA_STEWARD
| L2_COMPLIANCE_TEAM
| L3_COMPLIANCE_OFFICER
| L4_EXECUTIVE.

Record ApprovalConfig := mkApprovalConfig {
  required_levels : list ApprovalLevel;
  escalate_to : ApprovalLevel
}.

Definition APPROVAL_MATRIX : gmap string ApprovalConfig :=
  list_to_map
    [ ("critical",
        mkApprovalConfig [L2_COMPLIANCE_TEAM; L3_COMPLIANCE_OFFICER]
          L4_EXECUTIVE);
      ("high", mkApprovalConfig [L2_COMPLIANCE_TEAM] L3_COMPLIANCE_OFFICER);
      ("medium", mkApprovalConfig [L1_DATA_STEWARD] L2_COMPLIANCE_TEAM);
      ("low", mkApprovalConfig [] L1_DATA_STEWARD) ].

(** [any(v.get('severity') == severity for v in violations)]. *)
Definition any_with_severity (severity : string)
    (violations : list Violation) : bool :=
  existsb (λ v, bool_decide (v_severity v = Some severity)) violations.

(** [for severity in severity_order]. *)
Fixpoint severity_loop (severity_order : list string)
    (violations : list Violation) : string :=
  match severity_order with
  | [] => "medium"
  | severity :: rest =>
      if any_with_severity severity violations then severity
      else severity_loop rest violations
  end.

Definition _get_max_severity (violations : list Violation) : string :=
  let severity_order := ["critical"; "high"; "medium"; "low"] in
  severity_loop severity_order violations.

(** The approval configuration [create_approval_request] selects:
    [APPROVAL_MATRIX.get(max_severity, APPROVAL_MATRIX['medium'])]; the
    key [medium] is in the matrix. *)
Definition approval_config (violations : list Violation) : ApprovalConfig :=
  let max_severity := _get_max_severity violations in
  default (default (mkApprovalConfig [] L1_DATA_STEWARD)
             (APPROVAL_MATRIX !! "medium"))
    (APPROVAL_MATRIX !! max_severity).

End ApprovalManager.

Module ViolationExplainer.

Import ViolationEngine EngineReports.
Local Open Scope string_scope.
Local Open Scope list_scope.

(** The state of the loop of [generate_impact_assessment]. *)
Record Tally := mkTally {
  severity_counts : gmap string nat;
  framework_impacts : gmap string nat;
  total_records : Z;
  tables_affected : gset string
}.

(** [for v in violations]. *)
Fixpoint tally_loop (violations : list Violation) (t : Tally) : Tally :=
  match violations with
  | [] => t
  | v :: rest =>
      let sev := default "unknown" (v_severity v) in
      tally_loop rest
        {| severity_counts := bump sev (severity_counts t);
           framework_impacts :=
             framework_loop (default [] (v_frameworks v))
               (framework_impacts t);
           total_records := (total_records t + v_violation_count v)%Z;
           tables_affected :=
             if truthy_str (v_table v)
             then {[ default EmptyString (v_table v) ]} ∪ tables_affected t
             else tables_affected t |}
  end.

(** The assessment; the list of affected tables is kept as the set it is
    built from, whose order the code leaves open. *)
Record Assessment := mkAssessment {
  overall_risk_level : string;
  a_total_violations : nat;
  total_records_affected : Z;
  a_tables_affected : gset string;
  severity_breakdown : gmap string nat;
  a_framework_impacts : gmap string nat;
  immediate_action_required : bool;
  recommendations : list string
}.

Definition generate_impact_assessment (violations : list Violation)
    : Assessment :=
  let t := tally_loop violations (mkTally ∅ ∅ 0%Z ∅) in
  let critical := default 0 (severity_counts t !! "critical") in
  let high := default 0 (severity_counts t !! "high") in
  let overall_risk :=
    if Nat.ltb 0 critical || Nat.ltb 5 high then "CRITICAL"
    else if Nat.ltb 0 high then "HIGH"
    else if Nat.ltb 5 (default 0 (severity_counts t !! "medium"))
    then "MEDIUM"
    else "LOW" in
  let recommendations := [] in
  let recommendations :=
    if String.eqb overall_risk "CRITICAL" then
      recommendations
      ++ [ "Immediately engage incident response team";
           "Notify compliance officer and legal team";
           "Begin emergency remediation procedures";
           "Document all findings for regulatory reporting" ]
    else if String.eqb overall_risk "HIGH" then
      recommendations
      ++ [ "Prioritize remediation within 24-48 hours";
           "Brief management on compliance status";
           "Allocate resources for immediate fixes" ]
    else
      recommendations
      ++ [ "Schedule remediation in next sprint";
           "Add violations to compliance backlog";
           "Review during next compliance review cycle" ] in
  {| overall_risk_level := overall_risk;
     a_total_violations := length violations;
     total_records_affected := total_records t;
     a_tables_affected := tables_affected t;
     severity_breakdown := severity_counts t;
     a_framework_impacts := framework_impacts t;
     immediate_action_required := Nat.ltb 0 critical || Nat.ltb 3 high;
     recommendations := recommendations |}.

End ViolationExplainer.

(** ** Sample backends and rules for the checkers *)

Module MoreSamples.

Import ViolationEngine DatabaseScanner Checkers.
Local Open Scope string_scope.
Local Open Scope list_scope.

(** The number a string of decimal digits denotes. *)
Definition digits_value (s : string) : Z :=
  fold_left (λ acc c, (acc * 10 + (Z.of_nat (nat_of_ascii c) - 48))%Z)
    (String.list_ascii_of_string s) 0%Z.

Definition ValueError (msg : string) : PyException := mkExc "ValueError" msg.

(** The builtin [int] on the strings of the examples: a short string of
    decimal digits is read as a number, a string with a letter such as
    [ninety] is refused. *)
Definition sample_int (s : string) : outcome Z :=
  if isdigit s then Returns (digits_value s)
  else Raises (ValueError
                 ("invalid literal for int() with base 10: " +:+ squote +:+ s
                  +:+ squote)).

(** A backend that answers every query with the same rows and counts the
    queries it receives, and the same backend when it is not an SQL
    database. *)
Definition sql_backend (rows : list Row) : DatabaseConnector nat :=
  Samples.counting_connector rows.

Definition document_backend (rows : list Row) : DatabaseConnector nat :=
  {| execute_query := λ _, Samples.counting rows;
     get_tables := Samples.counting ["users"];
     get_full_schema := Samples.counting ∅;
     is_sql := false |}.

(** A backend that refuses every query. *)
Definition refusing_backend : DatabaseConnector nat :=
  {| execute_query := λ _, Samples.failing "syntax error";
     get_tables := Samples.counting ["users"];
     get_full_schema := Samples.counting ∅;
     is_sql := true |}.

(** A backend that refuses the interval syntax of the first retention
    query and answers every other query: the world is the number of
    queries received. *)
Definition sqlite_backend (rows : list Row) : DatabaseConnector nat :=
  {| execute_query :=
       λ query, if contains "INTERVAL" query
                then Samples.failing "near INTERVAL: syntax error"
                else Samples.counting rows;
     get_tables := Samples.counting ["users"];
     get_full_schema := Samples.counting ∅;
     is_sql := true |}.

(** The retention keys of the examples: none are set. *)
Definition no_retention_keys (rule : Rule) : RetentionKeys :=
  mkRetentionKeys None None.


Definition count_row (n : Z) : Row := {[ "count" := VInt n ]}.

(** Rules without entity hints and without a raw predicate. *)
Definition access_rule : Rule := Samples.rule_of "data_access" None [] None.
Definition audit_rule : Rule := Samples.rule_of "audit_logging" None [] None.
Definition consent_rule : Rule := Samples.rule_of "consent" None [] None.

(** A masking rule, and an age rule whose text names the age. *)
Definition masking_rule : Rule := Samples.rule_of "data_masking" None [] None.

Definition age_rule : Rule :=
  {| r_id := Some "R3";
     r_type := Some "age_restriction";
     r_text := Some "Users must be at least 13 years old";
     r_severity := None;
     r_entities := [];
     r_sql_condition := None |}.

(** A rule of a dispatched type that also carries a raw predicate. *)
Definition retention_rule_with_predicate : Rule :=
  Samples.rule_of "data_retention" None []
    (Some "created_at < CURRENT_DATE - INTERVAL '90 days'").

(** A rule of no dispatched type with a raw predicate. *)
Definition custom_rule : Rule :=
  Samples.rule_of "consent" None [] (Some "consent_given = 0").

(** A geographic rule. *)
Definition geo_rule : Rule :=
  {| r_id := Some "R5";
     r_type := Some "geographic_restriction";
     r_text := Some "Personal data must stay within the EU";
     r_severity := None;
     r_entities := [];
     r_sql_condition := None |}.


(** A backend with one table, [users], with the columns [id], [ssn] and
    [created_at]; it answers every query with the same rows. *)
Definition users_schema : gmap string TableSchema :=
  {[ "users" :=
       mkTableSchema
         (Some [ mkColumn "id" "INTEGER" false;
                 mkColumn "ssn" "TEXT" true;
                 mkColumn "created_at" "TIMESTAMP" true ]) ]}.

Definition users_backend (rows : list Row) : DatabaseConnector nat :=
  {| execute_query := λ _, Samples.counting rows;
     get_tables := Samples.counting ["users"];
     get_full_schema := Samples.counting users_schema;
     is_sql := true |}.

(** The clock of the examples. *)
Definition strftime_now : Async nat string :=
  Samples.counting "20240101_000000".
Definition isoformat_now : Async nat string :=
  Samples.counting "2024-01-01T00:00:00".

(** What a scan at that clock returns when it scanned [users] with one
    rule, and what it leaves in the history. *)
Definition scanned (entries : list PotentialViolation) : ScanResult :=
  {| sr_scan_id := Some "20240101_000000";
     sr_started_at := Some "2024-01-01T00:00:00";
     sr_tables_scanned := ["users"];
     sr_rules_checked := 1;
     sr_potential_violations := entries;
     sr_schema := users_schema;
     sr_completed_at := Some "2024-01-01T00:00:00";
     sr_total_potential_violations := Some (length entries) |}.

Definition recorded (requested found : nat) : Scanner :=
  mkScanner
    [mkHistoryEntry "20240101_000000" "2024-01-01T00:00:00" requested found].

(** Checkers that differ from [Samples.counting_checkers] in the generic
    checker only. *)
Definition counting_checkers_failing_generic : CategoryCheckers nat :=
  {| DatabaseScanner._check_data_retention :=
       DatabaseScanner._check_data_retention Samples.counting_checkers;
     DatabaseScanner._check_data_masking :=
       DatabaseScanner._check_data_masking Samples.counting_checkers;
     DatabaseScanner._check_data_access :=
       DatabaseScanner._check_data_access Samples.counting_checkers;
     DatabaseScanner._check_age_restriction :=
       DatabaseScanner._check_age_restriction Samples.counting_checkers;
     DatabaseScanner._check_geographic_restriction :=
       DatabaseScanner._check_geographic_restriction
         Samples.counting_checkers;
     DatabaseScanner._check_audit_logging :=
       DatabaseScanner._check_audit_logging Samples.counting_checkers;
     DatabaseScanner._check_sql_condition :=
       λ _ _ _, Samples.failing "syntax error" |}.

End MoreSamples.

(** * Properties *)

(** ** Real-number facts behind the risk score *)

Section RealFacts.

Local Open Scope R_scope.

Lemma ln_10_pos : 0 < ln 10.
Proof.
  rewrite <- ln_1. apply ln_increasing; lra.
Qed.

Lemma log10_1 : log10 1 = 0.
Proof.
  unfold log10. rewrite ln_1. unfold Rdiv. apply Rmult_0_l.
Qed.

Lemma log10_le (x y : R) : 0 < x → x <= y → log10 x <= log10 y.
Proof.
  intros Hx [Hlt | ->]; [|lra].
  unfold log10, Rdiv.
  apply Rmult_le_compat_r.
  - left. apply Rinv_0_lt_compat, ln_10_pos.
  - left. by apply ln_increasing.
Qed.

Lemma log10_nonneg (x : R) : 1 <= x → 0 <= log10 x.
Proof.
  intros Hx. rewrite <- log10_1. apply log10_le; lra.
Qed.

Lemma round_half_even_bounds (x : R) :
  (Zfloor x ≤ round_half_even x ≤ Zfloor x + 1)%Z.
Proof.
  unfold round_half_even.
  repeat destruct (Rlt_dec _ _); try destruct (Z.even _); lia.
Qed.

Lemma round_half_even_le (x y : R) :
  x <= y → (round_half_even x ≤ round_half_even y)%Z.
Proof.
  intros Hxy.
  pose proof (Zfloor_le x y Hxy) as Hfl.
  destruct (Z.eq_dec (Zfloor x) (Zfloor y)) as [Heq | Hne].
  - unfold round_half_even. rewrite <- Heq.
    repeat destruct (Rlt_dec _ _); try destruct (Z.even _); try lia; lra.
  - pose proof (round_half_even_bounds x). pose proof (round_half_even_bounds y).
    lia.
Qed.

Lemma round_half_even_IZR (z : Z) : round_half_even (IZR z) = z.
Proof.
  unfold round_half_even. rewrite ZfloorZ.
  destruct (Rlt_dec _ _) as [_ | Hn]; [done | lra].
Qed.

Lemma round2_le (x y : R) : x <= y → round2 x <= round2 y.
Proof.
  intros Hxy. unfold round2, Rdiv.
  apply Rmult_le_compat_r; [lra |].
  apply IZR_le, round_half_even_le. lra.
Qed.

Lemma round2_IZR (z : Z) : round2 (IZR z) = IZR z.
Proof.
  unfold round2.
  replace (IZR z * 100) with (IZR (z * 100)) by (rewrite mult_IZR; lra).
  rewrite round_half_even_IZR, mult_IZR. lra.
Qed.

(** Rounding and capping at 100 commute. *)
Lemma round2_Rmin_100 (x : R) : round2 (Rmin x 100) = Rmin 100 (round2 x).
Proof.
  pose proof (round2_IZR 100) as H100.
  destruct (Rle_dec x 100) as [Hle | Hgt].
  - rewrite (Rmin_left x 100 Hle).
    pose proof (round2_le x 100 Hle). rewrite Rmin_right; lra.
  - assert (100 <= x) as Hge by lra.
    rewrite (Rmin_right x 100 Hge), H100.
    pose proof (round2_le 100 x Hge). rewrite Rmin_left; lra.
Qed.

End RealFacts.

(** ** The scoring tables *)

Section Tables.

Import ViolationEngine.
Local Open Scope string_scope.
Local Open Scope list_scope.

Ltac table_lookup :=
  repeat (rewrite list_to_map_cons, lookup_insert; case_decide;
          [subst; simpl; try done |]);
  try rewrite list_to_map_nil, lookup_empty.

Ltac eqb_cases :=
  repeat match goal with
         | |- context [String.eqb ?a ?b] =>
             destruct (String.eqb_spec a b); [congruence |]
         end.

(** The weight looked up in [SEVERITY_WEIGHTS], with its default, is the
    specification's [base]. *)
Lemma base_score_spec (s : string) :
  IZR (default 50%Z (SEVERITY_WEIGHTS !! s)) = Spec.base s.
Proof.
  unfold SEVERITY_WEIGHTS, Spec.base.
  table_lookup; simpl; eqb_cases; done.
Qed.

Lemma multiplier_spec (t : string) :
  default 1.0%R (RISK_MULTIPLIERS !! t) = Spec.typeMultiplier (Some t).
Proof.
  unfold RISK_MULTIPLIERS, Spec.typeMultiplier.
  table_lookup; simpl; eqb_cases; done.
Qed.

Lemma base_bounds (s : string) : (25 <= Spec.base s <= 100)%R.
Proof.
  unfold Spec.base. repeat destruct (String.eqb _ _); lra.
Qed.

Lemma typeMultiplier_bounds (t : option string) :
  (1 <= Spec.typeMultiplier t <= 1.5)%R.
Proof.
  unfold Spec.typeMultiplier. destruct t; [| lra].
  repeat destruct (String.eqb _ _); lra.
Qed.

End Tables.

(** ** The stable descending sort *)

Section SortFacts.

Context {A : Type} (key : A → R).

Lemma insert_desc_Permutation (x : A) (l : list A) :
  insert_desc key x l ≡ₚ x :: l.
Proof.
  induction l as [| y l IH]; simpl; [done |].
  destruct (Rlt_dec _ _); [| done].
  rewrite IH. apply Permutation_swap.
Qed.

Lemma sort_reverse_Permutation (l : list A) : sort_reverse key l ≡ₚ l.
Proof.
  induction l as [| x l IH]; simpl; [done |].
  by rewrite insert_desc_Permutation, IH.
Qed.

Lemma insert_desc_sorted (x : A) (l : list A) :
  StronglySorted (key_ge key) l → StronglySorted (key_ge key) (insert_desc key x l).
Proof.
  induction 1 as [| y l Hsorted IH Hall]; simpl.
  - repeat constructor.
  - destruct (Rlt_dec (key x) (key y)) as [Hlt | Hge].
    + constructor; [done |].
      rewrite insert_desc_Permutation. constructor; [| done].
      unfold key_ge. lra.
    + constructor; [by constructor |].
      constructor; [unfold key_ge; lra |].
      eapply Forall_impl; [exact Hall |]. unfold key_ge. intros z Hz. lra.
Qed.

Lemma sort_reverse_sorted (l : list A) :
  StronglySorted (key_ge key) (sort_reverse key l).
Proof.
  induction l as [| x l IH]; simpl; [constructor |].
  by apply insert_desc_sorted.
Qed.

Lemma insert_desc_filter (r : R) (x : A) (l : list A) :
  filter (λ a, key a = r) (insert_desc key x l)
  = filter (λ a, key a = r) (x :: l).
Proof.
  induction l as [| y l IH]; simpl; [done |].
  destruct (Rlt_dec (key x) (key y)) as [Hlt | Hge]; [| done].
  rewrite (filter_cons _ y), IH, !filter_cons.
  repeat case_decide; try done. lra.
Qed.

(** Stability: the elements of any one key keep their order. *)
Lemma sort_reverse_stable (r : R) (l : list A) :
  filter (λ a, key a = r) (sort_reverse key l) = filter (λ a, key a = r) l.
Proof.
  induction l as [| x l IH]; simpl; [done |].
  rewrite insert_desc_filter, !filter_cons, IH. done.
Qed.

End SortFacts.

(** ** [detect] *)

Section DetectFacts.

Import ViolationEngine.
Variable uuid4 : nat → string.
Variable utcnow : nat → string.

Lemma detect_loop_spec (sr : ScanResult) (rm : gmap string Rule)
    (pvs : list PotentialViolation) (violations : list Violation) :
  detect_loop uuid4 utcnow sr rm pvs violations
  = violations ++
      imap (λ k, make_violation uuid4 utcnow sr rm (length violations + k))
        (filter is_hit pvs).
Proof.
  revert violations.
  induction pvs as [| pv pvs IH]; intros violations; simpl.
  - by rewrite app_nil_r.
  - rewrite filter_cons. unfold is_hit at 1.
    case_decide as Herr.
    + rewrite Herr, IH, <- app_assoc. simpl.
      do 2 f_equal; [by rewrite Nat.add_0_r |].
      apply imap_ext. intros k x _. simpl. f_equal.
      rewrite length_app. simpl. lia.
    + apply not_false_is_true in Herr. rewrite Herr. apply IH.
Qed.

Lemma detect_Permutation (self : Engine) (sr : ScanResult) (rules : list Rule) :
  (detect uuid4 utcnow self sr rules).1 ≡ₚ in_discovery_order uuid4 utcnow sr rules.
Proof.
  unfold detect, in_discovery_order. simpl.
  rewrite sort_reverse_Permutation, detect_loop_spec. simpl.
  done.
Qed.

End DetectFacts.

(** ** The risk score *)

Section ScoreFacts.

Import ViolationEngine.
Local Open Scope R_scope.

Lemma calculate_risk_score_eq (v : Violation) :
  _calculate_risk_score v
  = round2
      (Rmin
         (Spec.base (default "medium"%string (v_severity v))
          * Spec.typeMultiplier (v_rule_type v)
          * (1 + log10 (IZR (Z.max (v_violation_count v) 1)) * 0.1))
         100).
Proof.
  unfold _calculate_risk_score. rewrite base_score_spec.
  destruct (v_rule_type v); [by rewrite multiplier_spec | done].
Qed.

Lemma count_factor_ge_1 (n : Z) : 1 <= 1 + log10 (IZR (Z.max n 1)) * 0.1.
Proof.
  assert (1 <= IZR (Z.max n 1)) as H by (apply IZR_le; lia).
  pose proof (log10_nonneg _ H). lra.
Qed.

Lemma count_factor_le (n1 n2 : Z) :
  (n1 ≤ n2)%Z →
  1 + log10 (IZR (Z.max n1 1)) * 0.1 <= 1 + log10 (IZR (Z.max n2 1)) * 0.1.
Proof.
  intros Hn.
  assert (0 < IZR (Z.max n1 1)) by (apply IZR_lt; lia).
  assert (IZR (Z.max n1 1) <= IZR (Z.max n2 1)) by (apply IZR_le; lia).
  pose proof (log10_le _ _ H H0). lra.
Qed.

Lemma risk_score_range (v : Violation) : 25 <= _calculate_risk_score v <= 100.
Proof.
  rewrite calculate_risk_score_eq.
  pose proof (base_bounds (default "medium"%string (v_severity v))) as Hb.
  pose proof (typeMultiplier_bounds (v_rule_type v)) as Hm.
  pose proof (count_factor_ge_1 (v_violation_count v)) as Hc.
  set (b := Spec.base _) in *. set (m := Spec.typeMultiplier _) in *.
  set (c := 1 + _) in *.
  assert (25 <= b * m) as Hbm by nra.
  assert (b * m <= b * m * c) as Hraw.
  { rewrite <- (Rmult_1_r (b * m)) at 1. apply Rmult_le_compat_l; lra. }
  split.
  - eapply Rle_trans; [| apply (round2_le 25); apply Rmin_glb; lra].
    rewrite (round2_IZR 25). lra.
  - eapply Rle_trans; [apply round2_le, Rmin_r |].
    rewrite (round2_IZR 100). lra.
Qed.

Lemma risk_score_monotone (v1 v2 : Violation) :
  v_severity v1 = v_severity v2 →
  v_rule_type v1 = v_rule_type v2 →
  (v_violation_count v1 ≤ v_violation_count v2)%Z →
  _calculate_risk_score v1 <= _calculate_risk_score v2.
Proof.
  intros Hs Ht Hn. rewrite !calculate_risk_score_eq, Hs, Ht.
  pose proof (base_bounds (default "medium"%string (v_severity v2))) as Hb.
  pose proof (typeMultiplier_bounds (v_rule_type v2)) as Hm.
  pose proof (count_factor_le _ _ Hn) as Hc.
  set (b := Spec.base _) in *. set (m := Spec.typeMultiplier _) in *.
  apply round2_le, Rle_min_compat_r.
  apply Rmult_le_compat_l; [nra | exact Hc].
Qed.

End ScoreFacts.

(** ** Claims about the violation engine *)

Section EngineClaims.

Import ViolationEngine.
Local Open Scope string_scope.
Local Open Scope list_scope.

(** C1.  The risk score [_calculate_risk_score] computes for a violation
    with severity [s], rule type [t] and hit count [n] is
    [min(100, round(base(s) × typeMultiplier(t) × (1 + log10(max(n,1)) × 0.1), 2))]
    with the tables of the specification; the violation [detect] builds
    from a hit carries that score for the resolved severity, the hit's type
    and the hit's count (1 when absent). *)
Theorem C1_risk_score_formula :
  (∀ v : Violation,
     _calculate_risk_score v
     = Spec.risk_score (default "medium" (v_severity v)) (v_rule_type v)
         (v_violation_count v))
  ∧ (∀ (uuid4 utcnow : nat → string) (sr : ScanResult)
       (rm : gmap string Rule) (k : nat) (pv : PotentialViolation),
       v_risk_score (make_violation uuid4 utcnow sr rm k pv)
       = Some (Spec.risk_score
                 (_determine_severity pv (lookup_rule rm (pv_rule_id pv)))
                 (pv_type pv) (default 1%Z (pv_violation_count pv)))).
Proof.
  assert (∀ v : Violation,
            _calculate_risk_score v
            = Spec.risk_score (default "medium" (v_severity v)) (v_rule_type v)
                (v_violation_count v)) as Hscore.
  { intros v. rewrite calculate_risk_score_eq. unfold Spec.risk_score.
    apply round2_Rmin_100. }
  split; [exact Hscore |].
  intros uuid4 utcnow sr rm k pv. simpl. f_equal. apply Hscore.
Qed.

(** C7.  For a fixed severity and rule type and hit counts [n1 ≤ n2], both
    risk scores lie in [0, 100] and the score at [n2] is at least the score
    at [n1]. *)
Theorem C7_risk_score_bounded_monotone (v1 v2 : Violation) :
  v_severity v1 = v_severity v2 →
  v_rule_type v1 = v_rule_type v2 →
  (v_violation_count v1 ≤ v_violation_count v2)%Z →
  (0 <= _calculate_risk_score v1 <= 100)%R
  ∧ (0 <= _calculate_risk_score v2 <= 100)%R
  ∧ (_calculate_risk_score v1 <= _calculate_risk_score v2)%R.
Proof.
  intros Hs Ht Hn.
  pose proof (risk_score_range v1). pose proof (risk_score_range v2).
  pose proof (risk_score_monotone v1 v2 Hs Ht Hn).
  repeat split; lra.
Qed.

Lemma C7_witness :
  (0 <= _calculate_risk_score (Samples.draft "high" "data_encryption" 10) <= 100)%R
  ∧ (0 <= _calculate_risk_score (Samples.draft "high" "data_encryption" 150) <= 100)%R
  ∧ (_calculate_risk_score (Samples.draft "high" "data_encryption" 10)
     <= _calculate_risk_score (Samples.draft "high" "data_encryption" 150))%R.
Proof.
  apply (C7_risk_score_bounded_monotone
           (Samples.draft "high" "data_encryption" 10)
           (Samples.draft "high" "data_encryption" 150)).
  - reflexivity.
  - reflexivity.
  - simpl. lia.
Defined.

(** C10.  The base weight is at least 25 for every severity string
    (50 for an unknown one), every type multiplier is at least 1, the count
    factor is at least 1, so every risk score lies in [25, 100]; an absent
    hit count is taken as 1, and every violation [detect] returns has a
    risk score in [25, 100]. *)
Theorem C10_risk_score_at_least_25 :
  (∀ s : string, (25 <= IZR (default 50%Z (SEVERITY_WEIGHTS !! s)))%R)
  ∧ (∀ t : string, (1 <= default 1.0%R (RISK_MULTIPLIERS !! t))%R)
  ∧ (∀ n : Z, (1 <= 1 + log10 (IZR (Z.max n 1)) * 0.1)%R)
  ∧ (∀ v : Violation, (25 <= _calculate_risk_score v <= 100)%R)
  ∧ (∀ (uuid4 utcnow : nat → string) (sr : ScanResult)
       (rm : gmap string Rule) (k : nat) (pv : PotentialViolation),
       v_violation_count (make_violation uuid4 utcnow sr rm k pv)
       = default 1%Z (pv_violation_count pv))
  ∧ (∀ (uuid4 utcnow : nat → string) (self : Engine) (sr : ScanResult)
       (rules : list Rule),
       Forall (λ v, ∃ r : R, v_risk_score v = Some r ∧ (25 <= r <= 100)%R)
         (detect uuid4 utcnow self sr rules).1).
Proof.
  split; [| split; [| split; [| split; [| split]]]].
  - intros s. rewrite base_score_spec. apply base_bounds.
  - intros t. rewrite multiplier_spec. apply typeMultiplier_bounds.
  - apply count_factor_ge_1.
  - apply risk_score_range.
  - done.
  - intros uuid4 utcnow self sr rules.
    rewrite detect_Permutation. unfold in_discovery_order.
    apply Forall_forall. intros v Hv.
    apply elem_of_lookup_imap in Hv as (k & pv & -> & _).
    eexists. split; [reflexivity |]. apply risk_score_range.
Qed.

(** C3.  [detect] creates exactly one violation for each hit that is not a
    ['scan_error'] entry and none for a ['scan_error'] entry: the violations
    returned are, up to the final sort, the hits that are not scan errors,
    each turned into a violation; their number plus the number of scan
    error entries is the number of raw hits. *)
Theorem C3_one_violation_per_hit (uuid4 utcnow : nat → string) (self : Engine)
    (sr : ScanResult) (rules : list Rule) :
  let pvs := sr_potential_violations sr in
  let violations := (detect uuid4 utcnow self sr rules).1 in
  violations
    ≡ₚ imap (make_violation uuid4 utcnow sr (build_rules_map rules))
         (filter is_hit pvs)
  ∧ length violations = length (filter is_hit pvs)
  ∧ length violations + length (filter (λ pv, is_scan_error pv = true) pvs)
    = length pvs.
Proof.
  intros pvs violations.
  assert (violations
            ≡ₚ imap (make_violation uuid4 utcnow sr (build_rules_map rules))
                 (filter is_hit pvs)) as Hperm
    by apply detect_Permutation.
  assert (length violations = length (filter is_hit pvs)) as Hlen
    by (by rewrite Hperm, length_imap).
  split; [done |]. split; [done |].
  rewrite Hlen. clear. unfold is_hit.
  induction pvs as [| pv pvs IH]; [done |].
  rewrite !filter_cons.
  repeat case_decide; simpl; try lia; destruct (is_scan_error pv); congruence.
Qed.

(** C8.  The list [detect] returns is in descending order of risk score,
    and the violations of any one risk score appear in it in the order in
    which their hits were discovered. *)
Theorem C8_detect_sorted_stable (uuid4 utcnow : nat → string) (self : Engine)
    (sr : ScanResult) (rules : list Rule) :
  let score := λ v : Violation, default 0%R (v_risk_score v) in
  let violations := (detect uuid4 utcnow self sr rules).1 in
  StronglySorted (key_ge score) violations
  ∧ ∀ r : R,
      filter (λ v, score v = r) violations
      = filter (λ v, score v = r) (in_discovery_order uuid4 utcnow sr rules).
Proof.
  intros score violations. split.
  - apply sort_reverse_sorted.
  - intros r. unfold violations, detect. simpl.
    rewrite (sort_reverse_stable score r), detect_loop_spec. done.
Qed.

End EngineClaims.

(** ** Severity resolution *)

Section SeverityClaims.

Import ViolationEngine.
Local Open Scope string_scope.
Local Open Scope list_scope.

(** C2 (as amended).  Severity is resolved first-applicable-wins:
    (a) the rule's declared severity, verbatim, when it is declared and not
    the empty string; otherwise (no severity, or an empty one), by the hit's
    type: (b) [data_encryption] or [age_restriction]: [critical] if the hit
    count (1 when absent) exceeds 100, else [high]; (c) [data_retention],
    [data_access], [geographic_restriction]: [high]; (d) [consent],
    [data_masking], [notification]: [medium]; (e) [audit_logging]: [low];
    (f) any other type: [medium]. *)
Theorem C2_severity_resolution (pv : PotentialViolation) (rule : Rule) :
  (∀ s : string,
     r_severity rule = Some s → s ≠ EmptyString →
     _determine_severity pv rule = s)
  ∧ (r_severity rule = None ∨ r_severity rule = Some EmptyString →
     let t := default EmptyString (pv_type pv) in
     let n := default 1%Z (pv_violation_count pv) in
     (t = "data_encryption" ∨ t = "age_restriction" →
        _determine_severity pv rule
        = if (100 <? n)%Z then "critical" else "high")
     ∧ (t = "data_retention" ∨ t = "data_access"
        ∨ t = "geographic_restriction" →
        _determine_severity pv rule = "high")
     ∧ (t = "consent" ∨ t = "data_masking" ∨ t = "notification" →
        _determine_severity pv rule = "medium")
     ∧ (t = "audit_logging" → _determine_severity pv rule = "low")
     ∧ (t ∉ ["data_encryption"; "age_restriction"; "data_retention";
              "data_access"; "geographic_restriction"; "consent";
              "data_masking"; "notification"; "audit_logging"] →
        _determine_severity pv rule = "medium")).
Proof.
  split.
  - intros s Hs Hne. unfold _determine_severity. rewrite Hs.
    destruct s; [done | reflexivity].
  - intros Hnone t n.
    unfold _determine_severity.
    assert (truthy_str (r_severity rule) = false) as ->
      by (by destruct Hnone as [-> | ->]).
    fold t. fold n.
    repeat split.
    + by intros [-> | ->].
    + by intros [-> | [-> | ->]].
    + by intros [-> | [-> | ->]].
    + by intros ->.
    + intros Hnot. unfold str_in. simpl.
      repeat match goal with
             | |- context [String.eqb t ?c] =>
                 destruct (String.eqb_spec t c) as [Heq | _];
                 [exfalso; apply Hnot; rewrite Heq; apply list_elem_of_In; simpl; tauto |]
             end.
      done.
Qed.

(** The scenario of the specification: an encryption hit with count 150
    is [critical], the same hit with count 10 is [high]; a declared severity
    wins. *)
Lemma C2_witness :
  _determine_severity (Samples.hit "data_encryption" (Some 150%Z))
    (Samples.rule_of "data_encryption" None [] None) = "critical"
  ∧ _determine_severity (Samples.hit "data_encryption" (Some 10%Z))
      (Samples.rule_of "data_encryption" None [] None) = "high"
  ∧ _determine_severity (Samples.hit "data_encryption" (Some 150%Z))
      (Samples.rule_of "data_encryption" (Some "low") [] None) = "low".
Proof.
  split; [| split].
  - destruct (C2_severity_resolution
                (Samples.hit "data_encryption" (Some 150%Z))
                (Samples.rule_of "data_encryption" None [] None))
      as [_ Hby_type].
    destruct (Hby_type (or_introl eq_refl)) as [Hencryption _].
    exact (Hencryption (or_introl eq_refl)).
  - destruct (C2_severity_resolution
                (Samples.hit "data_encryption" (Some 10%Z))
                (Samples.rule_of "data_encryption" None [] None))
      as [_ Hby_type].
    destruct (Hby_type (or_introl eq_refl)) as [Hencryption _].
    exact (Hencryption (or_introl eq_refl)).
  - destruct (C2_severity_resolution
                (Samples.hit "data_encryption" (Some 150%Z))
                (Samples.rule_of "data_encryption" (Some "low") [] None))
      as [Hdeclared _].
    apply Hdeclared; [reflexivity | discriminate].
Defined.

(** C2 as first stated fails: a rule whose declared severity is the empty
    string does not get that severity back; the hit's type decides. *)
Lemma C2_empty_declared_severity :
  r_severity (Samples.rule_of "data_retention" (Some EmptyString) [] None)
  = Some EmptyString
  ∧ _determine_severity (Samples.hit "data_retention" (Some 5%Z))
      (Samples.rule_of "data_retention" (Some EmptyString) [] None) = "high"
  ∧ ¬ (∀ (pv : PotentialViolation) (rule : Rule) (s : string),
         r_severity rule = Some s → _determine_severity pv rule = s).
Proof.
  split; [reflexivity |]. split; [reflexivity |].
  intros H.
  specialize (H (Samples.hit "data_retention" (Some 5%Z))
                (Samples.rule_of "data_retention" (Some EmptyString) [] None)
                EmptyString eq_refl).
  discriminate H.
Qed.

End SeverityClaims.

(** ** The column matcher *)

Section ColumnMatcherFacts.

Import DatabaseScanner.
Local Open Scope string_scope.
Local Open Scope list_scope.

Lemma str_in_spec (x : string) (l : list string) : str_in x l = true ↔ x ∈ l.
Proof.
  unfold str_in. rewrite existsb_exists. split.
  - intros (y & Hy & Heq). apply String.eqb_eq in Heq as ->.
    by apply list_elem_of_In.
  - intros Hx. exists x. split; [by apply list_elem_of_In |].
    apply String.eqb_refl.
Qed.

Lemma pattern_loop_NoDup (col col_lower : string)
    (patterns applicable : list string) :
  NoDup applicable → NoDup (pattern_loop col col_lower patterns applicable).
Proof.
  revert applicable.
  induction patterns as [| pattern rest IH]; intros applicable Hnd; simpl;
    [done |].
  destruct (contains pattern col_lower); simpl; [| by apply IH].
  destruct (str_in col applicable) eqn:Hin; simpl; [by apply IH |].
  apply IH. apply NoDup_app. split; [done |]. split.
  - intros x Hx Hx'. apply list_elem_of_singleton in Hx' as ->.
    apply str_in_spec in Hx. congruence.
  - apply NoDup_singleton.
Qed.

Lemma column_loop_NoDup (columns patterns applicable : list string) :
  NoDup applicable → NoDup (column_loop columns patterns applicable).
Proof.
  revert applicable.
  induction columns as [| col rest IH]; intros applicable Hnd; simpl; [done |].
  by apply IH, pattern_loop_NoDup.
Qed.

(** The keyword stage never adds a column twice: the result has no
    duplicates as soon as the entity hints produced none. *)
Lemma find_applicable_columns_NoDup (rule : Rule) (columns : list string) :
  NoDup (entity_loop (r_entities rule) columns []) →
  NoDup (_find_applicable_columns rule columns).
Proof.
  intros Hnd. unfold _find_applicable_columns. by apply column_loop_NoDup.
Qed.

(** C4.  The column matcher does not always return a duplicate-free list:
    for a rule whose entity hints [users.email] and [customers.email] name
    the same column, a table with the columns [id] and [email] gets the
    column [email] twice. *)
Theorem C4_entity_hints_duplicate :
  _find_applicable_columns Samples.two_hints_rule ["id"; "email"]
  = ["email"; "email"]
  ∧ ¬ NoDup (_find_applicable_columns Samples.two_hints_rule ["id"; "email"]).
Proof.
  assert (_find_applicable_columns Samples.two_hints_rule ["id"; "email"]
          = ["email"; "email"]) as Heq by reflexivity.
  split; [exact Heq |].
  rewrite Heq. intros Hnd. apply NoDup_cons in Hnd as [Hnotin _].
  apply Hnotin. apply list_elem_of_here.
Qed.

End ColumnMatcherFacts.

(** ** The encryption checker *)

Section EncryptionFacts.

Import DatabaseScanner.
Local Open Scope string_scope.
Local Open Scope list_scope.

Lemma is_plaintext_spec (col value : string) :
  is_plaintext col value = true
  ↔ (contains "ssn" (lower col) = true
     ∧ String.length value = 9 ∧ isdigit value = true)
    ∨ (contains "credit" (lower col) = true
       ∧ (String.length value = 15 ∨ String.length value = 16)
       ∧ isdigit value = true)
    ∨ (contains "password" (lower col) = true ∧ String.length value < 60).
Proof.
  assert (is_plaintext col value
          = (contains "ssn" (lower col) && Nat.eqb (String.length value) 9
             && isdigit value)
            || (contains "credit" (lower col)
                && (Nat.eqb (String.length value) 15
                    || Nat.eqb (String.length value) 16)
                && isdigit value)
            || (contains "password" (lower col)
                && Nat.ltb (String.length value) 60)) as ->.
  { unfold is_plaintext.
    destruct (contains "ssn" _), (contains "credit" _),
      (contains "password" _), (Nat.eqb _ 9), (Nat.eqb _ 15), (Nat.eqb _ 16),
      (isdigit value), (Nat.ltb _ 60); reflexivity. }
  rewrite !orb_true_iff, !andb_true_iff, orb_true_iff, !Nat.eqb_eq, Nat.ltb_lt.
  tauto.
Qed.

Lemma encryption_rows_first_match (table : string) (rule : Rule) (col : string)
    (pre : list Row) (row : Row) (post : list Row) (v : SqlValue)
    (violations : list PotentialViolation) :
  Forall (passes col) pre →
  row !! col = Some v →
  is_plaintext col (str v) = true →
  encryption_rows table rule col (pre ++ row :: post) violations
  = (Returns tt, violations ++ [encryption_hit table rule col]).
Proof.
  intros Hpre Hrow Hplain.
  induction Hpre as [| r pre (u & Hr & Hu) _ IH]; simpl.
  - by rewrite Hrow, Hplain.
  - by rewrite Hr, Hu.
Qed.

Lemma rows_examined_le (col : string) (result : list Row) :
  (rows_examined col result ≤ length result)%nat.
Proof.
  induction result as [| row rest IH]; simpl; [done |].
  destruct (row !! col) as [v |]; [| lia].
  destruct (is_plaintext col (str v)); lia.
Qed.

Lemma rows_examined_first_match (col : string) (pre : list Row) (row : Row)
    (post : list Row) (v : SqlValue) :
  Forall (passes col) pre →
  row !! col = Some v →
  is_plaintext col (str v) = true →
  rows_examined col (pre ++ row :: post) = S (length pre).
Proof.
  intros Hpre Hrow Hplain.
  induction Hpre as [| r pre (u & Hr & Hu) _ IH]; simpl.
  - by rewrite Hrow, Hplain.
  - by rewrite Hr, Hu, IH.
Qed.

Lemma encryption_rows_at_most_one (table : string) (rule : Rule) (col : string)
    (result : list Row) (violations : list PotentialViolation) :
  ∃ hits : list PotentialViolation,
    (encryption_rows table rule col result violations).2 = violations ++ hits
    ∧ (hits = [] ∨ hits = [encryption_hit table rule col]).
Proof.
  induction result as [| row rest IH]; simpl.
  - exists []. by rewrite app_nil_r; auto.
  - destruct (row !! col) as [v |]; simpl.
    + destruct (is_plaintext col (str v)); simpl; [| exact IH].
      eexists. split; [reflexivity | by right].
    + exists []. by rewrite app_nil_r; auto.
Qed.

Lemma encryption_column_returns {World} (connector : DatabaseConnector World)
    (table : string) (rule : Rule) (col : string)
    (violations : list PotentialViolation) (w : World) :
  ∃ (hits : list PotentialViolation) (w' : World),
    encryption_column connector table rule col violations w
    = (Returns (violations ++ hits), w')
    ∧ (hits = [] ∨ hits = [encryption_hit table rule col]).
Proof.
  unfold encryption_column.
  destruct (execute_query connector _ w) as [[result | e] w'].
  - destruct (truthy_list result).
    + destruct (encryption_rows_at_most_one table rule col result violations)
        as (hits & Heq & Hhits).
      exists hits, w'. split; [| done].
      destruct (encryption_rows _ _ _ _ _) as [[[] | e] vs]; simpl in Heq;
        by rewrite Heq.
    + exists [], w'. by rewrite app_nil_r; auto.
  - exists [], w'. by rewrite app_nil_r; auto.
Qed.

(** The encryption checker swallows every exception of its queries. *)
Lemma check_data_encryption_returns {World} (connector : DatabaseConnector World)
    (table : string) (rule : Rule) (columns : list string) (w : World) :
  ∃ (hits : list PotentialViolation) (w' : World),
    _check_data_encryption connector table rule columns w = (Returns hits, w').
Proof.
  unfold _check_data_encryption. generalize (@nil PotentialViolation).
  revert w. induction columns as [| col rest IH]; intros w violations; simpl.
  - by eexists _, _.
  - unfold mbind, Async_bind, bind.
    destruct (encryption_column_returns connector table rule col violations w)
      as (hits & w' & -> & _).
    apply IH.
Qed.

End EncryptionFacts.

(** ** Claims about the scanner *)

Section ScannerClaims.

Import DatabaseScanner.
Local Open Scope string_scope.
Local Open Scope list_scope.

(** C9 (as amended).  For a matched column the encryption checker issues
    one query, the sample of at most 10 non-null values of that column
    ([encryption_query], which ends in [IS NOT NULL LIMIT 10]), and looks at
    nothing else of the backend.  A sampled value is classified as likely
    plaintext exactly when the lower-cased column name contains [ssn] and
    the value is a 9-digit numeric string, or the name contains [credit]
    and the value is a 15- or 16-digit numeric string, or the name contains
    [password] and the value is shorter than 60 characters.  On the first
    such value the checker appends exactly one hit for the column and stops:
    the rows after it are not examined ([rows_examined] counts one more
    than the rows before it) and do not matter.  The checker examines no
    more rows than the query returned, so at most 10 when the backend
    honours the limit.  A column never gets more than one hit from one
    pass. *)
Theorem C9_encryption_checker :
  (∀ col value : string,
     is_plaintext col value = true
     ↔ (contains "ssn" (lower col) = true
        ∧ String.length value = 9 ∧ isdigit value = true)
       ∨ (contains "credit" (lower col) = true
          ∧ (String.length value = 15 ∨ String.length value = 16)
          ∧ isdigit value = true)
       ∨ (contains "password" (lower col) = true ∧ String.length value < 60))
  ∧ (∀ (World : Type) (c1 c2 : DatabaseConnector World) (table : string)
       (rule : Rule) (col : string) (violations : list PotentialViolation)
       (w : World),
       execute_query c1 (encryption_query table col) w
       = execute_query c2 (encryption_query table col) w →
       encryption_column c1 table rule col violations w
       = encryption_column c2 table rule col violations w)
  ∧ (∀ (table : string) (rule : Rule) (col : string) (pre : list Row)
       (row : Row) (post : list Row) (v : SqlValue)
       (violations : list PotentialViolation),
       Forall (passes col) pre →
       row !! col = Some v →
       is_plaintext col (str v) = true →
       encryption_rows table rule col (pre ++ row :: post) violations
       = (Returns tt, violations ++ [encryption_hit table rule col])
       ∧ rows_examined col (pre ++ row :: post) = S (length pre))
  ∧ (∀ (col : string) (result : list Row),
       (rows_examined col result ≤ length result)%nat
       ∧ (length result ≤ 10 → rows_examined col result ≤ 10)%nat)
  ∧ (∀ (World : Type) (connector : DatabaseConnector World) (table : string)
       (rule : Rule) (col : string) (pre : list Row) (row : Row)
       (post : list Row) (v : SqlValue)
       (violations : list PotentialViolation) (w w' : World),
       execute_query connector (encryption_query table col) w
       = (Returns (pre ++ row :: post), w') →
       Forall (passes col) pre →
       row !! col = Some v →
       is_plaintext col (str v) = true →
       encryption_column connector table rule col violations w
       = (Returns (violations ++ [encryption_hit table rule col]), w'))
  ∧ (∀ (World : Type) (connector : DatabaseConnector World) (table : string)
       (rule : Rule) (col : string) (violations : list PotentialViolation)
       (w : World),
       ∃ (hits : list PotentialViolation) (w' : World),
         encryption_column connector table rule col violations w
         = (Returns (violations ++ hits), w')
         ∧ (hits = [] ∨ hits = [encryption_hit table rule col])).
Proof.
  split; [exact is_plaintext_spec |].
  split.
  { intros World c1 c2 table rule col violations w Hsame.
    unfold encryption_column. by rewrite Hsame. }
  split.
  { intros table rule col pre row post v violations Hpre Hrow Hplain.
    split; [by eapply encryption_rows_first_match |].
    by eapply rows_examined_first_match. }
  split.
  { intros col result. pose proof (rows_examined_le col result). lia. }
  split.
  { intros World connector table rule col pre row post v violations w w'
      Hquery Hpre Hrow Hplain.
    unfold encryption_column. rewrite Hquery.
    rewrite (encryption_rows_first_match table rule col pre row post v
               violations Hpre Hrow Hplain).
    by destruct pre. }
  intros World. exact encryption_column_returns.
Qed.

(** The scenario of the specification: a column [ssn] whose first sampled
    row holds a 9-digit numeric string is flagged once, at that row,
    whatever the other nine rows hold. *)
Lemma C9_witness :
  encryption_rows "users" Samples.encryption_rule "ssn" Samples.ssn_rows []
  = (Returns tt, [encryption_hit "users" Samples.encryption_rule "ssn"])
  ∧ rows_examined "ssn" Samples.ssn_rows = 1.
Proof.
  destruct C9_encryption_checker as (_ & _ & Hfirst & _).
  apply (Hfirst "users" Samples.encryption_rule "ssn" []
           (Samples.row1 "ssn" (VText "123456789")) (tail Samples.ssn_rows)
           (VText "123456789") []).
  - constructor.
  - reflexivity.
  - reflexivity.
Defined.

(** On the ten sampled rows of [Samples.ssn_rows] the checker makes one
    query and returns one hit. *)
Example check_data_encryption_ssn :
  _check_data_encryption (Samples.counting_connector Samples.ssn_rows) "users"
    Samples.encryption_rule ["ssn"] 0
  = (Returns [encryption_hit "users" Samples.encryption_rule "ssn"], 1).
Proof. reflexivity. Qed.

(** C9 as first stated fails for an id-named column: a 9-digit numeric
    value in the column [national_id] is not classified as plaintext, and
    the checker emits no hit for it. *)
Lemma C9_id_named_column_not_flagged :
  contains "id" (lower "national_id") = true
  ∧ String.length "123456789" = 9
  ∧ isdigit "123456789" = true
  ∧ is_plaintext "national_id" "123456789" = false
  ∧ _check_data_encryption
      (Samples.counting_connector
         [Samples.row1 "national_id" (VText "123456789")])
      "users" Samples.encryption_rule ["national_id"] 0
    = (Returns [], 1).
Proof. repeat split. Qed.

End ScannerClaims.

(** ** Claims about the per-(table, rule) check and the scan loops *)

Section CoordinatorClaims.

Import DatabaseScanner.
Local Open Scope string_scope.
Local Open Scope list_scope.

Context {World : Type}.
Variable connector : DatabaseConnector World.
Variable checkers : CategoryCheckers World.

(** The per-(table, rule) check always returns: no exception leaves it. *)
Lemma check_rule_against_table_returns (table : string) (rule : Rule)
    (columns : list string) (sample_size : Z) (w : World) :
  ∃ (hits : list PotentialViolation) (w' : World),
    _check_rule_against_table connector checkers table rule columns
      sample_size w = (Returns hits, w').
Proof.
  unfold _check_rule_against_table.
  destruct (_ && _); [by eexists _, _ |].
  unfold try_except.
  destruct (dispatch _ _ _ _ _ _ _ _ w) as [[hits | e] w'];
    by eexists _, _.
Qed.

Lemma scan_table_loop_returns (table : string) (rules : list Rule)
    (columns : list string) (sample_size : Z)
    (violations : list PotentialViolation) (w : World) :
  ∃ (hits : list PotentialViolation) (w' : World),
    scan_table_loop connector checkers table rules columns sample_size
      violations w = (Returns hits, w').
Proof.
  revert violations w.
  induction rules as [| rule rest IH]; intros violations w; simpl.
  - by eexists _, _.
  - unfold mbind, Async_bind, bind.
    destruct (check_rule_against_table_returns table rule columns
                sample_size w) as (hits & w' & ->).
    apply IH.
Qed.

Lemma scan_table_returns (table : string) (rules : list Rule)
    (schema : TableSchema) (sample_size : Z) (w : World) :
  ∃ (hits : list PotentialViolation) (w' : World),
    _scan_table connector checkers table rules schema sample_size w
    = (Returns hits, w').
Proof. apply scan_table_loop_returns. Qed.

Lemma scan_loop_returns (all_tables : list string)
    (schema : gmap string TableSchema) (rules : list Rule) (sample_size : Z)
    (tables_to_scan tables_scanned : list string)
    (potential_violations : list PotentialViolation) (w : World) :
  ∃ (r : list string * list PotentialViolation) (w' : World),
    scan_loop connector checkers all_tables schema rules sample_size
      tables_to_scan tables_scanned potential_violations w = (Returns r, w').
Proof.
  revert tables_scanned potential_violations w.
  induction tables_to_scan as [| table rest IH];
    intros tables_scanned potential_violations w; simpl.
  - by eexists _, _.
  - destruct (negb (str_in table all_tables)); [apply IH |].
    unfold mbind, Async_bind, bind.
    destruct (scan_table_returns table rules
                (default (mkTableSchema None) (schema !! table))
                sample_size w) as (hits & w' & ->).
    apply IH.
Qed.

(** A scan whose backend lists its tables and its schema returns a scan
    result, whatever the checkers do. *)
Lemma scan_returns (utcnow_strftime utcnow_isoformat : Async World string)
    (self : Scanner) (rules : list Rule) (tables : option (list string))
    (sample_size : Z) (w : World) :
  (∀ w0, ∃ a w1, utcnow_strftime w0 = (Returns a, w1)) →
  (∀ w0, ∃ a w1, utcnow_isoformat w0 = (Returns a, w1)) →
  (∀ w0, ∃ a w1, get_tables connector w0 = (Returns a, w1)) →
  (∀ w0, ∃ a w1, get_full_schema connector w0 = (Returns a, w1)) →
  ∃ (r : ScanResult * Scanner) (w' : World),
    scan connector checkers utcnow_strftime utcnow_isoformat self rules
      tables sample_size w = (Returns r, w').
Proof.
  intros Hstrftime Hiso Htables Hschema.
  unfold scan, mbind, Async_bind, bind.
  destruct (Hstrftime w) as (scan_id & w1 & ->).
  destruct (Htables w1) as (all_tables & w2 & ->).
  destruct (Hschema w2) as (schema & w3 & ->).
  destruct (Hiso w3) as (started_at & w4 & ->).
  match goal with
  | |- context [scan_loop ?c ?k ?a ?s ?r ?z ?t ?ts ?pv w4] =>
      destruct (scan_loop_returns a s r z t ts pv w4)
        as ([tables_scanned pvs] & w5 & ->)
  end.
  destruct (Hiso w5) as (completed_at & w6 & ->).
  by eexists _, _.
Qed.

(** C5.  When the column matcher returns no column and the rule carries no
    raw predicate, the per-(table, rule) check returns no hit and leaves the
    world as it found it, whatever the checkers and the backend would do: no
    checker runs; the table loop goes on to the next rule with the hits it
    had. *)
Theorem C5_not_applicable_skipped (table : string) (rule : Rule)
    (columns : list string) (sample_size : Z) (w : World) :
  _find_applicable_columns rule columns = [] →
  truthy_str (r_sql_condition rule) = false →
  _check_rule_against_table connector checkers table rule columns sample_size w
  = (Returns [], w)
  ∧ ∀ (rest : list Rule) (violations : list PotentialViolation),
      scan_table_loop connector checkers table (rule :: rest) columns
        sample_size violations w
      = scan_table_loop connector checkers table rest columns sample_size
          violations w.
Proof.
  intros Hnone Hsql.
  assert (_check_rule_against_table connector checkers table rule columns
            sample_size w = (Returns [], w)) as Hcheck.
  { unfold _check_rule_against_table. by rewrite Hnone, Hsql. }
  split; [exact Hcheck |].
  intros rest violations. simpl. unfold mbind, Async_bind, bind.
  by rewrite Hcheck, app_nil_r.
Qed.

(** C6.  When the dispatched checker raises, the per-(table, rule) check
    catches the exception and returns the single diagnostic entry of type
    ['scan_error'] with the table name and the rule id; the check itself
    never raises; the table loop goes on with the remaining rules and the
    scan loop with the remaining tables, and neither raises. *)
Theorem C6_checker_exception_isolated (table : string) (rule : Rule)
    (columns : list string) (sample_size : Z) (w : World) :
  (∀ (e : PyException) (w' : World),
     _find_applicable_columns rule columns ≠ []
     ∨ truthy_str (r_sql_condition rule) = true →
     dispatch connector checkers table rule columns
       (_find_applicable_columns rule columns) sample_size [] w
     = (Raises e, w') →
     _check_rule_against_table connector checkers table rule columns
       sample_size w
     = (Returns [scan_error_entry table rule e], w')
     ∧ pv_type (scan_error_entry table rule e) = Some "scan_error"
     ∧ pv_table (scan_error_entry table rule e) = Some table
     ∧ pv_rule_id (scan_error_entry table rule e) = r_id rule)
  ∧ (∃ (hits : list PotentialViolation) (w' : World),
       _check_rule_against_table connector checkers table rule columns
         sample_size w = (Returns hits, w')
       ∧ ∀ (rest : list Rule) (violations : list PotentialViolation),
           scan_table_loop connector checkers table (rule :: rest) columns
             sample_size violations w
           = scan_table_loop connector checkers table rest columns
               sample_size (violations ++ hits) w')
  ∧ (∀ (rules : list Rule) (schema : gmap string TableSchema)
       (all_tables : list string),
       ∃ (hits : list PotentialViolation) (w' : World),
         _scan_table connector checkers table rules
           (default (mkTableSchema None) (schema !! table)) sample_size w
         = (Returns hits, w')
         ∧ ∀ (rest tables_scanned : list string)
             (potential_violations : list PotentialViolation),
             str_in table all_tables = true →
             scan_loop connector checkers all_tables schema rules sample_size
               (table :: rest) tables_scanned potential_violations w
             = scan_loop connector checkers all_tables schema rules
                 sample_size rest (tables_scanned ++ [table])
                 (potential_violations ++ hits) w')
  ∧ (∀ (rules : list Rule) (schema : gmap string TableSchema)
       (all_tables tables_to_scan tables_scanned : list string)
       (potential_violations : list PotentialViolation),
       ∃ (r : list string * list PotentialViolation) (w' : World),
         scan_loop connector checkers all_tables schema rules sample_size
           tables_to_scan tables_scanned potential_violations w
         = (Returns r, w')).
Proof.
  split; [| split; [| split]].
  - intros e w' Hguard Hraise. split; [| done].
    unfold _check_rule_against_table.
    assert (negb (truthy_list (_find_applicable_columns rule columns))
            && negb (truthy_str (r_sql_condition rule)) = false) as ->.
    { destruct Hguard as [Hcols | ->]; [| apply andb_false_r].
      by destruct (_find_applicable_columns rule columns). }
    unfold try_except. by rewrite Hraise.
  - destruct (check_rule_against_table_returns table rule columns
                sample_size w) as (hits & w' & Hcheck).
    exists hits, w'. split; [done |].
    intros rest violations. simpl. unfold mbind, Async_bind, bind.
    by rewrite Hcheck.
  - intros rules schema all_tables.
    destruct (scan_table_returns table rules
                (default (mkTableSchema None) (schema !! table))
                sample_size w) as (hits & w' & Hscan).
    exists hits, w'. split; [done |].
    intros rest tables_scanned potential_violations Hin. simpl.
    rewrite Hin. simpl. unfold mbind, Async_bind, bind.
    by rewrite Hscan.
  - intros. apply scan_loop_returns.
Qed.

End CoordinatorClaims.

Section CoordinatorExamples.

Import DatabaseScanner.
Local Open Scope string_scope.
Local Open Scope list_scope.

(** A notification rule that names no entity, on a table with the columns
    [id] and [name]: no hit, and no call counted. *)
Lemma C5_witness :
  _check_rule_against_table (Samples.counting_connector [])
    Samples.counting_checkers "users" Samples.notification_rule
    ["id"; "name"] 1000 0%nat
  = (Returns [], 0%nat).
Proof.
  apply (C5_not_applicable_skipped (Samples.counting_connector [])
           Samples.counting_checkers "users" Samples.notification_rule
           ["id"; "name"] 1000 0%nat).
  - reflexivity.
  - reflexivity.
Defined.

(** A retention rule on a table whose retention query fails: one
    ['scan_error'] entry with the table and the rule id. *)
Lemma C6_witness :
  _check_rule_against_table (Samples.counting_connector [])
    Samples.failing_checkers "users" Samples.retention_rule
    ["id"; "created_at"] 1000 0%nat
  = (Returns
       [scan_error_entry "users" Samples.retention_rule
          (mkExc "OperationalError" "no such column")], 1%nat).
Proof.
  destruct (C6_checker_exception_isolated (Samples.counting_connector [])
              Samples.failing_checkers "users" Samples.retention_rule
              ["id"; "created_at"] 1000 0%nat) as [Hcaught _].
  apply (Hcaught (mkExc "OperationalError" "no such column") 1%nat).
  - left. discriminate.
  - reflexivity.
Defined.

End CoordinatorExamples.

(** ** Worked examples *)

Section ScoreExamples.

Import ViolationEngine.
Local Open Scope string_scope.
Local Open Scope list_scope.
Local Open Scope R_scope.

Lemma log10_10 : log10 10 = 1.
Proof.
  unfold log10. pose proof ln_10_pos. field. lra.
Qed.

Lemma round2_hundredths (k : Z) : round2 (IZR k / 100) = IZR k / 100.
Proof.
  unfold round2.
  replace (IZR k / 100 * 100) with (IZR k) by lra.
  by rewrite round_half_even_IZR.
Qed.

(** A [high] retention violation with one hit: 75 × 1.3 × 1 = 97.5. *)
Example score_high_retention_1 :
  _calculate_risk_score (Samples.draft "high" "data_retention" 1) = 97.5.
Proof.
  rewrite calculate_risk_score_eq.
  change (Spec.base _) with 75. change (Spec.typeMultiplier _) with 1.3.
  change (IZR (Z.max _ 1)) with 1. rewrite log10_1.
  replace (75 * 1.3 * (1 + 0 * 0.1)) with 97.5 by lra.
  rewrite Rmin_left by lra.
  replace 97.5 with (IZR 9750 / 100) by lra. apply round2_hundredths.
Qed.

(** A [low] audit-logging violation with ten hits: 25 × 1.0 × 1.1 = 27.5. *)
Example score_low_audit_10 :
  _calculate_risk_score (Samples.draft "low" "audit_logging" 10) = 27.5.
Proof.
  rewrite calculate_risk_score_eq.
  change (Spec.base _) with 25. change (Spec.typeMultiplier _) with 1.0.
  change (IZR (Z.max _ 1)) with 10. rewrite log10_10.
  replace (25 * 1.0 * (1 + 1 * 0.1)) with 27.5 by lra.
  rewrite Rmin_left by lra.
  replace 27.5 with (IZR 2750 / 100) by lra. apply round2_hundredths.
Qed.

(** The lower end of the range is reached: [low], multiplier 1, one hit. *)
Example score_low_audit_1 :
  _calculate_risk_score (Samples.draft "low" "audit_logging" 1) = 25.
Proof.
  rewrite calculate_risk_score_eq.
  change (Spec.base _) with 25. change (Spec.typeMultiplier _) with 1.0.
  change (IZR (Z.max _ 1)) with 1. rewrite log10_1.
  replace (25 * 1.0 * (1 + 0 * 0.1)) with 25 by lra.
  rewrite Rmin_left by lra. apply (round2_IZR 25).
Qed.

(** A [critical] encryption violation is capped at 100 whatever its
    count. *)
Example score_critical_encryption (n : Z) :
  _calculate_risk_score (Samples.draft "critical" "data_encryption" n) = 100.
Proof.
  rewrite calculate_risk_score_eq.
  change (Spec.base _) with 100. change (Spec.typeMultiplier _) with 1.5.
  pose proof (count_factor_ge_1 n) as Hc.
  change (v_violation_count _) with n.
  rewrite Rmin_right by nra. apply (round2_IZR 100).
Qed.

End ScoreExamples.

Section DetectExample.

Import ViolationEngine.
Local Open Scope string_scope.
Local Open Scope list_scope.

(** [detect] on [Samples.three_hits] without rules: the scan error is
    dropped, the encryption hit (critical, score 100) comes first, the
    audit-logging hit (low, score 25) second, although it was discovered
    first. *)
Example detect_three_hits :
  (λ v, (v_id v, v_rule_type v, v_severity v, v_risk_score v))
    <$> (detect Samples.ids Samples.clock (mkEngine []) Samples.three_hits []).1
  = [ ("B", Some "data_encryption", Some "critical", Some 100%R);
      ("A", Some "audit_logging", Some "low", Some 25%R) ].
Proof.
  unfold detect. simpl sr_potential_violations.
  change (detect_loop _ _ _ _ _ _)
    with [ make_violation Samples.ids Samples.clock Samples.three_hits ∅ 0
             Samples.audit_hit;
           make_violation Samples.ids Samples.clock Samples.three_hits ∅ 1
             (Samples.hit "data_encryption" (Some 150%Z)) ].
  assert (default 0%R
            (v_risk_score
               (make_violation Samples.ids Samples.clock Samples.three_hits ∅ 0
                  Samples.audit_hit)) = 25%R) as Haudit.
  { simpl. rewrite calculate_risk_score_eq.
    change (Spec.base _) with 25%R. change (Spec.typeMultiplier _) with 1.0%R.
    change (IZR (Z.max _ 1)) with 1%R. rewrite log10_1.
    replace (25 * 1.0 * (1 + 0 * 0.1))%R with 25%R by lra.
    rewrite Rmin_left by lra. apply (round2_IZR 25). }
  assert (default 0%R
            (v_risk_score
               (make_violation Samples.ids Samples.clock Samples.three_hits ∅ 1
                  (Samples.hit "data_encryption" (Some 150%Z)))) = 100%R)
    as Hencryption.
  { simpl. rewrite calculate_risk_score_eq.
    change (Spec.base _) with 100%R. change (Spec.typeMultiplier _) with 1.5%R.
    pose proof (count_factor_ge_1 150) as Hc.
    change (v_violation_count _) with 150%Z.
    rewrite Rmin_right by nra. apply (round2_IZR 100). }
  unfold sort_reverse. cbn [foldr insert_desc fst].
  rewrite Haudit, Hencryption.
  destruct (Rlt_dec 25 100) as [_ | Hn]; [| lra].
  cbn [fmap list_fmap]. simpl in Haudit, Hencryption.
  repeat f_equal; simpl; f_equal; congruence.
Qed.

(** Two hits with the same score keep their discovery order. *)
Example detect_two_audit_hits :
  (λ v, (v_id v, v_table v, v_risk_score v))
    <$> (detect Samples.ids Samples.clock (mkEngine []) Samples.two_audit_hits
           []).1
  = [ ("A", Some "users", Some 25%R); ("B", Some "orders", Some 25%R) ].
Proof.
  unfold detect. simpl sr_potential_violations.
  change (detect_loop _ _ _ _ _ _)
    with [ make_violation Samples.ids Samples.clock Samples.two_audit_hits ∅ 0
             Samples.audit_hit;
           make_violation Samples.ids Samples.clock Samples.two_audit_hits ∅ 1
             Samples.audit_hit_orders ].
  assert (∀ k pv,
            pv = Samples.audit_hit ∨ pv = Samples.audit_hit_orders →
            v_risk_score
              (make_violation Samples.ids Samples.clock Samples.two_audit_hits
                 ∅ k pv) = Some 25%R) as Hscore.
  { intros k pv Hpv. simpl. f_equal. rewrite calculate_risk_score_eq.
    destruct Hpv as [-> | ->];
      change (Spec.base _) with 25%R;
      change (Spec.typeMultiplier _) with 1.0%R;
      change (IZR (Z.max _ 1)) with 1%R; rewrite log10_1;
      replace (25 * 1.0 * (1 + 0 * 0.1))%R with 25%R by lra;
      rewrite Rmin_left by lra; apply (round2_IZR 25). }
  unfold sort_reverse. cbn [foldr insert_desc fst].
  rewrite !Hscore by auto. simpl default.
  destruct (Rlt_dec 25 25) as [Hlt | _]; [lra |].
  cbn [fmap list_fmap]. rewrite !Hscore by auto. reflexivity.
Qed.

End DetectExample.


(** * Further properties of the violation engine *)

Section FrameworkFacts.

Import ViolationEngine.
Local Open Scope string_scope.
Local Open Scope list_scope.

(** The nine rule types the engine knows. *)
Lemma known_type_cases (t : string) :
  t ∈ ["data_retention"; "data_access"; "data_encryption"; "data_masking";
       "consent"; "age_restriction"; "geographic_restriction";
       "audit_logging"; "notification"]
  ∨ (t ≠ "data_retention" ∧ t ≠ "data_access" ∧ t ≠ "data_encryption"
     ∧ t ≠ "data_masking" ∧ t ≠ "consent" ∧ t ≠ "age_restriction"
     ∧ t ≠ "geographic_restriction" ∧ t ≠ "audit_logging"
     ∧ t ≠ "notification").
Proof.
  destruct (decide (t ∈ ["data_retention"; "data_access"; "data_encryption";
                         "data_masking"; "consent"; "age_restriction";
                         "geographic_restriction"; "audit_logging";
                         "notification"])) as [Hin | Hnot]; [by left | right].
  repeat split; intros ->; apply Hnot; apply list_elem_of_In; simpl; tauto.
Qed.

Lemma str_in_false (t : string) (l : list string) :
  t ∉ l → str_in t l = false.
Proof.
  intros Hnot. destruct (str_in t l) eqn:Hin; [| done].
  apply str_in_spec in Hin. done.
Qed.

(** X1.  The framework tags [_map_to_frameworks] returns are a selection of
    GDPR, HIPAA, CCPA, PCI-DSS, SOX, COPPA in that order, each at most
    once, whatever the rule type. *)
Theorem X1_frameworks_ordered_selection (v : Violation) :
  _map_to_frameworks v
    `sublist_of` ["GDPR"; "HIPAA"; "CCPA"; "PCI-DSS"; "SOX"; "COPPA"]
  ∧ NoDup (_map_to_frameworks v).
Proof.
  assert (_map_to_frameworks v
            `sublist_of` ["GDPR"; "HIPAA"; "CCPA"; "PCI-DSS"; "SOX"; "COPPA"])
    as Hsub.
  { unfold _map_to_frameworks.
    repeat match goal with
           | |- context [if ?b then _ else _] => destruct b
           end; simpl;
      repeat first [ apply sublist_nil_l | apply sublist_skip
                   | apply sublist_cons ]. }
  split; [exact Hsub |].
  refine (sublist_NoDup _ _ _ Hsub).
  apply NoDup_ListNoDup. repeat constructor; simpl; intuition discriminate.
Qed.

(** X2.  A violation gets no framework tag exactly when its category is
    the fallback ["General Compliance"], that is, when its rule type is none
    of the nine types the engine knows; COPPA is the tag of
    [age_restriction] alone and is then the only tag. *)
Theorem X2_frameworks_and_category (v : Violation) :
  (_map_to_frameworks v = [] ↔ _categorize_violation v = "General Compliance")
  ∧ (_map_to_frameworks v = []
     ↔ ∀ t, v_rule_type v = Some t →
         t ∉ ["data_retention"; "data_access"; "data_encryption";
              "data_masking"; "consent"; "age_restriction";
              "geographic_restriction"; "audit_logging"; "notification"])
  ∧ ("COPPA" ∈ _map_to_frameworks v
     ↔ v_rule_type v = Some "age_restriction")
  ∧ ("COPPA" ∈ _map_to_frameworks v → _map_to_frameworks v = ["COPPA"]).
Proof.
  unfold _map_to_frameworks, _categorize_violation.
  destruct (v_rule_type v) as [t |]; simpl.
  2:{ repeat split; try done.
      - intros H. apply list_elem_of_In in H. done.
      - intros H. apply list_elem_of_In in H. done. }
  destruct (known_type_cases t) as [Hknown | Hunknown].
  - apply list_elem_of_In in Hknown. simpl in Hknown.
    repeat destruct Hknown as [<- | Hknown]; try done;
      match goal with
      | |- context [categories !! ?k] =>
          let r := eval vm_compute in (categories !! k) in
          change (categories !! k) with r
      end; simpl;
      (split; [split; intros H; discriminate H |]);
      (split;
       [split;
        [intros H; discriminate H
        |intros Hnot; exfalso; apply (Hnot _ eq_refl), list_elem_of_In;
         simpl; tauto] |]);
      (split;
       [split;
        [intros H; apply list_elem_of_In in H; simpl in H;
         first [reflexivity | intuition discriminate]
        |intros H; first [discriminate H | apply list_elem_of_In; simpl; tauto]]
       |intros H; apply list_elem_of_In in H; simpl in H;
        first [reflexivity | intuition discriminate]]).
  - destruct Hunknown as (H1 & H2 & H3 & H4 & H5 & H6 & H7 & H8 & H9).
    repeat match goal with
           | |- context [String.eqb t ?c] =>
               rewrite (proj2 (String.eqb_neq t c)) by done
           end.
    assert (categories !! t = None) as ->.
    { unfold categories.
      repeat (rewrite list_to_map_cons, lookup_insert_ne by congruence).
      apply lookup_empty. }
    simpl. repeat split; try done.
    + intros _ t' [= <-] Ht. apply list_elem_of_In in Ht. simpl in Ht.
      intuition congruence.
    + intros H. apply list_elem_of_In in H. done.
    + intros [= ->]. done.
    + intros H. apply list_elem_of_In in H. done.
Qed.


End FrameworkFacts.

(** ** [get_summary] *)

Section SummaryFacts.

Import ViolationEngine EngineReports.
Local Open Scope string_scope.
Local Open Scope list_scope.

Lemma bump_lookup {K} `{Countable K} (k s : K) (d : gmap K nat) :
  bump k d !! s
  = if decide (k = s) then Some (default 0 (d !! k) + 1) else d !! s.
Proof. unfold bump. apply lookup_insert. Qed.

(** The sum of the counts of a counting [dict]. *)
Lemma bump_sum {K} `{Countable K} (k : K) (d : gmap K nat) :
  map_fold (λ _ n acc, n + acc) 0 (bump k d)
  = S (map_fold (λ _ n acc, n + acc) 0 d).
Proof.
  unfold bump. destruct (d !! k) as [x |] eqn:Hk; simpl.
  - rewrite <- (insert_delete_eq d k (x + 1)).
    rewrite map_fold_insert_L; [| intros; lia | apply lookup_delete_eq].
    rewrite (map_fold_delete_L _ _ k x d); [lia | intros; lia | done].
  - rewrite map_fold_insert_L; [lia | intros; lia | done].
Qed.

(** What one counting [dict] holds after the loop, for a loop that bumps
    the key [key v] for every [v]. *)
Lemma count_after {K} `{Countable K} {A} (key : A → K) (l : list A)
    (d d' : gmap K nat) (s : K) :
  (∀ k, d' !! k
        = match d !! k with
          | Some n => Some (n + length (filter (λ v, key v = k) l))
          | None =>
              if decide (length (filter (λ v, key v = k) l) = 0) then None
              else Some (length (filter (λ v, key v = k) l))
          end) →
  ∀ v, bump (key v) d' !! s
       = match d !! s with
         | Some n => Some (n + length (filter (λ v, key v = s) (l ++ [v])))
         | None =>
             if decide (length (filter (λ v, key v = s) (l ++ [v])) = 0)
             then None
             else Some (length (filter (λ v, key v = s) (l ++ [v])))
         end.
Proof.
  intros Hd' v. rewrite bump_lookup, filter_app, length_app, !Hd'.
  rewrite filter_cons, filter_nil.
  destruct (decide (key v = s)) as [-> | Hne]; simpl.
  - destruct (d !! s); simpl.
    + f_equal. lia.
    + repeat case_decide; simpl; try lia; f_equal; lia.
  - rewrite Nat.add_0_r. destruct (d !! s); done.
Qed.

Lemma summary_loop_snoc (l : list Violation) (v : Violation) (c : Counters) :
  summary_loop (l ++ [v]) c
  = let c' := summary_loop l c in
    {| c_by_severity :=
         bump (default "unknown" (v_severity v)) (c_by_severity c');
       c_by_category :=
         bump (default "Unknown" (v_category v)) (c_by_category c');
       c_by_type := bump (v_rule_type v) (c_by_type c');
       c_by_framework :=
         framework_loop (default [] (v_frameworks v)) (c_by_framework c') |}.
Proof.
  revert c. induction l as [| x l IH]; intros c; simpl; [done |].
  by rewrite IH.
Qed.

Lemma summary_loop_counts (l : list Violation) :
  let c := summary_loop l (mkCounters ∅ ∅ ∅ ∅) in
  (∀ s, c_by_severity c !! s
        = let n := length (filter (λ v, default "unknown" (v_severity v) = s) l)
          in if decide (n = 0) then None else Some n)
  ∧ (∀ s, c_by_category c !! s
          = let n :=
              length (filter (λ v, default "Unknown" (v_category v) = s) l)
            in if decide (n = 0) then None else Some n)
  ∧ (∀ t, c_by_type c !! t
          = let n := length (filter (λ v, v_rule_type v = t) l)
            in if decide (n = 0) then None else Some n)
  ∧ map_fold (λ _ n acc, n + acc) 0 (c_by_severity c) = length l
  ∧ map_fold (λ _ n acc, n + acc) 0 (c_by_category c) = length l
  ∧ map_fold (λ _ n acc, n + acc) 0 (c_by_type c) = length l.
Proof.
  induction l as [| v l IH] using rev_ind; simpl.
  { repeat split; intros; by rewrite ?lookup_empty, ?map_fold_empty. }
  rewrite summary_loop_snoc. simpl.
  destruct IH as (Hsev & Hcat & Htyp & Ssev & Scat & Styp).
  rewrite !bump_sum, Ssev, Scat, Styp, length_app. simpl.
  repeat split; try lia.
  - intros s.
    rewrite (count_after (λ v, default "unknown" (v_severity v)) l ∅ _ s);
      [by rewrite lookup_empty |].
    intros k. by rewrite lookup_empty, Hsev.
  - intros s.
    rewrite (count_after (λ v, default "Unknown" (v_category v)) l ∅ _ s);
      [by rewrite lookup_empty |].
    intros k. by rewrite lookup_empty, Hcat.
  - intros t.
    rewrite (count_after v_rule_type l ∅ _ t); [by rewrite lookup_empty |].
    intros k. by rewrite lookup_empty, Htyp.
Qed.

(** X4.  In the summary, [by_severity], [by_category] and [by_type] map
    each key to the number of recorded violations with that severity,
    category or rule type ([unknown]/[Unknown] standing for a missing
    severity or category) and hold no entry for a key that does not occur;
    the counts of each of the three add up to [total_violations];
    [critical_count] and [high_count] are the numbers of critical and high
    violations. *)
Theorem X4_summary_counts (self : Engine) :
  let s := get_summary self in
  let recorded := detected_violations self in
  (∀ sev, by_severity s !! sev
          = let n :=
              length (filter (λ v, default "unknown" (v_severity v) = sev)
                        recorded)
            in if decide (n = 0) then None else Some n)
  ∧ (∀ cat, by_category s !! cat
            = let n :=
                length (filter (λ v, default "Unknown" (v_category v) = cat)
                          recorded)
              in if decide (n = 0) then None else Some n)
  ∧ (∀ typ, by_type s !! typ
            = let n := length (filter (λ v, v_rule_type v = typ) recorded)
              in if decide (n = 0) then None else Some n)
  ∧ map_fold (λ _ n acc, n + acc) 0 (by_severity s) = total_violations s
  ∧ map_fold (λ _ n acc, n + acc) 0 (by_category s) = total_violations s
  ∧ map_fold (λ _ n acc, n + acc) 0 (by_type s) = total_violations s
  ∧ critical_count s
    = length (filter (λ v, v_severity v = Some "critical") recorded)
  ∧ high_count s = length (filter (λ v, v_severity v = Some "high") recorded).
Proof.
  intros s recorded.
  destruct (summary_loop_counts recorded)
    as (Hsev & Hcat & Htyp & Ssev & Scat & Styp).
  assert (∀ x : string, x ≠ "unknown" →
            default 0 (by_severity s !! x)
            = length (filter (λ v, v_severity v = Some x) recorded)) as Hcount.
  { intros x Hx. unfold s, get_summary. simpl. fold recorded. rewrite Hsev.
    simpl.
    assert (filter (λ v, default "unknown" (v_severity v) = x) recorded
            = filter (λ v, v_severity v = Some x) recorded) as ->.
    { apply list_filter_iff. intros v. destruct (v_severity v); simpl;
        split; congruence. }
    case_decide as Hn; simpl; [by rewrite Hn | done]. }
  repeat split; try done.
  - by apply Hcount.
  - by apply Hcount.
Qed.

End SummaryFacts.

Section SummaryMoreFacts.

Import ViolationEngine EngineReports.
Local Open Scope string_scope.
Local Open Scope list_scope.

Lemma framework_loop_snoc (l : list string) (fw : string)
    (d : gmap string nat) :
  framework_loop (l ++ [fw]) d = bump fw (framework_loop l d).
Proof.
  revert d. induction l as [| x l IH]; intros d; simpl; [done |]. apply IH.
Qed.

Lemma framework_loop_app (l k : list string) (d : gmap string nat) :
  framework_loop (l ++ k) d = framework_loop k (framework_loop l d).
Proof.
  revert d. induction l as [| x l IH]; intros d; simpl; [done |]. apply IH.
Qed.

Lemma framework_loop_counts (l : list string) :
  (∀ fw, framework_loop l ∅ !! fw
         = let n := length (filter (λ x, x = fw) l)
           in if decide (n = 0) then None else Some n)
  ∧ map_fold (λ _ n acc, n + acc) 0 (framework_loop l ∅) = length l.
Proof.
  induction l as [| x l [Hcount Hsum]] using rev_ind; simpl.
  { split; intros; by rewrite ?lookup_empty, ?map_fold_empty. }
  rewrite framework_loop_snoc, bump_sum, Hsum, length_app. simpl.
  split; [| lia]. intros fw.
  rewrite (count_after (λ x : string, x) l ∅ _ fw); [by rewrite lookup_empty |].
  intros k. by rewrite lookup_empty, Hcount.
Qed.

Lemma summary_loop_frameworks (l : list Violation) (c : Counters) :
  c_by_framework (summary_loop l c)
  = framework_loop (concat ((λ v, default [] (v_frameworks v)) <$> l))
      (c_by_framework c).
Proof.
  revert c. induction l as [| v l IH]; intros c; simpl; [done |].
  by rewrite IH, framework_loop_app.
Qed.

(** X5.  [by_framework] counts framework tags, not violations: a framework
    maps to the number of times it occurs among the tags of all recorded
    violations (no entry when it does not occur), and the counts add up to
    the total number of tags. *)
Theorem X5_summary_framework_counts (self : Engine) :
  let tags :=
    concat ((λ v, default [] (v_frameworks v)) <$> detected_violations self) in
  (∀ fw, by_framework (get_summary self) !! fw
         = let n := length (filter (λ x, x = fw) tags)
           in if decide (n = 0) then None else Some n)
  ∧ map_fold (λ _ n acc, n + acc) 0 (by_framework (get_summary self))
    = length tags.
Proof.
  intros tags. unfold get_summary. simpl.
  rewrite summary_loop_frameworks. simpl. apply framework_loop_counts.
Qed.

Lemma sum_risk_scores_snoc (l : list Violation) (v : Violation) :
  sum_risk_scores (l ++ [v])
  = (sum_risk_scores l + default 0 (v_risk_score v))%R.
Proof. unfold sum_risk_scores. by rewrite foldl_app. Qed.

Lemma sum_risk_scores_bounds (lo hi : R) (l : list Violation) :
  Forall (λ v, (lo <= default 0 (v_risk_score v) <= hi)%R) l →
  (INR (length l) * lo <= sum_risk_scores l <= INR (length l) * hi)%R.
Proof.
  induction l as [| v l IH] using rev_ind; intros Hall.
  { unfold sum_risk_scores. simpl. lra. }
  apply Forall_app in Hall as [Hl Hv]. rewrite Forall_singleton in Hv.
  specialize (IH Hl). cbv beta in Hv.
  rewrite sum_risk_scores_snoc, length_app, plus_INR.
  change (INR (length [v])) with 1%R.
  destruct IH as [IHlo IHhi]. destruct Hv as [Hvlo Hvhi].
  rewrite !Rmult_plus_distr_r, !Rmult_1_l. lra.
Qed.

(** X6.  The average risk score of the summary is 0 for an engine without
    recorded violations (no division by zero); otherwise, when every
    recorded score lies between two integers, so does the average, rounding
    included. *)
Theorem X6_summary_average (self : Engine) :
  (detected_violations self = [] →
   average_risk_score (get_summary self) = 0%R)
  ∧ (∀ lo hi : Z,
       detected_violations self ≠ [] →
       Forall (λ v, (IZR lo <= default 0 (v_risk_score v) <= IZR hi)%R)
         (detected_violations self) →
       (IZR lo <= average_risk_score (get_summary self) <= IZR hi)%R).
Proof.
  split.
  - intros Hnil. unfold get_summary. rewrite Hnil. simpl.
    apply (round2_IZR 0).
  - intros lo hi Hne Hall. unfold get_summary. simpl.
    destruct (detected_violations self) as [| v l] eqn:Hl; [done |].
    change (Nat.ltb 0 (length (v :: l))) with true. cbv iota.
    pose proof (sum_risk_scores_bounds _ _ _ Hall) as [Hlo Hhi].
    assert (0 < INR (length (v :: l)))%R as Hpos
      by (apply lt_0_INR; simpl; lia).
    set (n := INR (length (v :: l))) in *.
    set (s := sum_risk_scores (v :: l)) in *.
    assert (IZR lo <= s / n <= IZR hi)%R as [Hlo' Hhi'].
    { split.
      - apply Rmult_le_reg_r with n; [done |].
        unfold Rdiv. rewrite Rmult_assoc, Rinv_l by lra. lra.
      - apply Rmult_le_reg_r with n; [done |].
        unfold Rdiv. rewrite Rmult_assoc, Rinv_l by lra. lra. }
    split.
    + rewrite <- (round2_IZR lo). by apply round2_le.
    + rewrite <- (round2_IZR hi). by apply round2_le.
Qed.

Lemma filter_all {A} (P : A → Prop) `{!∀ x, Decision (P x)} (l : list A) :
  Forall P l → filter P l = l.
Proof.
  induction 1 as [| x l Hx _ IH]; [done |].
  by rewrite filter_cons_True, IH.
Qed.

(** One stage of [filter_violations]. *)
Lemma filter_stage {A} (b : bool) (P : A → Prop) `{!∀ x, Decision (P x)}
    (l : list A) :
  (if b then filter P l else l) `sublist_of` l
  ∧ ∀ x, x ∈ (if b then filter P l else l) ↔ x ∈ l ∧ (b = true → P x).
Proof.
  destruct b.
  - split; [apply sublist_filter |]. intros x. rewrite list_elem_of_filter.
    split; [intros [HP Hx]; auto | intros [Hx HP]; auto].
  - split; [done |]. intros x. split; [intros Hx; split; [done | discriminate] | tauto].
Qed.

(** X7.  [filter_violations] returns recorded violations only, in their
    recorded order, and a recorded violation is returned exactly when it
    meets every criterion that was given: a criterion that is [None] or the
    empty string is ignored, whereas a minimal risk score of 0 is applied
    (it is compared with [None] only). *)
Theorem X7_filter_violations (self : Engine)
    (severity category rule_type status : option string)
    (min_risk_score : option R) :
  let result :=
    filter_violations self severity category rule_type status min_risk_score in
  result `sublist_of` detected_violations self
  ∧ ∀ v, v ∈ result
         ↔ v ∈ detected_violations self
           ∧ (truthy_str severity = true → v_severity v = severity)
           ∧ (truthy_str category = true → v_category v = category)
           ∧ (truthy_str rule_type = true → v_rule_type v = rule_type)
           ∧ (truthy_str status = true → Some (v_status v) = status)
           ∧ (∀ m, min_risk_score = Some m →
                (m <= default 0 (v_risk_score v))%R).
Proof.
  unfold filter_violations.
  set (l0 := detected_violations self).
  destruct (filter_stage (truthy_str severity)
              (λ v, v_severity v = severity) l0) as [S1 M1].
  set (l1 := if truthy_str severity then _ else _) in *.
  destruct (filter_stage (truthy_str category)
              (λ v, v_category v = category) l1) as [S2 M2].
  set (l2 := if truthy_str category then _ else _) in *.
  destruct (filter_stage (truthy_str rule_type)
              (λ v, v_rule_type v = rule_type) l2) as [S3 M3].
  set (l3 := if truthy_str rule_type then _ else _) in *.
  destruct (filter_stage (truthy_str status)
              (λ v, Some (v_status v) = status) l3) as [S4 M4].
  set (l4 := if truthy_str status then _ else _) in *.
  assert (l4 `sublist_of` l0) as S04 by (by repeat (etrans; [eassumption |])).
  assert (∀ v, v ∈ l4
               ↔ v ∈ l0
                 ∧ (truthy_str severity = true → v_severity v = severity)
                 ∧ (truthy_str category = true → v_category v = category)
                 ∧ (truthy_str rule_type = true → v_rule_type v = rule_type)
                 ∧ (truthy_str status = true → Some (v_status v) = status))
    as M04.
  { intros v. rewrite M4, M3, M2, M1. tauto. }
  simpl. destruct min_risk_score as [m |].
  - split; [etrans; [apply sublist_filter | exact S04] |].
    intros v. rewrite list_elem_of_filter, M04. split.
    + intros (Hm & Hrest). repeat split; try tauto. by intros m' [= <-].
    + intros (H0 & H1 & H2 & H3 & H4 & Hm). split; [by apply Hm | tauto].
  - split; [exact S04 |]. intros v. rewrite M04. split; [| tauto].
    intros (H0 & H1 & H2 & H3 & H4). repeat split; try tauto. done.
Qed.

End SummaryMoreFacts.

Section DetectMoreFacts.

Import ViolationEngine EngineReports.
Local Open Scope string_scope.
Local Open Scope list_scope.

Variable uuid4 : nat → string.
Variable utcnow : nat → string.

Lemma filter_none {A} (P : A → Prop) `{!∀ x, Decision (P x)} (l : list A) :
  Forall (λ x, ¬ P x) l → filter P l = [].
Proof.
  induction 1 as [| x l Hx _ IH]; [done |].
  by rewrite filter_cons_False, IH.
Qed.

Lemma categorize_not_Unknown (v : Violation) :
  _categorize_violation v ≠ "Unknown".
Proof.
  unfold _categorize_violation.
  destruct (v_rule_type v) as [t |]; [| done].
  destruct (known_type_cases t) as [Hknown | Hunknown].
  - apply list_elem_of_In in Hknown. simpl in Hknown.
    repeat destruct Hknown as [<- | Hknown]; done.
  - destruct Hunknown as (H1 & H2 & H3 & H4 & H5 & H6 & H7 & H8 & H9).
    assert (categories !! t = None) as ->; [| done].
    unfold categories.
    repeat (rewrite list_to_map_cons, lookup_insert_ne by congruence).
    apply lookup_empty.
Qed.

Lemma make_violation_complete (sr : ScanResult) (rm : gmap string Rule)
    (k : nat) (pv : PotentialViolation) :
  complete_violation (make_violation uuid4 utcnow sr rm k pv).
Proof.
  repeat split; simpl; try done.
  eexists. split; [reflexivity |]. apply risk_score_range.
Qed.

Lemma detect_complete (self : Engine) (sr : ScanResult) (rules : list Rule) :
  Forall complete_violation (detect uuid4 utcnow self sr rules).1.
Proof.
  rewrite detect_Permutation. unfold in_discovery_order.
  apply Forall_forall. intros v Hv.
  apply elem_of_lookup_imap in Hv as (k & pv & -> & _).
  apply make_violation_complete.
Qed.

(** X8.  [detect] appends exactly the violations it returns to the engine's
    record.  Each of them has status [open], a severity, a risk score in
    [25, 100], and the category and framework tags of its rule type.  So on
    a fresh engine, after [detect], filtering the record by status [open]
    or by a minimal risk score of 25 returns the whole result, and the
    summary holds no [Unknown] category. *)
Theorem X8_detect_output_complete (self : Engine) (sr : ScanResult)
    (rules : list Rule) :
  let violations := (detect uuid4 utcnow self sr rules).1 in
  let self' := (detect uuid4 utcnow self sr rules).2 in
  let fresh' := (detect uuid4 utcnow (mkEngine []) sr rules).2 in
  detected_violations self' = detected_violations self ++ violations
  ∧ Forall complete_violation violations
  ∧ filter_violations fresh' None None None (Some "open") None = violations
  ∧ filter_violations fresh' None None None None (Some 25%R) = violations
  ∧ by_category (get_summary fresh') !! "Unknown" = None.
Proof.
  intros violations self' fresh'.
  pose proof (detect_complete self sr rules) as Hall.
  assert (detected_violations fresh' = violations) as Hfresh by done.
  split; [done |]. split; [exact Hall |].
  assert (∀ P : Violation → Prop,
            (∀ v, complete_violation v → P v) → Forall P violations) as Hfor.
  { intros P HP. eapply Forall_impl; [exact Hall | exact HP]. }
  repeat split.
  - unfold filter_violations. simpl. fold violations. apply filter_all.
    apply Hfor. by intros v (-> & _).
  - unfold filter_violations. simpl. fold violations. apply filter_all.
    apply Hfor. intros v (_ & _ & (r & -> & Hr) & _). simpl. lra.
  - destruct (summary_loop_counts violations) as (_ & Hcat & _).
    unfold get_summary. simpl. fold violations. rewrite Hcat. simpl.
    rewrite filter_none; [done |].
    apply Hfor. intros v (_ & _ & _ & -> & _). simpl.
    apply categorize_not_Unknown.
Qed.

End DetectMoreFacts.

(** * Further properties of the scanner *)

Section MatcherMoreFacts.

Import DatabaseScanner.
Local Open Scope string_scope.
Local Open Scope list_scope.

Lemma entity_loop_elem_of (entities columns applicable : list string)
    (c : string) :
  c ∈ entity_loop entities columns applicable
  ↔ c ∈ applicable
    ∨ (c ∈ columns
       ∧ ∃ entity, entity ∈ entities
                   ∧ default entity (after_first_dot entity) = c).
Proof.
  revert applicable.
  induction entities as [| entity rest IH]; intros applicable; simpl.
  { split; [by left |]. intros [H | (_ & e & He & _)]; [done |].
    by apply not_elem_of_nil in He. }
  assert (∀ col,
            default entity (after_first_dot entity) = col →
            c ∈ (if str_in col columns
                 then entity_loop rest columns (applicable ++ [col])
                 else entity_loop rest columns applicable)
            ↔ c ∈ applicable
              ∨ (c ∈ columns
                 ∧ ∃ e, e ∈ entity :: rest
                        ∧ default e (after_first_dot e) = c)) as Hstep.
  { intros col Hcol. destruct (str_in col columns) eqn:Hin.
    - apply str_in_spec in Hin. rewrite IH, elem_of_app, list_elem_of_singleton.
      split.
      + intros [[H | ->] | (Hc & e & He & Hec)]; [by left | |].
        * right. split; [done |]. exists entity. split; [left | done].
        * right. split; [done |]. exists e. split; [by right | done].
      + intros [H | (Hc & e & He & Hec)]; [by left; left |].
        apply elem_of_cons in He as [-> | He].
        * left. right. congruence.
        * right. eauto.
    - rewrite IH. split.
      + intros [H | (Hc & e & He & Hec)]; [by left |].
        right. split; [done |]. exists e. split; [by right | done].
      + intros [H | (Hc & e & He & Hec)]; [by left |].
        apply elem_of_cons in He as [-> | He].
        * exfalso. rewrite Hcol in Hec. subst col.
          apply str_in_spec in Hc. congruence.
        * right. eauto. }
  destruct (after_first_dot entity) as [col |] eqn:Hdot; by apply Hstep.
Qed.

Lemma pattern_loop_elem_of (col col_lower : string)
    (patterns applicable : list string) (c : string) :
  c ∈ pattern_loop col col_lower patterns applicable
  ↔ c ∈ applicable
    ∨ (c = col ∧ ∃ p, p ∈ patterns ∧ contains p col_lower = true).
Proof.
  revert applicable.
  induction patterns as [| p rest IH]; intros applicable; simpl.
  { split; [by left |]. intros [H | (_ & p & Hp & _)]; [done |].
    by apply not_elem_of_nil in Hp. }
  destruct (contains p col_lower) eqn:Hp; simpl.
  - destruct (str_in col applicable) eqn:Hin; simpl; rewrite IH.
    + apply str_in_spec in Hin. split.
      * intros [H | (-> & q & Hq & Hc)]; [by left |].
        right. split; [done |]. exists q. split; [by right | done].
      * intros [H | (-> & _)]; by left.
    + rewrite elem_of_app, list_elem_of_singleton. split.
      * intros [[H | ->] | (-> & q & Hq & Hc)]; [by left | |].
        -- right. split; [done |]. exists p. split; [left | done].
        -- right. split; [done |]. exists q. split; [by right | done].
      * intros [H | (-> & _)]; [by left; left | by left; right].
  - rewrite IH. split.
    + intros [H | (-> & q & Hq & Hc)]; [by left |].
      right. split; [done |]. exists q. split; [by right | done].
    + intros [H | (-> & q & Hq & Hc)]; [by left |].
      apply elem_of_cons in Hq as [-> | Hq]; [congruence |]. right. eauto.
Qed.

Lemma column_loop_elem_of (columns patterns applicable : list string)
    (c : string) :
  c ∈ column_loop columns patterns applicable
  ↔ c ∈ applicable
    ∨ (c ∈ columns ∧ ∃ p, p ∈ patterns ∧ contains p (lower c) = true).
Proof.
  revert applicable.
  induction columns as [| col rest IH]; intros applicable; simpl.
  { split; [by left |]. intros [H | (Hc & _)]; [done |].
    by apply not_elem_of_nil in Hc. }
  rewrite IH, pattern_loop_elem_of. split.
  - intros [[H | (-> & Hp)] | (Hc & Hp)]; [by left | |].
    + right. split; [left | done].
    + right. split; [by right | done].
  - intros [H | (Hc & Hp)]; [by left; left |].
    apply elem_of_cons in Hc as [-> | Hc]; [left; right; done | right; done].
Qed.

(** X9.  A column is returned by the column matcher exactly when it is a
    column of the table and either an entity hint names it (the part after
    the first dot of a qualified hint, the whole hint otherwise, compared
    case-sensitively and whatever table the hint is qualified with) or its
    lower-cased name contains a keyword of the rule's type.  In particular
    only columns of the table are returned. *)
Theorem X9_matcher_membership (rule : Rule) (columns : list string)
    (c : string) :
  c ∈ _find_applicable_columns rule columns
  ↔ c ∈ columns
    ∧ ((∃ entity, entity ∈ r_entities rule
                  ∧ default entity (after_first_dot entity) = c)
       ∨ (∃ p, p ∈ default [] (sensitive_patterns
                                 !! default EmptyString (r_type rule))
               ∧ contains p (lower c) = true)).
Proof.
  unfold _find_applicable_columns.
  rewrite column_loop_elem_of, entity_loop_elem_of. split.
  - intros [[H | (Hc & He)] | (Hc & Hp)].
    + by apply not_elem_of_nil in H.
    + split; [done | by left].
    + split; [done | by right].
  - intros (Hc & [He | Hp]); [left; right; done | right; done].
Qed.

End MatcherMoreFacts.

Section SkipFacts.

Import DatabaseScanner.
Local Open Scope string_scope.
Local Open Scope list_scope.

Context {World : Type}.
Variable connector : DatabaseConnector World.
Variable checkers : CategoryCheckers World.

Lemma entity_loop_nil_columns (entities applicable : list string) :
  entity_loop entities [] applicable = applicable.
Proof.
  revert applicable. induction entities as [| e rest IH]; intros applicable;
    simpl; [done |].
  by destruct (after_first_dot e).
Qed.

Lemma scan_table_loop_all_skipped (table : string) (rules : list Rule)
    (columns : list string) (sample_size : Z)
    (violations : list PotentialViolation) (w : World) :
  Forall (λ rule,
            _check_rule_against_table connector checkers table rule columns
              sample_size w = (Returns [], w)) rules →
  scan_table_loop connector checkers table rules columns sample_size
    violations w = (Returns violations, w).
Proof.
  intros Hall. revert violations.
  induction Hall as [| rule rest Hrule _ IH]; intros violations; simpl;
    [done |].
  unfold mbind, Async_bind, bind. by rewrite Hrule, app_nil_r.
Qed.

(** X10.  A table whose columns are not known (its schema is missing, has
    no column list, or lists no column) gives the column matcher nothing to
    return; every rule without a raw predicate is then skipped on it: the
    table scan returns no entry and does not touch the backend, whatever
    the rules' types, also for an audit-logging rule. *)
Theorem X10_table_without_columns_skipped (table : string)
    (rules : list Rule) (schema : TableSchema) (sample_size : Z) (w : World) :
  default [] (ts_columns schema) = [] →
  Forall (λ rule, truthy_str (r_sql_condition rule) = false) rules →
  Forall (λ rule, _find_applicable_columns rule [] = []) rules
  ∧ _scan_table connector checkers table rules schema sample_size w
    = (Returns [], w).
Proof.
  intros Hcols Hsql.
  assert (∀ rule, _find_applicable_columns rule [] = []) as Hnone.
  { intros rule. unfold _find_applicable_columns. simpl.
    apply entity_loop_nil_columns. }
  split; [by apply Forall_forall |].
  unfold _scan_table. rewrite Hcols. simpl.
  apply scan_table_loop_all_skipped.
  eapply Forall_impl; [exact Hsql |].
  intros rule Hrule. simpl in Hrule.
  unfold _check_rule_against_table. by rewrite Hnone, Hrule.
Qed.

Lemma sensitive_patterns_None (rule_type : string) :
  str_in rule_type
    ["data_encryption"; "data_masking"; "consent"; "age_restriction";
     "geographic_restriction"] = false →
  sensitive_patterns !! rule_type = None.
Proof.
  intros Hnot.
  assert (∀ t, t ∈ ["data_encryption"; "data_masking"; "consent";
                    "age_restriction"; "geographic_restriction"] →
               t ≠ rule_type) as Hne.
  { intros t Ht ->. apply str_in_spec in Ht. congruence. }
  unfold sensitive_patterns. simpl.
  rewrite !lookup_insert_ne, lookup_empty; [done | ..];
    apply Hne, list_elem_of_In; simpl; tauto.
Qed.

(** X11.  The column matcher has keyword lists for five rule types only.
    For a rule of any other type (data retention, data access, audit
    logging, notification, a missing type, ...) it returns exactly the
    columns the entity hints name; when no hint names a column of the table
    and the rule has no raw predicate, the rule is skipped on that table:
    no checker runs and no entry is returned, whatever the table holds. *)
Theorem X11_types_without_keywords_need_a_hint (table : string) (rule : Rule)
    (columns : list string) (sample_size : Z) (w : World) :
  str_in (default EmptyString (r_type rule))
    ["data_encryption"; "data_masking"; "consent"; "age_restriction";
     "geographic_restriction"] = false →
  _find_applicable_columns rule columns
  = entity_loop (r_entities rule) columns []
  ∧ (Forall (λ entity, default entity (after_first_dot entity) ∉ columns)
       (r_entities rule) →
     truthy_str (r_sql_condition rule) = false →
     _check_rule_against_table connector checkers table rule columns
       sample_size w = (Returns [], w)).
Proof.
  intros Htype.
  assert (_find_applicable_columns rule columns
          = entity_loop (r_entities rule) columns []) as Heq.
  { unfold _find_applicable_columns.
    rewrite (sensitive_patterns_None _ Htype). simpl.
    generalize (entity_loop (r_entities rule) columns []).
    induction columns as [| col rest IH]; intros applicable; simpl; [done |].
    apply IH. }
  split; [exact Heq |].
  intros Hhints Hsql.
  assert (entity_loop (r_entities rule) columns [] = []) as Hnone.
  { destruct (entity_loop (r_entities rule) columns []) as [| c l] eqn:Hloop;
      [done |].
    assert (c ∈ entity_loop (r_entities rule) columns []) as Hc
      by (rewrite Hloop; left).
    apply entity_loop_elem_of in Hc as [Hc | (Hc & e & He & Hec)].
    - by apply not_elem_of_nil in Hc.
    - rewrite Forall_forall in Hhints. specialize (Hhints e He).
      rewrite Hec in Hhints. done. }
  unfold _check_rule_against_table. by rewrite Heq, Hnone, Hsql.
Qed.

End SkipFacts.

Section SkipExamples.

Import DatabaseScanner.
Local Open Scope string_scope.
Local Open Scope list_scope.

(** A table without a column list is skipped by an audit-logging rule and
    by an access rule, although the checkers themselves, asked about a
    table without columns, would report missing audit columns. *)
Lemma X10_witness :
  _scan_table (MoreSamples.sql_backend []) Samples.failing_checkers "users"
    [MoreSamples.audit_rule; MoreSamples.access_rule] (mkTableSchema None)
    1000 0
  = (Returns [], 0)
  ∧ (Checkers._check_audit_logging "users" MoreSamples.audit_rule [] 0).1
    = Returns [Checkers.audit_hit "users" MoreSamples.audit_rule].
Proof.
  split; [| reflexivity].
  apply (X10_table_without_columns_skipped (MoreSamples.sql_backend [])
           Samples.failing_checkers "users"
           [MoreSamples.audit_rule; MoreSamples.access_rule]
           (mkTableSchema None) 1000 0).
  - reflexivity.
  - repeat constructor.
Defined.

(** An access rule without hints is skipped on a table with a password
    column, which the access checker would have reported. *)
Lemma X11_witness :
  _check_rule_against_table (MoreSamples.sql_backend [])
    (Checkers.scanner_checkers (MoreSamples.sql_backend [])
       MoreSamples.sample_int MoreSamples.no_retention_keys)
    "users" MoreSamples.access_rule ["id"; "password"] 1000 0
  = (Returns [], 0)
  ∧ (Checkers._check_data_access "users" MoreSamples.access_rule
       ["id"; "password"] 0).1
    = Returns [Checkers.access_hit "users" MoreSamples.access_rule
                 ["password"]].
Proof.
  split; [| reflexivity].
  refine (proj2 (X11_types_without_keywords_need_a_hint
                   (MoreSamples.sql_backend [])
                   (Checkers.scanner_checkers (MoreSamples.sql_backend [])
                      MoreSamples.sample_int MoreSamples.no_retention_keys)
                   "users" MoreSamples.access_rule ["id"; "password"] 1000 0
                   _) _ _).
  - reflexivity.
  - constructor.
  - reflexivity.
Defined.

End SkipExamples.

(** ** The checkers that only read the column names *)

Section PureCheckerFacts.

Import DatabaseScanner Checkers.
Local Open Scope string_scope.
Local Open Scope list_scope.

Context {World : Type}.

Lemma name_matches_spec (keywords : list string) (c : string) :
  name_matches keywords c = true
  ↔ ∃ k, k ∈ keywords ∧ contains k (lower c) = true.
Proof.
  unfold name_matches. rewrite existsb_exists. split.
  - intros (k & Hk & Hc). exists k. by rewrite list_elem_of_In.
  - intros (k & Hk & Hc). exists k. by rewrite <- list_elem_of_In.
Qed.

Lemma name_matches_false (keywords : list string) (c : string) :
  name_matches keywords c = false
  ↔ ∀ k, k ∈ keywords → contains k (lower c) = false.
Proof.
  rewrite <- not_true_iff_false, name_matches_spec. split.
  - intros Hno k Hk. apply not_true_iff_false. intros Hc. apply Hno. eauto.
  - intros Hall (k & Hk & Hc). rewrite (Hall k Hk) in Hc. discriminate.
Qed.

(** X12.  The access checker never queries the backend and never raises.
    It returns at most one entry per table: none when no column name
    contains, in any letter case, one of [password], [secret], [token],
    [key], [ssn], [credit]; otherwise one entry that lists exactly the
    columns that do, in table order, is marked for review and carries no
    hit count. *)
Theorem X12_access_checker (table : string) (rule : Rule)
    (columns : list string) (w : World) :
  ∃ hits : list PotentialViolation,
    _check_data_access table rule columns w = (Returns hits, w)
    ∧ (length hits ≤ 1)%nat
    ∧ (hits = []
       ↔ ∀ c k, c ∈ columns → k ∈ access_keywords →
                contains k (lower c) = false)
    ∧ ∀ pv, pv ∈ hits →
        pv_type pv = Some "data_access"
        ∧ pv_table pv = Some table
        ∧ pv_rule_id pv = r_id rule
        ∧ pv_requires_review pv = Some true
        ∧ pv_violation_count pv = None
        ∧ ∃ cols, pv_columns pv = Some cols
                  ∧ cols ≠ []
                  ∧ cols `sublist_of` columns
                  ∧ ∀ c, c ∈ cols
                         ↔ c ∈ columns
                           ∧ ∃ k, k ∈ access_keywords
                                  ∧ contains k (lower c) = true.
Proof.
  unfold _check_data_access.
  set (P := λ c : string, name_matches access_keywords c).
  assert (∀ c, c ∈ filter P columns
               ↔ c ∈ columns
                 ∧ ∃ k, k ∈ access_keywords ∧ contains k (lower c) = true)
    as Hmem.
  { intros c. rewrite list_elem_of_filter. unfold P.
    rewrite Is_true_true, name_matches_spec. tauto. }
  destruct (filter P columns) as [| c0 cols] eqn:Hcols; simpl.
  - exists []. split; [done |]. split; [simpl; lia |]. split.
    + split; [| done]. intros _ c k Hc Hk.
      apply not_true_iff_false. intros Hck.
      assert (c ∈ @nil string) as Hin by (apply Hmem; eauto).
      by apply not_elem_of_nil in Hin.
    + intros pv Hpv. by apply not_elem_of_nil in Hpv.
  - eexists. split; [reflexivity |]. split; [simpl; lia |]. split.
    + split; [done |]. intros Hnone. exfalso.
      assert (c0 ∈ c0 :: cols) as Hin by left.
      apply Hmem in Hin as (Hc & k & Hk & Hck).
      rewrite (Hnone c0 k Hc Hk) in Hck. discriminate.
    + intros pv Hpv. apply list_elem_of_singleton in Hpv as ->. simpl.
      repeat split. exists (c0 :: cols). split; [done |]. split; [done |].
      split; [| exact Hmem].
      rewrite <- Hcols. apply sublist_filter.
Qed.

(** X13.  The audit-logging checker never queries the backend and never
    raises.  It returns one entry, marked for review and without a hit
    count, exactly when no column name contains, in any letter case, one of
    the six audit names; one such column anywhere in the table silences it,
    and a table without columns is always reported. *)
Theorem X13_audit_checker (table : string) (rule : Rule)
    (columns : list string) (w : World) :
  (_check_audit_logging table rule columns w
   = (Returns [audit_hit table rule], w)
   ∨ _check_audit_logging table rule columns w = (Returns [], w))
  ∧ (_check_audit_logging table rule columns w
     = (Returns [audit_hit table rule], w)
     ↔ ∀ c a, c ∈ columns → a ∈ audit_cols → contains a (lower c) = false)
  ∧ (∀ c a more, a ∈ audit_cols → contains a (lower c) = true →
       _check_audit_logging table rule (columns ++ c :: more) w
       = (Returns [], w))
  ∧ _check_audit_logging table rule [] w = (Returns [audit_hit table rule], w)
  ∧ pv_requires_review (audit_hit table rule) = Some true
  ∧ pv_violation_count (audit_hit table rule) = None
  ∧ pv_table (audit_hit table rule) = Some table
  ∧ pv_rule_id (audit_hit table rule) = r_id rule.
Proof.
  assert (∀ cols,
            existsb (name_matches audit_cols) cols = false
            ↔ ∀ c a, c ∈ cols → a ∈ audit_cols →
                     contains a (lower c) = false) as Hnone.
  { intros cols. rewrite <- not_true_iff_false, existsb_exists. split.
    - intros Hno c a Hc Ha. apply not_true_iff_false. intros Hca.
      apply Hno. exists c. split; [by apply list_elem_of_In |].
      apply name_matches_spec. eauto.
    - intros Hall (c & Hc & Hm). apply list_elem_of_In in Hc.
      apply name_matches_spec in Hm as (a & Ha & Hca).
      rewrite (Hall c a Hc Ha) in Hca. discriminate. }
  unfold _check_audit_logging.
  split; [| split; [| split; [| done]]].
  - destruct (existsb _ columns); simpl; auto.
  - rewrite <- Hnone. destruct (existsb _ columns); simpl; split;
      intros H; first [done | discriminate H | by inversion H].
  - intros c a more Ha Hca.
    assert (existsb (name_matches audit_cols) (columns ++ c :: more) = true)
      as ->; [| done].
    apply existsb_exists. exists c. split.
    + apply in_or_app. right. by left.
    + apply name_matches_spec. eauto.
Qed.

End PureCheckerFacts.

(** ** The checkers that sample the columns *)

Section LoopFacts.

Import DatabaseScanner Checkers.
Local Open Scope list_scope.

Context {World A B : Type}.

(** A loop whose body returns its list as it is or with one entry more
    returns, and the entries it adds belong to a sub-list of the items, in
    their order. *)
Lemma for_each_appends (body : A → list B → Async World (list B))
    (P : A → B → Prop) (l : list A) :
  (∀ x s w, x ∈ l →
     ∃ w', body x s w = (Returns s, w')
           ∨ ∃ h, P x h ∧ body x s w = (Returns (s ++ [h]), w')) →
  ∀ s w, ∃ hs xs w',
    for_each body l s w = (Returns (s ++ hs), w')
    ∧ xs `sublist_of` l
    ∧ Forall2 P xs hs.
Proof.
  induction l as [| x rest IH]; intros Hbody s w; simpl.
  - exists [], [], w. rewrite app_nil_r. by repeat split.
  - unfold mbind, Async_bind, bind.
    assert (∀ x' s' w'', x' ∈ rest →
              ∃ w', body x' s' w'' = (Returns s', w')
                    ∨ ∃ h, P x' h
                           ∧ body x' s' w'' = (Returns (s' ++ [h]), w'))
      as Hrest by (intros; apply Hbody; by right).
    destruct (Hbody x s w) as (w1 & [-> | (h & Hh & ->)]); [left | |].
    + destruct (IH Hrest s w1) as (hs & xs & w' & -> & Hsub & Hall).
      exists hs, xs, w'. split; [done |]. split; [by apply sublist_cons |].
      done.
    + destruct (IH Hrest (s ++ [h]) w1) as (hs & xs & w' & -> & Hsub & Hall).
      exists (h :: hs), (x :: xs), w'.
      split; [by rewrite <- app_assoc |].
      split; [by apply sublist_skip |]. by constructor.
Qed.


Lemma Forall2_fmap_eq (f : A → B) (Q : A → Prop) (xs : list A)
    (hs : list B) :
  Forall2 (λ x h, h = f x ∧ Q x) xs hs → hs = f <$> xs ∧ Forall Q xs.
Proof.
  induction 1 as [| x h xs hs [-> HQ] _ [-> IH]]; [done |].
  split; [done | by constructor].
Qed.

End LoopFacts.

Section SamplingCheckerFacts.

Import DatabaseScanner Checkers.
Local Open Scope string_scope.
Local Open Scope list_scope.

Context {World : Type}.
Variable connector : DatabaseConnector World.

Lemma is_unmasked_spec (col value : string) :
  is_unmasked col value = true
  ↔ (contains "email" (lower col) = true
     ∧ contains "@" value = true
     ∧ String.prefix "***" value = false)
    ∨ (contains "phone" (lower col) = true
       ∧ (10 ≤ String.length
                 (remove_char " "%char (remove_char "-"%char value)))%nat).
Proof.
  assert (is_unmasked col value
          = (contains "email" (lower col) && contains "@" value
             && negb (String.prefix "***" value))
            || (contains "phone" (lower col)
                && Nat.leb 10
                     (String.length
                        (remove_char " "%char (remove_char "-"%char value)))))
    as ->.
  { unfold is_unmasked.
    destruct (contains "email" _), (contains "@" _), (String.prefix _ _),
      (contains "phone" _), (Nat.leb _ _); reflexivity. }
  rewrite orb_true_iff, !andb_true_iff, negb_true_iff, Nat.leb_le. tauto.
Qed.

Lemma masking_rows_spec (table : string) (rule : Rule) (col : string)
    (result : list Row) (violations : list PotentialViolation) :
  (masking_rows table rule col result violations).2 = violations
  ∨ ((masking_rows table rule col result violations).2
     = violations ++ [masking_hit table rule col]
     ∧ ∃ row v, row ∈ result ∧ row !! col = Some v
                ∧ is_unmasked col (str v) = true).
Proof.
  induction result as [| row rest IH]; simpl; [by left |].
  destruct (row !! col) as [v |] eqn:Hrow; simpl; [| by left].
  destruct (is_unmasked col (str v)) eqn:Hv; simpl.
  - right. split; [done |]. exists row, v. split; [left | done].
  - destruct IH as [IH | (IH & row' & v' & Hin & Hrest)]; [by left |].
    right. split; [done |]. exists row', v'. split; [by right | done].
Qed.

Lemma masking_column_spec (table : string) (rule : Rule) (col : string)
    (violations : list PotentialViolation) (w : World) :
  ∃ w', masking_column connector table rule col violations w
        = (Returns violations, w')
        ∨ ∃ h, (h = masking_hit table rule col
                ∧ (contains "email" (lower col) = true
                   ∨ contains "phone" (lower col) = true))
               ∧ masking_column connector table rule col violations w
                 = (Returns (violations ++ [h]), w').
Proof.
  unfold masking_column.
  destruct (execute_query connector _ w) as [[result | e] w']; exists w';
    [| by left].
  destruct (truthy_list result); [| by left].
  destruct (masking_rows_spec table rule col result violations)
    as [Heq | (Heq & row & v & _ & _ & Hv)].
  - left. destruct (masking_rows _ _ _ _ _) as [[[] | e] vs]; simpl in Heq;
      by rewrite Heq.
  - right. exists (masking_hit table rule col). split.
    + split; [done |]. apply is_unmasked_spec in Hv. tauto.
    + destruct (masking_rows _ _ _ _ _) as [[[] | e] vs]; simpl in Heq;
        by rewrite Heq.
Qed.

(** X14.  The masking checker never raises, whatever the backend does.
    It returns at most one entry per checked column, in the order of the
    columns, and only for columns whose lower-cased name contains [email]
    or [phone]: the columns selected by the other masking keywords ([ssn],
    [credit_card], [account], [address]) are never reported.  No entry
    carries a hit count. *)
Theorem X14_masking_checker (table : string) (rule : Rule)
    (columns : list string) (sample_size : Z) (w : World) :
  ∃ (flagged : list string) (w' : World),
    _check_data_masking connector table rule columns sample_size w
    = (Returns (masking_hit table rule <$> flagged), w')
    ∧ flagged `sublist_of` columns
    ∧ Forall (λ col, contains "email" (lower col) = true
                     ∨ contains "phone" (lower col) = true) flagged
    ∧ Forall (λ pv, pv_violation_count pv = None
                    ∧ pv_type pv = Some "data_masking")
        (masking_hit table rule <$> flagged).
Proof.
  unfold _check_data_masking.
  destruct (for_each_appends (masking_column connector table rule)
              (λ col h, h = masking_hit table rule col
                        ∧ (contains "email" (lower col) = true
                           ∨ contains "phone" (lower col) = true))
              columns
              (λ x s w0 _, masking_column_spec table rule x s w0) [] w)
    as (hs & xs & w' & Hrun & Hsub & Hall).
  apply Forall2_fmap_eq in Hall as [-> Hall].
  exists xs, w'. split; [exact Hrun |]. split; [done |]. split; [done |].
  apply Forall_fmap, Forall_forall. by intros col _.
Qed.


Lemma encryption_rows_spec (table : string) (rule : Rule) (col : string)
    (result : list Row) (violations : list PotentialViolation) :
  (encryption_rows table rule col result violations).2 = violations
  ∨ ((encryption_rows table rule col result violations).2
     = violations ++ [encryption_hit table rule col]
     ∧ ∃ row v, row ∈ result ∧ row !! col = Some v
                ∧ is_plaintext col (str v) = true).
Proof.
  induction result as [| row rest IH]; simpl; [by left |].
  destruct (row !! col) as [v |] eqn:Hrow; simpl; [| by left].
  destruct (is_plaintext col (str v)) eqn:Hv; simpl.
  - right. split; [done |]. exists row, v. split; [left | done].
  - destruct IH as [IH | (IH & row' & v' & Hin & Hrest)]; [by left |].
    right. split; [done |]. exists row', v'. split; [by right | done].
Qed.

Lemma encryption_column_spec (table : string) (rule : Rule) (col : string)
    (violations : list PotentialViolation) (w : World) :
  ∃ w', encryption_column connector table rule col violations w
        = (Returns violations, w')
        ∨ ∃ h, (h = encryption_hit table rule col
                ∧ (contains "ssn" (lower col) = true
                   ∨ contains "credit" (lower col) = true
                   ∨ contains "password" (lower col) = true))
               ∧ encryption_column connector table rule col violations w
                 = (Returns (violations ++ [h]), w').
Proof.
  unfold encryption_column.
  destruct (execute_query connector _ w) as [[result | e] w']; exists w';
    [| by left].
  destruct (truthy_list result); [| by left].
  destruct (encryption_rows_spec table rule col result violations)
    as [Heq | (Heq & row & v & _ & _ & Hv)].
  - left. destruct (encryption_rows _ _ _ _ _) as [[[] | e] vs];
      simpl in Heq; by rewrite Heq.
  - right. exists (encryption_hit table rule col). split.
    + split; [done |]. apply is_plaintext_spec in Hv. tauto.
    + destruct (encryption_rows _ _ _ _ _) as [[[] | e] vs]; simpl in Heq;
        by rewrite Heq.
Qed.

Lemma encryption_columns_appends (table : string) (rule : Rule)
    (columns : list string) (violations : list PotentialViolation)
    (w : World) :
  encryption_columns connector table rule columns violations w
  = for_each (encryption_column connector table rule) columns violations w.
Proof.
  revert violations w. induction columns as [| col rest IH];
    intros violations w; simpl; [done |].
  unfold mbind, Async_bind, bind.
  destruct (encryption_column connector table rule col violations w)
    as [[vs | e] w']; [apply IH | done].
Qed.

(** X16.  The encryption checker never raises, returns at most one entry
    per checked column, in the order of the columns, and only for columns
    whose lower-cased name contains [ssn], [credit] or [password]: the
    columns selected by the other encryption keywords ([account_number],
    [secret], [token], [key]) are never reported.  No entry carries a hit
    count. *)
Theorem X16_encryption_checker_columns (table : string) (rule : Rule)
    (columns : list string) (w : World) :
  ∃ (flagged : list string) (w' : World),
    _check_data_encryption connector table rule columns w
    = (Returns (encryption_hit table rule <$> flagged), w')
    ∧ flagged `sublist_of` columns
    ∧ Forall (λ col, contains "ssn" (lower col) = true
                     ∨ contains "credit" (lower col) = true
                     ∨ contains "password" (lower col) = true) flagged
    ∧ Forall (λ pv, pv_violation_count pv = None
                    ∧ pv_type pv = Some "data_encryption")
        (encryption_hit table rule <$> flagged).
Proof.
  unfold _check_data_encryption. rewrite encryption_columns_appends.
  destruct (for_each_appends (encryption_column connector table rule)
              (λ col h, h = encryption_hit table rule col
                        ∧ (contains "ssn" (lower col) = true
                           ∨ contains "credit" (lower col) = true
                           ∨ contains "password" (lower col) = true))
              columns
              (λ x s w0 _, encryption_column_spec table rule x s w0) [] w)
    as (hs & xs & w' & Hrun & Hsub & Hall).
  apply Forall2_fmap_eq in Hall as [-> Hall].
  exists xs, w'. split; [exact Hrun |]. split; [done |]. split; [done |].
  apply Forall_fmap, Forall_forall. by intros col _.
Qed.

End SamplingCheckerFacts.

(** ** The checkers that count rows *)

Section CountingCheckerFacts.

Import DatabaseScanner Checkers.
Local Open Scope string_scope.
Local Open Scope list_scope.

Context {World : Type}.
Variable connector : DatabaseConnector World.
Variable py_int : string → outcome Z.

Lemma positive_count_Some (result : list Row) (count : Z) :
  positive_count result = Returns (Some count)
  ↔ ∃ row rest, result = row :: rest
                ∧ row !! "count" = Some (VInt count) ∧ (0 < count)%Z.
Proof.
  unfold positive_count. split.
  - destruct result as [| row rest]; [discriminate |].
    destruct (row !! "count") as [[s | z |] |] eqn:Hrow; try discriminate.
    destruct (Z.ltb_spec 0 z); [| discriminate].
    intros [= <-]. by exists row, rest.
  - intros (row & rest & -> & -> & Hpos).
    by destruct (Z.ltb_spec 0 count); [| lia].
Qed.

(** X17.  The generic checker of raw predicates never raises.  For a rule
    without a predicate (missing, null or empty) it returns nothing and
    does not touch the backend.  Otherwise it sends exactly one query, the
    count of the table's rows that satisfy the predicate, and returns one
    entry exactly when the answer has a first row whose [count] is an
    integer above zero; the entry carries that count and the predicate.  A
    refused query, an empty answer, an answer without [count] or with a
    count that is not an integer all give no entry. *)
Theorem X17_sql_condition_checker (table : string) (rule : Rule)
    (sample_size : Z) (w : World) :
  (truthy_str (r_sql_condition rule) = false →
   _check_sql_condition connector table rule sample_size w = (Returns [], w))
  ∧ (truthy_str (r_sql_condition rule) = true →
     let sql_condition := default EmptyString (r_sql_condition rule) in
     let answer :=
       execute_query connector (sql_condition_query table sql_condition) w in
     ∃ hits : list SqlHit,
       _check_sql_condition connector table rule sample_size w
       = (Returns hits, answer.2)
       ∧ (length hits ≤ 1)%nat
       ∧ ∀ h, h ∈ hits
              ↔ ∃ row rest count,
                  answer.1 = Returns (row :: rest)
                  ∧ row !! "count" = Some (VInt count)
                  ∧ (0 < count)%Z
                  ∧ h = sql_condition_hit table rule sql_condition count).
Proof.
  split.
  - intros Hsql. unfold _check_sql_condition. by rewrite Hsql.
  - intros Hsql sql_condition answer.
    unfold _check_sql_condition. rewrite Hsql. simpl.
    unfold try_except, mbind, Async_bind, bind.
    fold sql_condition. fold answer.
    destruct answer as [[result | e] w'] eqn:Hanswer; simpl.
    + destruct (positive_count result) as [[count |] | e] eqn:Hcount; simpl.
      * eexists. split; [reflexivity |]. split; [simpl; lia |].
        apply positive_count_Some in Hcount as (row & rest & -> & Hrow & Hpos).
        intros h. rewrite list_elem_of_singleton. split.
        -- intros ->. by exists row, rest, count.
        -- intros (row' & rest' & count' & [= <- <-] & Hrow' & _ & ->).
           congruence.
      * exists []. split; [reflexivity |]. split; [simpl; lia |].
        intros h. split; [intros Hh; by apply not_elem_of_nil in Hh |].
        intros (row & rest & count & [= ->] & Hrow & Hpos & _).
        assert (positive_count (row :: rest) = Returns (Some count)) as Hc
          by (apply positive_count_Some; eauto).
        congruence.
      * exists []. split; [reflexivity |]. split; [simpl; lia |].
        intros h. split; [intros Hh; by apply not_elem_of_nil in Hh |].
        intros (row & rest & count & [= ->] & Hrow & Hpos & _).
        assert (positive_count (row :: rest) = Returns (Some count)) as Hc
          by (apply positive_count_Some; eauto).
        congruence.
    + exists []. split; [reflexivity |]. split; [simpl; lia |].
      intros h. split; [intros Hh; by apply not_elem_of_nil in Hh |].
      by intros (row & rest & count & Hret & _).
Qed.

(** *** The geographic checker *)

Lemma geographic_column_spec (table : string) (rule : Rule) (col : string)
    (violations : list GeoHit) (w : World) :
  ∃ w', geographic_column connector table rule col violations w
        = (Returns violations, w')
        ∨ ∃ h, (∃ values, h = geographic_hit table rule col values)
               ∧ geographic_column connector table rule col violations w
                 = (Returns (violations ++ [h]), w').
Proof.
  unfold geographic_column, try_except, mbind, Async_bind, bind.
  destruct (execute_query connector _ w) as [[values | e] w']; exists w';
    [| by left].
  destruct (truthy_list values); [| by left].
  destruct (column_values col values) as [unique_values | e]; [| by left].
  right. eexists. split; [by eexists |]. done.
Qed.

Lemma check_geographic_restriction_loop (table : string) (rule : Rule)
    (columns : list string) (sample_size : Z) (w : World) :
  _check_geographic_restriction connector table rule columns sample_size w
  = for_each (geographic_column connector table rule)
      (filter (λ c, name_matches geo_keywords c) columns) [] w.
Proof.
  unfold _check_geographic_restriction.
  by destruct (filter _ columns).
Qed.



(** *** The retention checker *)

Lemma retention_column_spec (table : string) (rule : Rule)
    (retention_days : Z) (date_col : string)
    (violations : list PotentialViolation) (w : World) :
  ∃ w', retention_column connector table rule retention_days date_col
          violations w = (Returns violations, w')
        ∨ ∃ h, (∃ count, (0 < count)%Z
                         ∧ h = retention_hit table rule date_col count
                                 retention_days)
               ∧ retention_column connector table rule retention_days
                   date_col violations w
                 = (Returns (violations ++ [h]), w').
Proof.
  unfold retention_column, try_except, mbind, Async_bind, bind.
  destruct (is_sql connector); [| exists w; by left].
  destruct (execute_query connector (retention_query _ _ _) w)
    as [[result | e] w1].
  - exists w1.
    destruct (positive_count result) as [[count |] | e] eqn:Hc;
      [| by left | by left].
    right. eexists. split; [| reflexivity]. exists count. split; [| done].
    by apply positive_count_Some in Hc as (? & ? & _ & _ & ?).
  - destruct (execute_query connector (retention_query_sqlite _ _ _) w1)
      as [[result | e'] w2]; exists w2; [| by left].
    destruct (positive_count result) as [[count |] | e'] eqn:Hc;
      [| by left | by left].
    right. eexists. split; [| reflexivity]. exists count. split; [| done].
    by apply positive_count_Some in Hc as (? & ? & _ & _ & ?).
Qed.

End CountingCheckerFacts.

Section RetentionAgeFacts.

Import DatabaseScanner Checkers.
Local Open Scope string_scope.
Local Open Scope list_scope.

Context {World : Type}.
Variable connector : DatabaseConnector World.
Variable py_int : string → outcome Z.





(** X20.  The second dialect of the retention query.  When an SQL backend
    refuses the first retention query (written with [INTERVAL]), the checker
    sends the same question in the syntax with [date('now', ...)]: a
    positive count in its answer gives the entry for the column; when the
    second query is refused as well, the column is passed over and the
    checker goes on. *)
Theorem X20_retention_second_dialect (table : string) (rule : Rule)
    (retention_days : Z) (date_col : string)
    (violations : list PotentialViolation) (w w1 : World) (e : PyException) :
  is_sql connector = true →
  execute_query connector (retention_query table date_col retention_days) w
  = (Raises e, w1) →
  let second :=
    execute_query connector
      (retention_query_sqlite table date_col retention_days) w1 in
  (∀ row rest count,
     second.1 = Returns (row :: rest) →
     row !! "count" = Some (VInt count) →
     (0 < count)%Z →
     retention_column connector table rule retention_days date_col
       violations w
     = (Returns (violations
                 ++ [retention_hit table rule date_col count retention_days]),
        second.2))
  ∧ (∀ e', second.1 = Raises e' →
           retention_column connector table rule retention_days date_col
             violations w = (Returns violations, second.2)).
Proof.
  intros Hsql Hfirst second.
  unfold retention_column, try_except, mbind, Async_bind, bind.
  rewrite Hsql, Hfirst. fold second.
  destruct second as [o w2]; simpl. split.
  - intros row rest count -> Hrow Hpos.
    assert (positive_count (row :: rest) = Returns (Some count)) as ->
      by (apply positive_count_Some; eauto).
    done.
  - by intros e' ->.
Qed.

(** *** The age checker *)

Lemma age_column_spec (table : string) (rule : Rule) (min_age : Z)
    (col : string) (violations : list PotentialViolation) (w : World) :
  ∃ w', age_column connector table rule min_age col violations w
        = (Returns violations, w')
        ∨ ∃ h, (∃ count, (0 < count)%Z
                         ∧ h = age_hit table rule col count min_age)
               ∧ age_column connector table rule min_age col violations w
                 = (Returns (violations ++ [h]), w').
Proof.
  unfold age_column, try_except.
  destruct (is_sql connector); [| exists w; by left].
  destruct (execute_query connector _ w) as [[result | e] w1]; exists w1;
    [| by left].
  destruct (positive_count result) as [[count |] | e] eqn:Hc;
    [| by left | by left].
  right. eexists. split; [| reflexivity]. exists count. split; [| done].
  by apply positive_count_Some in Hc as (? & ? & _ & _ & ?).
Qed.


End RetentionAgeFacts.

Section MinimumAgeFacts.

Import DatabaseScanner Checkers.
Local Open Scope string_scope.
Local Open Scope list_scope.

Lemma take_digits_spec (s : string) :
  s = (take_digits s).1 +:+ (take_digits s).2
  ∧ all_digits (take_digits s).1 = true.
Proof.
  induction s as [| c s [IH1 IH2]]; simpl; [done |].
  destruct (is_digit_ascii c) eqn:Hc; simpl; [| done].
  destruct (take_digits s) as [ds rest]; simpl in *.
  split; [| by rewrite Hc].
  change (String c s = String c (ds +:+ rest)). by f_equal.
Qed.

Lemma digit_not_year (a : ascii) (s : string) :
  is_digit_ascii a = true →
  String.prefix "year" (lower (drop_spaces (String a s))) = false.
Proof.
  destruct a as [[] [] [] [] [] [] [] []]; try discriminate; intros _;
    reflexivity.
Qed.

Lemma take_digits_app (digits post : string) :
  all_digits digits = true →
  String.prefix "year" (lower (drop_spaces post)) = true →
  take_digits (digits +:+ post) = (digits, post).
Proof.
  intros Hd Hyear. induction digits as [| c ds IH]; simpl.
  - destruct post as [| a p]; [done |]. simpl.
    destruct (is_digit_ascii a) eqn:Ha; [| done].
    rewrite (digit_not_year a p Ha) in Hyear. discriminate.
  - simpl in Hd. apply andb_true_iff in Hd as [-> Hd]. by rewrite (IH Hd).
Qed.

(** X22.  How the age checker reads the minimum age off the rule text.
    What it finds is a non-empty run of decimal digits of the text that is
    followed, after optional white space, by [year] in any letter case.  A
    text whose first digits are such a number gives that whole number; a
    text without a digit gives nothing, and the minimum age stays 18. *)
Theorem X22_minimum_age_pattern (text : string) :
  (∀ digits,
     search_years text = Some digits →
     isdigit digits = true
     ∧ ∃ pre post,
         text = pre +:+ digits +:+ post
         ∧ String.prefix "year" (lower (drop_spaces post)) = true)
  ∧ (∀ pre digits post,
       text = pre +:+ digits +:+ post →
       (∀ c, c ∈ String.list_ascii_of_string pre → is_digit_ascii c = false) →
       isdigit digits = true →
       String.prefix "year" (lower (drop_spaces post)) = true →
       search_years text = Some digits)
  ∧ ((∀ c, c ∈ String.list_ascii_of_string text → is_digit_ascii c = false) →
     search_years text = None).
Proof.
  split; [| split].
  - induction text as [| c text' IH]; intros digits; simpl; [discriminate |].
    assert (search_years text' = Some digits →
            isdigit digits = true
            ∧ ∃ pre post,
                String c text' = pre +:+ digits +:+ post
                ∧ String.prefix "year" (lower (drop_spaces post)) = true)
      as Hrest.
    { intros Hs. destruct (IH digits Hs) as (Hd & pre & post & -> & Hy).
      split; [done |]. by exists (String c pre), post. }
    destruct (is_digit_ascii c) eqn:Hc; [| exact Hrest].
    pose proof (take_digits_spec text') as [Heq Hall].
    destruct (take_digits text') as [ds rest]; simpl in Heq, Hall.
    destruct (String.prefix "year" (lower (drop_spaces rest))) eqn:Hy;
      [| exact Hrest].
    intros [= <-]. split; [simpl; by rewrite Hc |].
    exists EmptyString, rest. split; [| done].
    change (String c text' = String c (ds +:+ rest)). by f_equal.
  - intros pre digits post -> Hpre Hd Hy.
    induction pre as [| c pre IH].
    + change (EmptyString +:+ digits +:+ post) with (digits +:+ post).
      destruct digits as [| d ds]; [discriminate |].
      assert (all_digits (String d ds) = true) as Hall by exact Hd.
      pose proof (take_digits_app (String d ds) post Hall Hy) as Htake.
      simpl in Hall. apply andb_true_iff in Hall as [Hdig _].
      change (String d ds +:+ post) with (String d (ds +:+ post)) in *.
      unfold search_years; fold search_years.
      rewrite Hdig, Htake. by rewrite Hy.
    + change (String c pre +:+ digits +:+ post)
        with (String c (pre +:+ digits +:+ post)).
      unfold search_years; fold search_years.
      rewrite (Hpre c) by (simpl; left).
      apply IH. intros c' Hc'. apply Hpre. simpl. by right.
  - induction text as [| c text' IH]; intros Hnone; [done |].
    unfold search_years; fold search_years.
    rewrite (Hnone c) by (simpl; left).
    apply IH. intros c' Hc'. apply Hnone. simpl. by right.
Qed.

End MinimumAgeFacts.

(** ** The scanner with its own checkers *)

Section DispatchFacts.

Import DatabaseScanner Checkers.
Local Open Scope string_scope.
Local Open Scope list_scope.

Context {World : Type}.
Variable connector : DatabaseConnector World.
Variable py_int : string → outcome Z.
Variable retention_keys : Rule → RetentionKeys.

(** A loop whose body returns its list as it is or with one entry more
    that satisfies [Q] returns a list of entries that satisfy [Q]. *)
Lemma for_each_Forall {A B : Type}
    (body : A → list B → Async World (list B)) (P : A → B → Prop)
    (Q : B → Prop) (l : list A) (w : World) :
  (∀ x s w0,
     ∃ w', body x s w0 = (Returns s, w')
           ∨ ∃ h, P x h ∧ body x s w0 = (Returns (s ++ [h]), w')) →
  (∀ x h, P x h → Q h) →
  ∃ hs w', for_each body l [] w = (Returns hs, w') ∧ Forall Q hs.
Proof.
  intros Hbody HPQ.
  destruct (for_each_appends body P l (λ x s w0 _, Hbody x s w0) [] w)
    as (hs & xs & w' & Hrun & _ & Hall).
  exists hs, w'. split; [exact Hrun |].
  clear Hrun.
  induction Hall as [| x h xs hs Hxh _ IH]; constructor;
    [by eapply HPQ | exact IH].
Qed.

(** What every entry of the per-(table, rule) check carries. *)
Lemma check_data_masking_Forall (Q : PotentialViolation → Prop)
    (table : string) (rule : Rule) (columns : list string) (sample_size : Z)
    (w : World) :
  (∀ col, Q (masking_hit table rule col)) →
  ∃ hs w', Checkers._check_data_masking connector table rule columns
             sample_size w = (Returns hs, w')
           ∧ Forall Q hs.
Proof.
  intros HQ. unfold Checkers._check_data_masking.
  apply (for_each_Forall _ (λ col h, h = masking_hit table rule col
                                     ∧ (contains "email" (lower col) = true
                                        ∨ contains "phone" (lower col) = true))).
  - intros x s w0. apply masking_column_spec.
  - by intros x h [-> _].
Qed.

Lemma check_data_encryption_Forall (Q : PotentialViolation → Prop)
    (table : string) (rule : Rule) (columns : list string) (w : World) :
  (∀ col, Q (encryption_hit table rule col)) →
  ∃ hs w', _check_data_encryption connector table rule columns w
           = (Returns hs, w')
           ∧ Forall Q hs.
Proof.
  intros HQ. unfold _check_data_encryption.
  rewrite encryption_columns_appends.
  apply (for_each_Forall _
           (λ col h, h = encryption_hit table rule col
                     ∧ (contains "ssn" (lower col) = true
                        ∨ contains "credit" (lower col) = true
                        ∨ contains "password" (lower col) = true))).
  - intros x s w0. apply encryption_column_spec.
  - by intros x h [-> _].
Qed.

Lemma check_geographic_restriction_Forall (Q : GeoHit → Prop)
    (table : string) (rule : Rule) (columns : list string) (sample_size : Z)
    (w : World) :
  (∀ col values, Q (geographic_hit table rule col values)) →
  ∃ hs w', Checkers._check_geographic_restriction connector table rule
             columns sample_size w = (Returns hs, w')
           ∧ Forall Q hs.
Proof.
  intros HQ. rewrite check_geographic_restriction_loop.
  apply (for_each_Forall _
           (λ col h, ∃ values, h = geographic_hit table rule col values)).
  - intros x s w0. apply geographic_column_spec.
  - by intros x h [values ->].
Qed.

Lemma check_sql_condition_Forall (Q : SqlHit → Prop)
    (table : string) (rule : Rule) (sample_size : Z) (w : World) :
  (∀ count, Q (sql_condition_hit table rule
                 (default EmptyString (r_sql_condition rule)) count)) →
  ∃ hs w', Checkers._check_sql_condition connector table rule sample_size w
           = (Returns hs, w')
           ∧ Forall Q hs.
Proof.
  intros HQ. unfold Checkers._check_sql_condition.
  destruct (negb (truthy_str (r_sql_condition rule))); [by eexists _, _ |].
  simpl. unfold try_except, mbind, Async_bind, bind.
  destruct (execute_query connector _ w) as [[result | e] w'];
    [| by eexists _, _].
  destruct (positive_count result) as [[count |] | e];
    eexists _, _; (split; [reflexivity |]); repeat constructor. apply HQ.
Qed.

Lemma check_data_retention_Forall (Q : PotentialViolation → Prop)
    (table : string) (rule : Rule) (keys : RetentionKeys)
    (columns : list string) (sample_size : Z) (w : World) :
  (∀ col count days, Q (retention_hit table rule col count days)) →
  (∃ hs w', Checkers._check_data_retention connector py_int table rule keys
              columns sample_size w = (Returns hs, w')
            ∧ Forall Q hs)
  ∨ (∃ e s, Checkers._check_data_retention connector py_int table rule keys
              columns sample_size w = (Raises e, w)
            ∧ retention_value keys = Some (RVStr s)
            ∧ py_int s = Raises e).
Proof.
  intros HQ. unfold Checkers._check_data_retention.
  destruct (negb (truthy_list _)); [left; by eexists _, _ |].
  destruct (int_of_retention_value py_int (retention_value keys))
    as [value | e] eqn:Hint.
  - left. set (days := if contains "month" _ then _ else _).
    apply (for_each_Forall _
             (λ col h, ∃ count, (0 < count)%Z
                                ∧ h = retention_hit table rule col count
                                        days)).
    + intros x s w0. apply retention_column_spec.
    + by intros x h (count & _ & ->).
  - right. unfold int_of_retention_value in Hint.
    destruct (retention_value keys) as [[z | s] |]; try discriminate.
    by exists e, s.
Qed.

Lemma check_age_restriction_Forall (Q : PotentialViolation → Prop)
    (table : string) (rule : Rule) (columns : list string) (sample_size : Z)
    (w : World) :
  (∀ col count min_age, Q (age_hit table rule col count min_age)) →
  (∃ hs w', Checkers._check_age_restriction connector py_int table rule
              columns sample_size w = (Returns hs, w')
            ∧ Forall Q hs)
  ∨ (∃ e digits, Checkers._check_age_restriction connector py_int table rule
                   columns sample_size w = (Raises e, w)
                 ∧ search_years (default EmptyString (r_text rule))
                   = Some digits
                 ∧ py_int digits = Raises e).
Proof.
  intros HQ. unfold Checkers._check_age_restriction.
  destruct (negb (truthy_list _)); [left; by eexists _, _ |].
  destruct (search_years (default EmptyString (r_text rule)))
    as [digits |] eqn:Hsearch.
  - destruct (py_int digits) as [min_age | e] eqn:Hint.
    + left.
      apply (for_each_Forall _
               (λ col h, ∃ count, (0 < count)%Z
                                  ∧ h = age_hit table rule col count min_age)).
      * intros x s w0. apply age_column_spec.
      * by intros x h (count & _ & ->).
    + right. by exists e, digits.
  - left.
    apply (for_each_Forall _
             (λ col h, ∃ count, (0 < count)%Z
                                ∧ h = age_hit table rule col count 18%Z)).
    + intros x s w0. apply age_column_spec.
    + by intros x h (count & _ & ->).
Qed.

Lemma rule_type_eqb (rule : Rule) (t : string) :
  String.eqb (default "other" (r_type rule)) t = true →
  t ≠ "other" →
  r_type rule = Some t.
Proof.
  intros Heq Hne. apply String.eqb_eq in Heq.
  destruct (r_type rule); simpl in Heq; congruence.
Qed.

(** The outcome of the dispatch to the scanner's own checkers. *)
Lemma dispatch_outcome (Q : PotentialViolation → Prop) (table : string)
    (rule : Rule) (columns applicable_columns : list string)
    (sample_size : Z) (w : World) :
  (∀ pv, pv_table pv = Some table →
         pv_rule_id pv = r_id rule →
         pv_rule_text pv = r_text rule →
         pv_type pv = Some (default "custom" (r_type rule)) →
         pv_error pv = None →
         Q pv) →
  (∃ hs w', dispatch connector
              (scanner_checkers connector py_int retention_keys) table rule
              columns applicable_columns sample_size [] w = (Returns hs, w')
            ∧ Forall Q hs)
  ∨ (∃ e s, dispatch connector
              (scanner_checkers connector py_int retention_keys) table rule
              columns applicable_columns sample_size [] w = (Raises e, w)
            ∧ py_int s = Raises e
            ∧ ((r_type rule = Some "data_retention"
                ∧ retention_value (retention_keys rule) = Some (RVStr s))
               ∨ (r_type rule = Some "age_restriction"
                  ∧ search_years (default EmptyString (r_text rule))
                    = Some s))).
Proof.
  intros HQ. unfold dispatch, scanner_checkers. simpl.
  unfold mbind, Async_bind, bind.
  destruct (String.eqb _ "data_retention") eqn:H1.
  { apply rule_type_eqb in H1; [| done].
    destruct (check_data_retention_Forall Q table rule (retention_keys rule)
                columns sample_size w)
      as [(hs & w' & -> & Hall) | (e & s & -> & Hval & Hint)].
    - intros col count days. apply HQ; by rewrite ?H1.
    - left. by exists hs, w'.
    - right. exists e, s. split; [done |]. split; [done |]. by left. }
  destruct (String.eqb _ "data_encryption") eqn:H2.
  { apply rule_type_eqb in H2; [| done]. left.
    destruct (check_data_encryption_Forall Q table rule applicable_columns w)
      as (hs & w' & -> & Hall); [| by exists hs, w'].
    intros col. apply HQ; by rewrite ?H2. }
  destruct (String.eqb _ "data_masking") eqn:H3.
  { apply rule_type_eqb in H3; [| done]. left.
    destruct (check_data_masking_Forall Q table rule applicable_columns
                sample_size w)
      as (hs & w' & -> & Hall); [| by exists hs, w'].
    intros col. apply HQ; by rewrite ?H3. }
  destruct (String.eqb _ "data_access") eqn:H4.
  { apply rule_type_eqb in H4; [| done]. left.
    unfold Checkers._check_data_access.
    destruct (truthy_list _); eexists _, _; (split; [reflexivity |]);
      repeat constructor.
    apply HQ; by rewrite ?H4. }
  destruct (String.eqb _ "age_restriction") eqn:H5.
  { apply rule_type_eqb in H5; [| done].
    destruct (check_age_restriction_Forall Q table rule columns sample_size w)
      as [(hs & w' & -> & Hall) | (e & s & -> & Hsearch & Hint)].
    - intros col count min_age. apply HQ; by rewrite ?H5.
    - left. by exists hs, w'.
    - right. exists e, s. split; [done |]. split; [done |]. by right. }
  destruct (String.eqb _ "geographic_restriction") eqn:H6.
  { apply rule_type_eqb in H6; [| done]. left.
    destruct (check_geographic_restriction_Forall (λ h, Q (geo_hit h)) table
                rule columns sample_size w)
      as (hs & w' & -> & Hall).
    - intros col values. apply HQ; by rewrite ?H6.
    - exists (geo_hit <$> hs), w'. split; [done |]. by apply Forall_fmap. }
  destruct (String.eqb _ "audit_logging") eqn:H7.
  { apply rule_type_eqb in H7; [| done]. left.
    unfold Checkers._check_audit_logging.
    destruct (negb _); eexists _, _; (split; [reflexivity |]);
      repeat constructor.
    apply HQ; by rewrite ?H7. }
  left. destruct (truthy_str (r_sql_condition rule)); [| by eexists _, _].
  destruct (check_sql_condition_Forall (λ h, Q (sql_hit h)) table rule
              sample_size w)
    as (hs & w' & -> & Hall).
  - intros count. by apply HQ.
  - exists (sql_hit <$> hs), w'. split; [done |]. by apply Forall_fmap.
Qed.


(** With the scanner's own checkers, the per-(table, rule) check
    returns, and every entry names the table and carries the id of the
    rule. *)
Lemma check_rule_against_table_entries (table : string) (rule : Rule)
    (columns : list string) (sample_size : Z) (w : World) :
  ∃ (entries : list PotentialViolation) (w' : World),
    _check_rule_against_table connector
      (scanner_checkers connector py_int retention_keys) table rule columns
      sample_size w = (Returns entries, w')
    ∧ Forall (λ pv, pv_table pv = Some table
                    ∧ pv_rule_id pv = r_id rule
                    ∧ ((pv_type pv = Some "scan_error"
                        ∧ is_Some (pv_error pv)
                        ∧ pv_rule_text pv = None)
                       ∨ (pv_type pv = Some (default "custom" (r_type rule))
                          ∧ pv_error pv = None
                          ∧ pv_rule_text pv = r_text rule)))
        entries.
Proof.
  unfold _check_rule_against_table.
  destruct (_ && _); [by exists [], w |].
  unfold try_except.
  match goal with
  | |- context [dispatch _ _ _ _ _ ?a _ _ _] =>
      destruct (dispatch_outcome
                  (λ pv, pv_table pv = Some table
                         ∧ pv_rule_id pv = r_id rule
                         ∧ ((pv_type pv = Some "scan_error"
                             ∧ is_Some (pv_error pv)
                             ∧ pv_rule_text pv = None)
                            ∨ (pv_type pv
                               = Some (default "custom" (r_type rule))
                               ∧ pv_error pv = None
                               ∧ pv_rule_text pv = r_text rule)))
                  table rule columns a sample_size w)
        as [(hs & w1 & -> & Hall) | (e & s & -> & _)]
  end.
  - intros pv Ht Hid Htext Htype Herr. split; [done |]. split; [done |].
    by right.
  - by exists hs, w1.
  - eexists _, _. split; [reflexivity |].
    constructor; [| constructor]. split; [done |]. split; [done |]. left.
    split; [done |]. split; [by eexists | done].
Qed.

End DispatchFacts.

(** ** The scan as a whole *)

Section ScanFacts.

Import ViolationEngine DatabaseScanner Checkers.
Local Open Scope string_scope.
Local Open Scope list_scope.

Context {World : Type}.
Variable connector : DatabaseConnector World.

(** What the table loop and the scan loop return, given what the
    per-(table, rule) check returns. *)
Lemma scan_table_loop_entries (checkers : CategoryCheckers World)
    (Q : string → Rule → PotentialViolation → Prop) (table : string)
    (rules : list Rule) (columns : list string) (sample_size : Z) :
  (∀ rule w,
     ∃ entries w',
       _check_rule_against_table connector checkers table rule columns
         sample_size w = (Returns entries, w')
       ∧ Forall (Q table rule) entries) →
  ∀ violations w,
    ∃ entries w',
      scan_table_loop connector checkers table rules columns sample_size
        violations w = (Returns (violations ++ entries), w')
      ∧ Forall (λ pv, ∃ rule, rule ∈ rules ∧ Q table rule pv) entries.
Proof.
  intros Hrule. induction rules as [| rule rest IH]; intros violations w;
    simpl.
  - exists [], w. by rewrite app_nil_r.
  - unfold mbind, Async_bind, bind.
    destruct (Hrule rule w) as (hits & w1 & -> & Hhits).
    destruct (IH (violations ++ hits) w1) as (more & w' & -> & Hmore).
    exists (hits ++ more), w'. split; [by rewrite app_assoc |].
    apply Forall_app. split.
    + eapply Forall_impl; [exact Hhits |]. intros pv Hpv. exists rule.
      split; [left | done].
    + eapply Forall_impl; [exact Hmore |]. intros pv (r & Hr & Hpv).
      exists r. split; [by right | done].
Qed.

Lemma scan_loop_entries (checkers : CategoryCheckers World)
    (Q : string → Rule → PotentialViolation → Prop)
    (all_tables : list string) (schema : gmap string TableSchema)
    (rules : list Rule) (sample_size : Z) (tables_to_scan : list string) :
  (∀ table rule columns w,
     ∃ entries w',
       _check_rule_against_table connector checkers table rule columns
         sample_size w = (Returns entries, w')
       ∧ Forall (Q table rule) entries) →
  ∀ tables_scanned potential_violations w,
    ∃ entries w',
      scan_loop connector checkers all_tables schema rules sample_size
        tables_to_scan tables_scanned potential_violations w
      = (Returns (tables_scanned
                  ++ filter (λ t, t ∈ all_tables) tables_to_scan,
                  potential_violations ++ entries), w')
      ∧ Forall (λ pv, ∃ table rule,
                        table ∈ filter (λ t, t ∈ all_tables) tables_to_scan
                        ∧ rule ∈ rules ∧ Q table rule pv) entries.
Proof.
  intros Hrule.
  induction tables_to_scan as [| table rest IH];
    intros tables_scanned potential_violations w; simpl.
  - exists [], w. by rewrite !app_nil_r.
  - rewrite filter_cons. destruct (str_in table all_tables) eqn:Hin; simpl.
    + apply str_in_spec in Hin. rewrite decide_True by done.
      unfold mbind, Async_bind, bind, _scan_table.
      destruct (scan_table_loop_entries checkers Q table rules
                  (col_name <$>
                     default [] (ts_columns
                                   (default (mkTableSchema None)
                                      (schema !! table))))
                  sample_size
                  (λ rule w0, Hrule table rule _ w0) [] w)
        as (hits & w1 & -> & Hhits).
      change ([] ++ hits) with hits.
      destruct (IH (tables_scanned ++ [table])
                  (potential_violations ++ hits) w1)
        as (more & w' & -> & Hmore).
      exists (hits ++ more), w'. split.
      { by rewrite <- !app_assoc. }
      apply Forall_app. split.
      * eapply Forall_impl; [exact Hhits |]. intros pv (r & Hr & Hpv).
        exists table, r. split; [left | done].
      * eapply Forall_impl; [exact Hmore |]. intros pv (t & r & Ht & Hpv).
        exists t, r. split; [by right | done].
    + assert (table ∉ all_tables) as Hnot.
      { intros Ht. apply str_in_spec in Ht. congruence. }
      rewrite decide_False by done. apply IH.
Qed.

Lemma scan_inv (checkers : CategoryCheckers World)
    (Q : string → Rule → PotentialViolation → Prop)
    (utcnow_strftime utcnow_isoformat : Async World string)
    (self : Scanner) (rules : list Rule) (tables : option (list string))
    (sample_size : Z) (w w' : World) (r : ScanResult * Scanner) :
  (∀ table rule columns w0,
     ∃ entries w1,
       _check_rule_against_table connector checkers table rule columns
         sample_size w0 = (Returns entries, w1)
       ∧ Forall (Q table rule) entries) →
  scan connector checkers utcnow_strftime utcnow_isoformat self rules tables
    sample_size w = (Returns r, w') →
  ∃ (all_tables : list string) (w0 w1 : World) (scan_id completed_at : string),
    get_tables connector w0 = (Returns all_tables, w1)
    ∧ let tables_to_scan :=
        match tables with
        | Some (t :: ts) => t :: ts
        | _ => all_tables
        end in
      sr_tables_scanned r.1 = filter (λ t, t ∈ all_tables) tables_to_scan
      ∧ sr_rules_checked r.1 = length rules
      ∧ sr_scan_id r.1 = Some scan_id
      ∧ sr_completed_at r.1 = Some completed_at
      ∧ sr_total_potential_violations r.1
        = Some (length (sr_potential_violations r.1))
      ∧ scan_history r.2
        = scan_history self
          ++ [mkHistoryEntry scan_id completed_at (length tables_to_scan)
                (length (sr_potential_violations r.1))]
      ∧ Forall (λ pv, ∃ table rule,
                        table ∈ sr_tables_scanned r.1
                        ∧ rule ∈ rules ∧ Q table rule pv)
          (sr_potential_violations r.1).
Proof.
  intros Hrule. unfold scan, mbind, Async_bind, bind.
  destruct (utcnow_strftime w) as [[scan_id | e] w1]; [| discriminate].
  destruct (get_tables connector w1) as [[all_tables | e] w2] eqn:Htables;
    [| discriminate].
  destruct (get_full_schema connector w2) as [[schema | e] w3];
    [| discriminate].
  destruct (utcnow_isoformat w3) as [[started_at | e] w4]; [| discriminate].
  match goal with
  | |- context [scan_loop _ _ ?a ?s ?ru ?z ?t [] [] w4] =>
      destruct (scan_loop_entries checkers Q a s ru z t Hrule [] [] w4)
        as (entries & w5 & -> & Hentries)
  end.
  destruct (utcnow_isoformat w5) as [[completed_at | e] w6]; [| discriminate].
  intros [= <- <-]. simpl.
  exists all_tables, w1, w2, scan_id, completed_at.
  split; [exact Htables |]. by repeat split.
Qed.

(** X25.  What a scan that returns has done.  It scanned the requested
    tables that the backend lists, in the requested order and as often as
    they were requested (all listed tables when none, or an empty list, was
    requested), and skipped the others.  The total it
    reports is the number of entries it returns.  The scanner's history
    grows by one record with the scan's id and completion time; the number
    of tables it records is the number requested, including the skipped
    ones, so it can exceed the number of tables scanned. *)
Theorem X25_scan_result (checkers : CategoryCheckers World)
    (utcnow_strftime utcnow_isoformat : Async World string)
    (self : Scanner) (rules : list Rule) (tables : option (list string))
    (sample_size : Z) (w w' : World) (r : ScanResult * Scanner) :
  scan connector checkers utcnow_strftime utcnow_isoformat self rules tables
    sample_size w = (Returns r, w') →
  ∃ (all_tables : list string) (w0 w1 : World),
    get_tables connector w0 = (Returns all_tables, w1)
    ∧ let tables_to_scan :=
        match tables with
        | Some (t :: ts) => t :: ts
        | _ => all_tables
        end in
      sr_tables_scanned r.1 = filter (λ t, t ∈ all_tables) tables_to_scan
      ∧ (tables = None ∨ tables = Some [] →
         sr_tables_scanned r.1 = all_tables)
      ∧ sr_rules_checked r.1 = length rules
      ∧ sr_total_potential_violations r.1
        = Some (length (sr_potential_violations r.1))
      ∧ ∃ entry,
          scan_history r.2 = scan_history self ++ [entry]
          ∧ Some (h_scan_id entry) = sr_scan_id r.1
          ∧ Some (h_timestamp entry) = sr_completed_at r.1
          ∧ h_tables entry = length tables_to_scan
          ∧ h_violations entry = length (sr_potential_violations r.1)
          ∧ (length (sr_tables_scanned r.1) ≤ h_tables entry)%nat.
Proof.
  intros Hscan.
  destruct (scan_inv checkers (λ _ _ _, True) utcnow_strftime
              utcnow_isoformat self rules tables sample_size w w' r)
    as (all_tables & w0 & w1 & scan_id & completed_at & Htables & Hscanned
        & Hrules & Hid & Hdone & Htotal & Hhist & _); [| exact Hscan |].
  { intros table rule columns w2.
    destruct (check_rule_against_table_returns connector checkers table rule
                columns sample_size w2) as (hits & w3 & ->).
    exists hits, w3. split; [done |]. by apply Forall_forall. }
  exists all_tables, w0, w1. split; [exact Htables |]. cbv zeta in *.
  split; [exact Hscanned |]. split.
  { intros [-> | ->]; rewrite Hscanned; apply filter_all;
      by apply Forall_forall. }
  split; [exact Hrules |]. split; [exact Htotal |].
  eexists. split; [exact Hhist |]. simpl. rewrite Hid, Hdone, Hscanned.
  repeat split. apply length_filter.
Qed.

End ScanFacts.

Section PredicateFacts.

Import DatabaseScanner.
Local Open Scope string_scope.
Local Open Scope list_scope.

Context {World : Type}.
Variable connector : DatabaseConnector World.

(** X24.  When a rule's raw predicate is evaluated.  For a rule of one
    of the seven types that have a checker of their own, the predicate is
    never evaluated: the outcome of the per-(table, rule) check is the same
    whatever the generic checker would do.  For a rule of
    any other type (consent, notification, a missing type, ...) nothing but
    the generic checker runs: without a predicate the rule never yields an
    entry, whatever columns the table has; with one, the outcome is the
    generic checker's, its exception turned into the diagnostic entry. *)
Theorem X24_predicate_only_for_other_types (checkers : CategoryCheckers World)
    (table : string) (rule : Rule) (columns : list string) (sample_size : Z)
    (w : World) :
  let rule_type := default "other" (r_type rule) in
  let dispatched :=
    ["data_retention"; "data_encryption"; "data_masking"; "data_access";
     "age_restriction"; "geographic_restriction"; "audit_logging"] in
  (str_in rule_type dispatched = true →
   ∀ generic : string → Rule → Z → Async World (list PotentialViolation),
     _check_rule_against_table connector checkers table rule columns
       sample_size w
     = _check_rule_against_table connector
         {| _check_data_retention := _check_data_retention checkers;
            _check_data_masking := _check_data_masking checkers;
            _check_data_access := _check_data_access checkers;
            _check_age_restriction := _check_age_restriction checkers;
            _check_geographic_restriction :=
              _check_geographic_restriction checkers;
            _check_audit_logging := _check_audit_logging checkers;
            _check_sql_condition := generic |}
         table rule columns sample_size w)
  ∧ (str_in rule_type dispatched = false →
     (truthy_str (r_sql_condition rule) = false →
      _check_rule_against_table connector checkers table rule columns
        sample_size w = (Returns [], w))
     ∧ (truthy_str (r_sql_condition rule) = true →
        _check_rule_against_table connector checkers table rule columns
          sample_size w
        = match _check_sql_condition checkers table rule sample_size w with
          | (Returns hits, w') => (Returns hits, w')
          | (Raises e, w') => (Returns [scan_error_entry table rule e], w')
          end)).
Proof.
  intros rule_type dispatched. split.
  - intros Htype generic. unfold _check_rule_against_table.
    destruct (_ && _); [done |].
    unfold try_except, dispatch. fold rule_type. simpl.
    unfold str_in in Htype. simpl in Htype.
    repeat (destruct (String.eqb rule_type _); [done |]).
    discriminate.
  - intros Htype. unfold str_in in Htype. simpl in Htype.
    rewrite !orb_false_iff in Htype.
    destruct Htype as (H1 & H2 & H3 & H4 & H5 & H6 & H7 & _).
    unfold _check_rule_against_table, try_except, dispatch.
    fold rule_type. rewrite H1, H2, H3, H4, H5, H6, H7.
    split.
    + intros ->. rewrite andb_true_r.
      by destruct (negb (truthy_list _)).
    + intros ->. rewrite andb_false_r.
      unfold mbind, Async_bind, bind.
      by destruct (_check_sql_condition checkers table rule sample_size w)
        as [[hits | e] w'].
Qed.

End PredicateFacts.

Section PipelineFacts.

Import ViolationEngine DatabaseScanner Checkers.
Local Open Scope string_scope.
Local Open Scope list_scope.

Context {World : Type}.
Variable connector : DatabaseConnector World.
Variable py_int : string → outcome Z.
Variable retention_keys : Rule → RetentionKeys.
Variable uuid4 : nat → string.
Variable utcnow : nat → string.

Lemma rules_map_untouched (rules : list Rule) (m : gmap string Rule)
    (i : string) :
  Some i ∉ r_id <$> rules →
  foldl (λ m r, match r_id r with
                | Some j => <[j := r]> m
                | None => m
                end) m rules !! i = m !! i.
Proof.
  revert m. induction rules as [| r rest IH]; intros m Hnot; simpl; [done |].
  rewrite fmap_cons, not_elem_of_cons in Hnot. destruct Hnot as [Hr Hrest].
  rewrite IH by done. destruct (r_id r) as [j |]; [| done].
  rewrite lookup_insert_ne; [done | congruence].
Qed.

(** With pairwise distinct ids, the rules map finds each rule under its
    id. *)
Lemma build_rules_map_lookup (rules : list Rule) (rule : Rule) (i : string) :
  NoDup (r_id <$> rules) →
  rule ∈ rules →
  r_id rule = Some i →
  build_rules_map rules !! i = Some rule.
Proof.
  unfold build_rules_map. generalize (∅ : gmap string Rule).
  induction rules as [| r rest IH]; intros m Hnd Hin Hid.
  - by apply not_elem_of_nil in Hin.
  - rewrite fmap_cons in Hnd. apply NoDup_cons in Hnd as [Hr Hnd].
    simpl. apply elem_of_cons in Hin as [<- | Hin].
    + rewrite Hid. rewrite Hid in Hr.
      by rewrite rules_map_untouched, lookup_insert_eq.
    + by apply IH.
Qed.

(** X26.  The scan and the detection together, with the scanner's own
    checkers.  Every entry of a scan result names a table that was scanned
    and carries the id of one of the rules that were checked; it is a
    diagnostic entry or has that rule's type ([custom] when the rule has
    none).  Every violation that the engine then builds from the scan result
    names a scanned table, carries the scan's id, the id and the type of a
    rule that was checked, and, when the rules' ids are present and pairwise
    distinct, the severity resolved against that very rule. *)
Theorem X26_pipeline_attribution
    (utcnow_strftime utcnow_isoformat : Async World string)
    (self : Scanner) (engine : Engine) (rules : list Rule)
    (tables : option (list string)) (sample_size : Z) (w w' : World)
    (r : ScanResult * Scanner) :
  scan connector (scanner_checkers connector py_int retention_keys)
    utcnow_strftime utcnow_isoformat self rules tables sample_size w
  = (Returns r, w') →
  let entries := sr_potential_violations r.1 in
  let violations := (detect uuid4 utcnow engine r.1 rules).1 in
  Forall (λ pv, ∃ table rule,
                  table ∈ sr_tables_scanned r.1
                  ∧ rule ∈ rules
                  ∧ pv_table pv = Some table
                  ∧ pv_rule_id pv = r_id rule
                  ∧ (pv_type pv = Some "scan_error"
                     ∨ pv_type pv = Some (default "custom" (r_type rule))))
    entries
  ∧ Forall (λ v, ∃ table rule pv,
                   table ∈ sr_tables_scanned r.1
                   ∧ rule ∈ rules
                   ∧ pv ∈ entries
                   ∧ v_table v = Some table
                   ∧ v_scan_id v = sr_scan_id r.1
                   ∧ v_rule_id v = r_id rule
                   ∧ v_rule_type v = Some (default "custom" (r_type rule))
                   ∧ (NoDup (r_id <$> rules) →
                      is_Some (r_id rule) →
                      v_severity v = Some (_determine_severity pv rule)))
      violations.
Proof.
  intros Hscan entries violations.
  destruct (scan_inv connector
              (scanner_checkers connector py_int retention_keys)
              (λ table rule pv,
                 pv_table pv = Some table
                 ∧ pv_rule_id pv = r_id rule
                 ∧ ((pv_type pv = Some "scan_error"
                     ∧ is_Some (pv_error pv)
                     ∧ pv_rule_text pv = None)
                    ∨ (pv_type pv = Some (default "custom" (r_type rule))
                       ∧ pv_error pv = None
                       ∧ pv_rule_text pv = r_text rule)))
              utcnow_strftime utcnow_isoformat self rules tables sample_size
              w w' r)
    as (all_tables & w0 & w1 & scan_id & completed_at & _ & _ & _ & _ & _ & _
        & _ & Hentries); [| exact Hscan |].
  { intros table rule columns w2.
    apply check_rule_against_table_entries. }
  fold entries in Hentries.
  assert (Forall (λ pv, ∃ table rule,
                          table ∈ sr_tables_scanned r.1
                          ∧ rule ∈ rules
                          ∧ pv_table pv = Some table
                          ∧ pv_rule_id pv = r_id rule
                          ∧ (pv_type pv = Some "scan_error"
                             ∨ pv_type pv
                               = Some (default "custom" (r_type rule))))
            entries) as Hfirst.
  { eapply Forall_impl; [exact Hentries |].
    intros pv (table & rule & Ht & Hr & Htab & Hid & Htype).
    exists table, rule. repeat split; try done.
    destruct Htype as [(? & _) | (? & _)]; [by left | by right]. }
  split; [exact Hfirst |].
  apply Forall_forall. intros v Hv. subst violations.
  rewrite detect_Permutation in Hv. unfold in_discovery_order in Hv.
  apply elem_of_lookup_imap in Hv as (k & pv & -> & Hk).
  apply list_elem_of_lookup_2, list_elem_of_filter in Hk as [Hhit Hpv].
  fold entries in Hpv.
  rewrite Forall_forall in Hfirst.
  destruct (Hfirst pv Hpv) as (table & rule & Ht & Hr & Htab & Hid & Htype).
  exists table, rule, pv. repeat split; try done.
  - simpl. destruct Htype as [Herr | Htype]; [| done].
    unfold is_hit, is_scan_error in Hhit. rewrite Herr in Hhit. done.
  - intros Hnd [i Hi]. simpl. f_equal. f_equal.
    unfold lookup_rule. rewrite Hid, Hi.
    by rewrite (build_rules_map_lookup rules rule i Hnd Hr Hi).
Qed.

End PipelineFacts.

Section ConnectorFacts.

Import DatabaseScanner Checkers Connector.
Local Open Scope string_scope.
Local Open Scope list_scope.

Context {World : Type}.
Variable get_tables : Async World (list string).
Variable get_schema : string → Async World TableSchema.

Lemma schema_loop_spec (tables : list string)
    (schemas : gmap string TableSchema) (w : World) :
  ∃ schemas' w',
    for_each (schema_step get_schema) tables schemas w
    = (Returns schemas', w')
    ∧ (∀ t, is_Some (schemas' !! t) ↔ is_Some (schemas !! t) ∨ t ∈ tables)
    ∧ (∀ t, t ∉ tables → schemas' !! t = schemas !! t)
    ∧ (∀ t, t ∈ tables →
            (∀ w0, ∃ e w1, get_schema t w0 = (Raises e, w1)) →
            schemas' !! t = Some (mkTableSchema None)).
Proof.
  revert schemas w. induction tables as [| table rest IH]; intros schemas w;
    simpl.
  - exists schemas, w. split; [done |]. split; [| split]; [| done |].
    + intros t. split; [by left |]. intros [H | H]; [done |].
      by apply not_elem_of_nil in H.
    + intros t H. by apply not_elem_of_nil in H.
  - unfold mbind, Async_bind, bind.
    assert (∃ schema w1,
              schema_step get_schema table schemas w
              = (Returns (<[table := schema]> schemas), w1)
              ∧ ((∀ w0, ∃ e w2, get_schema table w0 = (Raises e, w2)) →
                 schema = mkTableSchema None)) as (schema & w1 & -> & Hfail).
    { unfold schema_step, try_except, mbind, Async_bind, bind.
      destruct (get_schema table w) as [[schema | e] w1] eqn:Hget.
      - exists schema, w1. split; [done |]. intros Hall.
        destruct (Hall w) as (e & w2 & Hraise). congruence.
      - exists (mkTableSchema None), w1. by split. }
    destruct (IH (<[table := schema]> schemas) w1)
      as (schemas' & w' & -> & Hdom & Hout & Herr).
    exists schemas', w'. split; [done |]. split; [| split].
    + intros t. rewrite Hdom, elem_of_cons.
      destruct (decide (t = table)) as [-> | Hne].
      * rewrite lookup_insert_eq. split; [by right; left |].
        intros _. left. by eexists.
      * rewrite lookup_insert_ne by done. tauto.
    + intros t Ht. apply not_elem_of_cons in Ht as [Hne Ht].
      rewrite Hout by done. by rewrite lookup_insert_ne.
    + intros t Ht Hall. destruct (decide (t ∈ rest)) as [Hin | Hnot].
      * by apply Herr.
      * apply elem_of_cons in Ht as [-> | Ht]; [| done].
        rewrite Hout by done. rewrite lookup_insert_eq. f_equal.
        by apply Hfail.
Qed.

(** X27.  Reading the schema of the whole database fails only when the
    list of tables cannot be read.  Otherwise it returns an entry for
    exactly the listed tables; a table whose own schema cannot be read keeps
    an entry, without a column list. *)
Theorem X27_full_schema (w : World) :
  (∀ e w', get_tables w = (Raises e, w') →
           get_full_schema get_tables get_schema w = (Raises e, w'))
  ∧ (∀ tables w1,
       get_tables w = (Returns tables, w1) →
       ∃ schemas w',
         get_full_schema get_tables get_schema w = (Returns schemas, w')
         ∧ (∀ t, is_Some (schemas !! t) ↔ t ∈ tables)
         ∧ (∀ t, t ∈ tables →
                 (∀ w0, ∃ e w2, get_schema t w0 = (Raises e, w2)) →
                 schemas !! t = Some (mkTableSchema None)
                 ∧ default [] (ts_columns (default (mkTableSchema None)
                                             (schemas !! t))) = [])).
Proof.
  unfold get_full_schema, mbind, Async_bind, bind. split.
  - by intros e w' ->.
  - intros tables w1 ->.
    destruct (schema_loop_spec tables ∅ w1)
      as (schemas & w' & -> & Hdom & _ & Herr).
    exists schemas, w'. split; [done |]. split.
    + intros t. rewrite Hdom, lookup_empty. split; [| by right].
      intros [[x Hx] | H]; [discriminate | done].
    + intros t Ht Hall. rewrite (Herr t Ht Hall). done.
Qed.

End ConnectorFacts.

(** * Properties of what is computed from the violations *)

Section ComplianceScoreFacts.

Import ViolationEngine ReportGenerator.
Local Open Scope string_scope.
Local Open Scope list_scope.

Lemma severity_weight_cases (s : string) :
  default 1%Z (severity_weights !! s)
  = if String.eqb s "critical" then 10%Z
    else if String.eqb s "high" then 5%Z
    else if String.eqb s "medium" then 2%Z
    else 1%Z.
Proof.
  unfold severity_weights. simpl.
  destruct (String.eqb_spec s "critical") as [-> | H1]; [done |].
  rewrite lookup_insert_ne by done.
  destruct (String.eqb_spec s "high") as [-> | H2]; [done |].
  rewrite lookup_insert_ne by done.
  destruct (String.eqb_spec s "medium") as [-> | H3]; [done |].
  rewrite lookup_insert_ne by done.
  destruct (decide (s = "low")) as [-> | H4]; [done |].
  by rewrite lookup_insert_ne, lookup_empty.
Qed.

Lemma severity_weight_bounds (s : string) :
  (1 ≤ default 1 (severity_weights !! s) ≤ 10)%Z.
Proof.
  rewrite severity_weight_cases. repeat destruct (String.eqb _ _); lia.
Qed.

Lemma total_weight_snoc (l : list Violation) (v : Violation) :
  total_weight (l ++ [v])
  = (total_weight l
     + default 1 (severity_weights !! default "low" (v_severity v)))%Z.
Proof. unfold total_weight. by rewrite foldl_app. Qed.

Lemma total_weight_cons (v : Violation) (l : list Violation) :
  total_weight (v :: l)
  = (default 1 (severity_weights !! default "low" (v_severity v))
     + total_weight l)%Z.
Proof.
  induction l as [| x l IH] using rev_ind.
  - unfold total_weight. simpl. lia.
  - rewrite app_comm_cons, !total_weight_snoc, IH. lia.
Qed.

Lemma total_weight_app (l k : list Violation) :
  total_weight (l ++ k) = (total_weight l + total_weight k)%Z.
Proof.
  induction l as [| v l IH]; simpl.
  - unfold total_weight at 2. simpl. lia.
  - rewrite !total_weight_cons, IH. lia.
Qed.

Lemma total_weight_ge_length (l : list Violation) :
  (Z.of_nat (length l) ≤ total_weight l)%Z.
Proof.
  induction l as [| v l IH].
  - unfold total_weight. simpl. lia.
  - rewrite total_weight_cons. simpl length.
    pose proof (severity_weight_bounds (default "low" (v_severity v))). lia.
Qed.

Lemma total_weight_Permutation (l k : list Violation) :
  l ≡ₚ k → total_weight l = total_weight k.
Proof.
  induction 1 as [| x l k _ IH | x y l | l k m _ IH1 _ IH2].
  - done.
  - by rewrite !total_weight_cons, IH.
  - rewrite !total_weight_cons. lia.
  - by rewrite IH1.
Qed.

Lemma total_weight_critical (l : list Violation) :
  Forall (λ v, v_severity v = Some "critical") l →
  total_weight l = (10 * Z.of_nat (length l))%Z.
Proof.
  induction 1 as [| v l Hv _ IH].
  - unfold total_weight. simpl. lia.
  - rewrite total_weight_cons, IH, Hv. simpl length.
    change (default 1%Z (severity_weights !! default "low" (Some "critical")))
      with 10%Z.
    lia.
Qed.

Lemma compliance_score_cons (v : Violation) (l : list Violation) :
  _calculate_compliance_score (v :: l)
  = PyInt (Z.max 0 (100 - Z.min (total_weight (v :: l)) 100)).
Proof. reflexivity. Qed.

(** X28.  The compliance score of a report lies between 0 and 100.  It is
    100 exactly when there is no violation: every violation costs at least
    one point; a single violation costs ten points when critical, five when
    high, two when medium, one for any other or missing severity.  More
    violations never raise the score, their order does not matter, and ten
    critical violations already bring it to 0. *)
Theorem X28_compliance_score (violations : list Violation) :
  let score := λ l, number_value (_calculate_compliance_score l) in
  (0 <= score violations <= 100)%R
  ∧ (score violations = 100%R ↔ violations = [])
  ∧ (∀ more, (score (violations ++ more) <= score violations)%R)
  ∧ (∀ reordered,
       violations ≡ₚ reordered →
       _calculate_compliance_score violations
       = _calculate_compliance_score reordered)
  ∧ (Forall (λ v, v_severity v = Some "critical") violations →
     (10 ≤ length violations)%nat →
     _calculate_compliance_score violations = PyInt 0)
  ∧ (∀ v,
       _calculate_compliance_score [v]
       = let severity := default "low" (v_severity v) in
         PyInt (100 - (if String.eqb severity "critical" then 10
                       else if String.eqb severity "high" then 5
                       else if String.eqb severity "medium" then 2
                       else 1))).
Proof.
  intros score. subst score. cbv beta.
  pose proof (total_weight_ge_length violations) as Hlen.
  split; [| split; [| split; [| split; [| split]]]].
  - destruct violations as [| v l]; [simpl; lra |].
    rewrite compliance_score_cons. unfold number_value.
    split; apply IZR_le; lia.
  - destruct violations as [| v l]; [done |].
    rewrite compliance_score_cons. unfold number_value.
    split; [| done]. intros Heq. apply eq_IZR in Heq.
    simpl length in Hlen. lia.
  - intros more. destruct violations as [| v l].
    + destruct more as [| x m]; [simpl; lra |].
      change ([] ++ x :: m) with (x :: m).
      rewrite compliance_score_cons.
      change (number_value (_calculate_compliance_score [])) with 100%R.
      pose proof (total_weight_ge_length (x :: m)).
      unfold number_value. apply IZR_le. lia.
    + rewrite <- app_comm_cons, !compliance_score_cons.
      unfold number_value. rewrite app_comm_cons, total_weight_app.
      pose proof (total_weight_ge_length more).
      apply IZR_le. lia.
  - intros reordered Hperm.
    destruct violations as [| v l], reordered as [| x m]; try done.
    + by apply Permutation_nil_cons in Hperm.
    + symmetry in Hperm. by apply Permutation_nil_cons in Hperm.
    + rewrite !compliance_score_cons.
      by rewrite (total_weight_Permutation _ _ Hperm).
  - intros Hall Hten.
    destruct violations as [| v l]; [simpl in Hten; lia |].
    rewrite compliance_score_cons, (total_weight_critical _ Hall).
    f_equal. lia.
  - intros v. rewrite compliance_score_cons, total_weight_cons.
    cbv zeta. rewrite severity_weight_cases.
    change (total_weight []) with 0%Z. f_equal.
    repeat destruct (String.eqb _ _); lia.
Qed.

End ComplianceScoreFacts.

Section ApprovalFacts.

Import ViolationEngine ApprovalManager.
Local Open Scope string_scope.
Local Open Scope list_scope.

Lemma any_with_severity_spec (severity : string)
    (violations : list Violation) :
  any_with_severity severity violations = true
  ↔ ∃ v, v ∈ violations ∧ v_severity v = Some severity.
Proof.
  unfold any_with_severity. rewrite existsb_exists. split.
  - intros (v & Hv & Hs). exists v. split; [by apply list_elem_of_In |].
    by apply bool_decide_eq_true in Hs.
  - intros (v & Hv & Hs). exists v. split; [by apply list_elem_of_In |].
    by apply bool_decide_eq_true.
Qed.

(** X29.  The severity an approval request is filed under is the highest
    of [critical], [high], [medium], [low] that some violation has, and
    [medium] when none has any of the four (no violation at all, or only
    missing or unrecognised severities).  So a request with low-severity
    violations only needs no approval level, while a request without any
    recognised severity needs the data steward. *)
Theorem X29_max_severity (violations : list Violation) :
  let has := λ s, ∃ v, v ∈ violations ∧ v_severity v = Some s in
  let max_severity := _get_max_severity violations in
  (max_severity = "critical" ↔ has "critical")
  ∧ (max_severity = "high" ↔ ¬ has "critical" ∧ has "high")
  ∧ (max_severity = "medium"
     ↔ ¬ has "critical" ∧ ¬ has "high" ∧ (has "medium" ∨ ¬ has "low"))
  ∧ (max_severity = "low"
     ↔ ¬ has "critical" ∧ ¬ has "high" ∧ ¬ has "medium" ∧ has "low")
  ∧ (required_levels (approval_config violations) = []
     ↔ max_severity = "low")
  ∧ (max_severity = "medium" →
     required_levels (approval_config violations) = [L1_DATA_STEWARD])
  ∧ _get_max_severity [] = "medium"
  ∧ required_levels (approval_config []) = [L1_DATA_STEWARD].
Proof.
  intros has max_severity. subst max_severity.
  unfold approval_config, _get_max_severity, severity_loop.
  assert (∀ s, (any_with_severity s violations = true ∧ has s)
               ∨ (any_with_severity s violations = false ∧ ¬ has s))
    as Hcase.
  { intros s. destruct (any_with_severity s violations) eqn:E;
      [left | right]; (split; [done |]).
    - by apply any_with_severity_spec.
    - intros H. apply any_with_severity_spec in H. congruence. }
  destruct (Hcase "critical") as [[-> Hc] | [-> Hc]].
  { repeat split; try done; try tauto;
      try (intros H; first [discriminate H | tauto
                           | vm_compute in H; discriminate H]). }
  destruct (Hcase "high") as [[-> Hh] | [-> Hh]].
  { repeat split; try done; try tauto;
      try (intros H; first [discriminate H | tauto
                           | vm_compute in H; discriminate H]). }
  destruct (Hcase "medium") as [[-> Hm] | [-> Hm]].
  { repeat split; try done; try tauto;
      try (intros H; first [discriminate H | tauto
                           | vm_compute in H; discriminate H]). }
  destruct (Hcase "low") as [[-> Hl] | [-> Hl]].
  { repeat split; try done; try tauto;
      try (intros H; first [discriminate H | tauto
                           | vm_compute in H; discriminate H]). }
  repeat split; try done; try tauto;
      try (intros H; first [discriminate H | tauto
                           | vm_compute in H; discriminate H]).
Qed.

End ApprovalFacts.

Section ImpactFacts.

Import ViolationEngine EngineReports ViolationExplainer.
Local Open Scope string_scope.
Local Open Scope list_scope.

Lemma tally_loop_severity (l : list Violation) (t : Tally) (c : Counters) :
  severity_counts t = c_by_severity c →
  severity_counts (tally_loop l t) = c_by_severity (summary_loop l c).
Proof.
  revert t c. induction l as [| v l IH]; intros t c Heq; simpl; [done |].
  apply IH. simpl. by rewrite Heq.
Qed.

Lemma tally_count (l : list Violation) (s : string) :
  s ≠ "unknown" →
  default 0 (severity_counts (tally_loop l (mkTally ∅ ∅ 0%Z ∅)) !! s)
  = length (filter (λ v, v_severity v = Some s) l).
Proof.
  intros Hs.
  rewrite (tally_loop_severity l _ (mkCounters ∅ ∅ ∅ ∅)) by done.
  destruct (summary_loop_counts l) as (Hsev & _). rewrite Hsev. simpl.
  assert (filter (λ v, default "unknown" (v_severity v) = s) l
          = filter (λ v, v_severity v = Some s) l) as ->.
  { apply list_filter_iff. intros v. destruct (v_severity v); simpl;
      split; congruence. }
  case_decide as Hn; simpl; [by rewrite Hn | done].
Qed.

Lemma tally_loop_records (l : list Violation) (t : Tally) :
  total_records (tally_loop l t)
  = (total_records t + foldr (λ v acc, v_violation_count v + acc) 0 l)%Z.
Proof.
  revert t. induction l as [| v l IH]; intros t; simpl; [lia |].
  rewrite IH. simpl. lia.
Qed.

Lemma tally_loop_tables (l : list Violation) (t : Tally) (x : string) :
  x ∈ tables_affected (tally_loop l t)
  ↔ x ∈ tables_affected t
    ∨ (x ≠ EmptyString ∧ ∃ v, v ∈ l ∧ v_table v = Some x).
Proof.
  revert t. induction l as [| v l IH]; intros t; simpl.
  - split; [by left |]. intros [H | (_ & v & Hv & _)]; [done |].
    by apply not_elem_of_nil in Hv.
  - rewrite IH. simpl. destruct (v_table v) as [[| c s] |] eqn:Ht; simpl.
    + split.
      * intros [H | (Hx & u & Hu & Hux)]; [by left |].
        right. split; [done |]. exists u. split; [by right | done].
      * intros [H | (Hx & u & Hu & Hux)]; [by left |].
        apply elem_of_cons in Hu as [-> | Hu]; [congruence |].
        right. eauto.
    + rewrite elem_of_union, elem_of_singleton. split.
      * intros [[-> | H] | (Hx & u & Hu & Hux)].
        -- right. split; [done |]. exists v. split; [left | done].
        -- by left.
        -- right. split; [done |]. exists u. split; [by right | done].
      * intros [H | (Hx & u & Hu & Hux)]; [by left; right |].
        apply elem_of_cons in Hu as [-> | Hu].
        -- left. left. congruence.
        -- right. eauto.
    + split.
      * intros [H | (Hx & u & Hu & Hux)]; [by left |].
        right. split; [done |]. exists u. split; [by right | done].
      * intros [H | (Hx & u & Hu & Hux)]; [by left |].
        apply elem_of_cons in Hu as [-> | Hu]; [congruence |].
        right. eauto.
Qed.

(** X30.  The impact assessment of a group of violations.  The overall
    risk level is CRITICAL when there is a critical violation or more than
    five high ones; otherwise HIGH when there is a high one; otherwise
    MEDIUM when there are more than five medium ones; otherwise LOW, so up
    to five medium violations and any number of violations of another or of
    no severity are assessed LOW.  Immediate action is required exactly
    when there is a critical violation or more than three high ones, which
    always comes with the level CRITICAL or HIGH.  The records affected
    are the sum of the hit counts, the tables affected are the non-empty
    table names of the violations, and there is always a recommendation. *)
Theorem X30_impact_assessment (violations : list Violation) :
  let a := generate_impact_assessment violations in
  let count :=
    λ s, length (filter (λ v, v_severity v = Some s) violations) in
  (overall_risk_level a = "CRITICAL"
   ↔ (0 < count "critical" ∨ 5 < count "high")%nat)
  ∧ (overall_risk_level a = "HIGH"
     ↔ (count "critical" = 0 ∧ 0 < count "high" ≤ 5)%nat)
  ∧ (overall_risk_level a = "MEDIUM"
     ↔ (count "critical" = 0 ∧ count "high" = 0 ∧ 5 < count "medium")%nat)
  ∧ (overall_risk_level a = "LOW"
     ↔ (count "critical" = 0 ∧ count "high" = 0 ∧ count "medium" ≤ 5)%nat)
  ∧ (immediate_action_required a = true
     ↔ (0 < count "critical" ∨ 3 < count "high")%nat)
  ∧ (immediate_action_required a = true →
     overall_risk_level a = "CRITICAL" ∨ overall_risk_level a = "HIGH")
  ∧ total_records_affected a
    = foldr (λ v acc, (v_violation_count v + acc)%Z) 0%Z violations
  ∧ (∀ table, table ∈ a_tables_affected a
              ↔ table ≠ EmptyString
                ∧ ∃ v, v ∈ violations ∧ v_table v = Some table)
  ∧ (3 ≤ length (recommendations a))%nat.
Proof.
  intros a count. subst a. unfold generate_impact_assessment. simpl.
  rewrite !tally_count by done. fold (count "critical").
  fold (count "high"). fold (count "medium").
  rewrite tally_loop_records.
  assert (∀ table,
            table ∈ tables_affected
                      (tally_loop violations (mkTally ∅ ∅ 0%Z ∅))
            ↔ table ≠ EmptyString
              ∧ ∃ v, v ∈ violations ∧ v_table v = Some table) as Htables.
  { intros table. rewrite tally_loop_tables. simpl. split.
    - intros [H | H]; [by apply not_elem_of_empty in H | done].
    - by right. }
  destruct (Nat.ltb_spec 0 (count "critical"));
    destruct (Nat.ltb_spec 5 (count "high"));
    destruct (Nat.ltb_spec 0 (count "high"));
    destruct (Nat.ltb_spec 3 (count "high"));
    destruct (Nat.ltb_spec 5 (count "medium")); simpl;
    (split; [| split; [| split; [| split; [| split; [| split;
       [| split; [| split]]]]]]]);
    try exact Htables; try (simpl; lia); try done;
    try (split; intros Hgoal;
         first [discriminate Hgoal | lia | done | exfalso; lia]);
    try (intros _; auto; fail).
Qed.

End ImpactFacts.

(** ** The scanner's checkers on sample backends *)

Section CheckerExamples.

Import ViolationEngine DatabaseScanner Checkers.
Local Open Scope string_scope.
Local Open Scope list_scope.

(** A backend that refuses the [INTERVAL] syntax and then reports seven
    old records: the second dialect gives the retention entry, after two
    queries. *)
Lemma X20_witness :
  retention_column (MoreSamples.sqlite_backend [MoreSamples.count_row 7])
    "users" Samples.retention_rule 90 "created_at" [] 0
  = (Returns [retention_hit "users" Samples.retention_rule "created_at" 7 90],
     2).
Proof.
  refine (proj1 (X20_retention_second_dialect
                   (MoreSamples.sqlite_backend [MoreSamples.count_row 7])
                   "users" Samples.retention_rule 90 "created_at" [] 0 1
                   (mkExc "OperationalError" "near INTERVAL: syntax error")
                   _ _)
            (MoreSamples.count_row 7) [] 7%Z _ _ _).
  - reflexivity.
  - reflexivity.
  - reflexivity.
  - reflexivity.
  - reflexivity.
Defined.


(** A scan of the tables [users] and [orders] on a backend that has
    [users] only: one table is scanned, the history records two. *)
Lemma X25_witness :
  sr_tables_scanned
    (MoreSamples.scanned
       [encryption_hit "users" Samples.encryption_rule "ssn"])
  = ["users"]
  ∧ ∃ entry,
      scan_history (MoreSamples.recorded 2 1) = [entry]
      ∧ h_tables entry = 2.
Proof.
  assert (scan (MoreSamples.users_backend Samples.ssn_rows)
            Samples.counting_checkers MoreSamples.strftime_now
            MoreSamples.isoformat_now (mkScanner [])
            [Samples.encryption_rule] (Some ["users"; "orders"]) 1000 0
          = (Returns
               (MoreSamples.scanned
                  [encryption_hit "users" Samples.encryption_rule "ssn"],
                MoreSamples.recorded 2 1), 6)) as Hscan
    by (vm_compute; reflexivity).
  destruct (X25_scan_result (MoreSamples.users_backend Samples.ssn_rows)
              Samples.counting_checkers MoreSamples.strftime_now
              MoreSamples.isoformat_now (mkScanner [])
              [Samples.encryption_rule] (Some ["users"; "orders"]) 1000 0
              6 _ Hscan)
    as (all_tables & w0 & w1 & Hget & Hscanned & _ & _ & _ & entry & Hhist
        & _ & _ & Htables & _).
  injection Hget as <- _.
  split; [exact Hscanned |]. exists entry. split; [exact Hhist |].
  exact Htables.
Defined.

(** The same scan with the scanner's own checkers, followed by the
    detection: the column [ssn] gives one violation, on the table [users],
    of the rule's type. *)
Lemma X26_witness :
  let r :=
    MoreSamples.scanned
      [encryption_hit "users" Samples.encryption_rule "ssn"] in
  Forall (λ v, ∃ table rule pv,
                 table ∈ sr_tables_scanned r
                 ∧ rule ∈ [Samples.encryption_rule]
                 ∧ pv ∈ sr_potential_violations r
                 ∧ v_table v = Some table
                 ∧ v_scan_id v = sr_scan_id r
                 ∧ v_rule_id v = r_id rule
                 ∧ v_rule_type v = Some (default "custom" (r_type rule))
                 ∧ (NoDup (r_id <$> [Samples.encryption_rule]) →
                    is_Some (r_id rule) →
                    v_severity v = Some (_determine_severity pv rule)))
    (detect Samples.ids Samples.clock (mkEngine []) r
       [Samples.encryption_rule]).1.
Proof.
  assert (scan (MoreSamples.users_backend Samples.ssn_rows)
            (scanner_checkers (MoreSamples.users_backend Samples.ssn_rows)
               MoreSamples.sample_int MoreSamples.no_retention_keys)
            MoreSamples.strftime_now MoreSamples.isoformat_now
            (mkScanner []) [Samples.encryption_rule]
            (Some ["users"; "orders"]) 1000 0
          = (Returns
               (MoreSamples.scanned
                  [encryption_hit "users" Samples.encryption_rule "ssn"],
                MoreSamples.recorded 2 1), 6)) as Hscan
    by (vm_compute; reflexivity).
  exact (proj2 (X26_pipeline_attribution
                  (MoreSamples.users_backend Samples.ssn_rows)
                  MoreSamples.sample_int MoreSamples.no_retention_keys
                  Samples.ids Samples.clock MoreSamples.strftime_now
                  MoreSamples.isoformat_now (mkScanner []) (mkEngine [])
                  [Samples.encryption_rule] (Some ["users"; "orders"]) 1000
                  0 6 _ Hscan)).
Defined.

(** The masking checker on an [email] column: the first value is masked
    from its start and passes, the second is not. *)
Example check_data_masking_email :
  Checkers._check_data_masking
    (MoreSamples.sql_backend
       [Samples.row1 "email" (VText "***@example.org");
        Samples.row1 "email" (VText "j***@example.org")])
    "users" MoreSamples.masking_rule ["email"] 1000 0
  = (Returns [masking_hit "users" MoreSamples.masking_rule "email"], 1).
Proof. reflexivity. Qed.

(** The age checker reads 13 off the rule text and asks about it. *)
Example check_age_restriction_13 :
  search_years "Users must be at least 13 years old" = Some "13"
  ∧ Checkers._check_age_restriction
      (MoreSamples.sql_backend [MoreSamples.count_row 4])
      MoreSamples.sample_int "users" MoreSamples.age_rule
      ["id"; "birth_date"] 1000 0
    = (Returns [age_hit "users" MoreSamples.age_rule "birth_date" 4 13], 1).
Proof. split; reflexivity. Qed.

(** On a backend that is not an SQL database the retention checker and
    the age checker send nothing. *)
Example document_backend_not_queried :
  Checkers._check_data_retention
    (MoreSamples.document_backend [MoreSamples.count_row 4])
    MoreSamples.sample_int "users" Samples.retention_rule
    (MoreSamples.no_retention_keys Samples.retention_rule)
    ["id"; "created_at"] 1000 0
  = (Returns [], 0)
  ∧ Checkers._check_age_restriction
      (MoreSamples.document_backend [MoreSamples.count_row 4])
      MoreSamples.sample_int "users" MoreSamples.age_rule
      ["id"; "birth_date"] 1000 0
    = (Returns [], 0).
Proof. split; reflexivity. Qed.

(** A retention rule with a predicate on a table without a date-like
    column is not skipped, but its predicate is not evaluated either: the
    generic checker, which would fail here, is not called. *)
Example typed_rule_predicate_not_evaluated :
  _check_rule_against_table (MoreSamples.sql_backend [])
    MoreSamples.counting_checkers_failing_generic "users"
    MoreSamples.retention_rule_with_predicate ["id"; "name"] 1000 0
  = (Returns [], 1)
  ∧ _check_rule_against_table (MoreSamples.sql_backend [])
      MoreSamples.counting_checkers_failing_generic "users"
      MoreSamples.custom_rule ["id"; "name"] 1000 0
    = (Returns
         [scan_error_entry "users" MoreSamples.custom_rule
            (mkExc "OperationalError" "syntax error")], 1).
Proof. split; reflexivity. Qed.

(** A consent rule without predicate finds nothing on a table with an
    [email] column, which the column matcher selects. *)
Example consent_rule_without_predicate :
  _find_applicable_columns MoreSamples.consent_rule ["id"; "email"]
  = ["email"]
  ∧ _check_rule_against_table (MoreSamples.sql_backend [])
      Samples.failing_checkers "users" MoreSamples.consent_rule
      ["id"; "email"] 1000 0
    = (Returns [], 0).
Proof. split; reflexivity. Qed.

(** The geographic checker reports a [country] column with the values it
    sampled, whatever region the rule names. *)
Example check_geographic_restriction_country :
  Checkers._check_geographic_restriction
    (MoreSamples.sql_backend
       [Samples.row1 "country" (VText "DE");
        Samples.row1 "country" (VText "US")])
    "users" MoreSamples.geo_rule ["id"; "country"] 1000 0
  = (Returns
       [geographic_hit "users" MoreSamples.geo_rule "country"
          [VText "DE"; VText "US"]], 1).
Proof. reflexivity. Qed.

(** A backend that refuses every query: the checkers absorb the failures
    and report nothing; the retention checker has tried both dialects. *)
Example refusing_backend_absorbed :
  Checkers._check_data_masking MoreSamples.refusing_backend "users"
    MoreSamples.masking_rule ["email"; "phone"] 1000 0
  = (Returns [], 2)
  ∧ Checkers._check_sql_condition MoreSamples.refusing_backend "users"
      MoreSamples.custom_rule 1000 0
    = (Returns [], 1)
  ∧ Checkers._check_geographic_restriction MoreSamples.refusing_backend
      "users" MoreSamples.geo_rule ["id"; "country"] 1000 0
    = (Returns [], 1)
  ∧ Checkers._check_data_retention MoreSamples.refusing_backend
      MoreSamples.sample_int "users" Samples.retention_rule
      (MoreSamples.no_retention_keys Samples.retention_rule)
      ["id"; "created_at"] 1000 0
    = (Returns [], 2).
Proof. repeat split. Qed.

End CheckerExamples.
